(** * simple-wave: a shallow embedding of [wave.h] and [wave.cpp]

    The development follows the layout of the sources: the little-endian
    stream helpers, the [Chunk] hierarchy ([RiffChunk], [FmtChunk],
    [DataChunk]), then the [Wave] container with its loader, its writer and
    its sample codec; then the functions of [wave.cpp]: [WavLoad],
    [WavLength], [WavSave] and the effects built on them.  The printer
    [operator<<] and the interactive [main] are left out.

    Conventions.
    - Fixed-width C++ integers are [Z] values with their wrap-around written
      out ([to_uint16], [to_uint32], [to_ull], [to_int]).
    - [double] is the primitive binary64 type [float] of the kernel, so the
      arithmetic of the sample codec is the IEEE arithmetic of the program.
    - A [char] array is a [list Z] of byte values; a pointer into it is the
      array together with an index.
    - An input stream is the list of the bytes still to be read together
      with its [good()] flag; an output stream is the list of the bytes
      written so far; [std::cerr] is the list of the lines printed.
    - An array of [double] is a [list float]; the file system is a map from
      names to contents.
    - The functions of [wave.h] are total functions on the records.  Where
      the program has no defined behaviour (an access outside an array, an
      array deleted twice, a double that the integer type cannot hold) they
      take the documented default; the part "Where the behaviour is defined"
      gives the conditions under which the program is defined, the
      statements assume them, and the runs of [wave.cpp] check them. *)

From Stdlib Require Import String ZArith List Lia Bool.
From Stdlib Require Import PrimFloat SpecFloat FloatOps.
Import ListNotations.
Open Scope Z_scope.

(** ** Machine integers *)

Definition to_uchar (z : Z) : Z := z mod 2 ^ 8.
Definition to_uint16 (z : Z) : Z := z mod 2 ^ 16.
Definition to_uint32 (z : Z) : Z := z mod 2 ^ 32.
Definition to_ull (z : Z) : Z := z mod 2 ^ 64.

(** Conversion to the 32-bit [int]: two's complement wrap-around. *)
Definition to_int (z : Z) : Z := (z + 2 ^ 31) mod 2 ^ 32 - 2 ^ 31.

(** [x << n] at type [int].  For [n < 32] this is the wrapped product (what
    every compiler produces, and what the language defines since C++20).  A
    count of 32 or more is undefined in C++; the model then takes the count
    modulo 32, as the x86 shift instruction does. *)
Definition int_shl (x n : Z) : Z := to_int (Z.shiftl x (n mod 32)).

(** Shifts at type [unsigned long long]; a count of 64 or more is undefined
    in C++ and is taken modulo 64 here. *)
Definition ull_shl (x n : Z) : Z := to_ull (Z.shiftl x (n mod 64)).
Definition ull_shr (x n : Z) : Z := Z.shiftr x (n mod 64).

(** Modulus of an unsigned type of [size] bytes. *)
Definition to_uintT (size : Z) (z : Z) : Z := z mod 2 ^ (8 * size).

(** ** Doubles *)

(** Conversion of an unsigned integer to [double]: round to nearest even. *)
Definition ull_to_double (z : Z) : float :=
  SF2Prim (binary_normalize prec emax z 0 false).

(** The integer part of a finite double (truncation toward zero). *)
Definition trunc_double (x : float) : option Z :=
  match Prim2SF x with
  | S754_zero _ => Some 0
  | S754_finite s m e =>
      let mag := Z.shiftl (Zpos m) e in Some (if s then - mag else mag)
  | S754_infinity _ | S754_nan => None
  end.

(** The values for which the conversion [double -> unsigned long long] is
    defined by the language. *)
Definition ull_representable (x : float) : bool :=
  match trunc_double x with
  | Some z => (0 <=? z) && (z <? 2 ^ 64)
  | None => false
  end.

(** Conversion [double -> unsigned long long].  Outside [ull_representable]
    the conversion is undefined in C++ and the compiled program need not
    agree with any one choice (for a double of [2^64] or more the x86-64
    code of g++ gives 0).  The model wraps the integer part and maps
    infinities and NaN to 0 there; a statement about the program assumes
    [ull_representable] of every value it converts, and the runs of
    [wave.cpp] check it ([SetSample_defined]). *)
Definition double_to_ull (x : float) : Z :=
  match trunc_double x with
  | Some z => to_ull z
  | None => 0
  end.

(** ** Arrays of [char] *)

(** [a[i]]; reading outside the array is undefined in C++, where the program
    reads whatever follows the array on the heap.  The model reads 0 there;
    a statement about the program is made where the reads stay inside the
    array ([sample_in_array]). *)
Definition array_get (a : list Z) (i : Z) : Z :=
  if i <? 0 then 0 else nth (Z.to_nat i) a 0.

Fixpoint array_set_nat (a : list Z) (i : nat) (v : Z) : list Z :=
  match a, i with
  | [], _ => []
  | _ :: t, O => v :: t
  | h :: t, S i' => h :: array_set_nat t i' v
  end.

(** [a[i] = v], the stored value converted to [char]; writing outside the
    array is undefined in C++, where the program overruns the heap buffer.
    The model leaves the array as it is there; a statement about the program
    is made where the writes stay inside the array ([sample_in_array]). *)
Definition array_set (a : list Z) (i : Z) (v : Z) : list Z :=
  if i <? 0 then a else array_set_nat a (Z.to_nat i) (to_uchar v).

(** [std::memcpy(dst, src, n)]. *)
Definition memcpy (dst src : list Z) (n : Z) : list Z :=
  firstn (Z.to_nat n) src ++ skipn (Z.to_nat n) dst.

(** ** Streams *)

Record istream := mk_istream { in_bytes : list Z; in_good : bool }.

Definition ostream := list Z.

(** [stream.read(buf, n)]: the bytes obtained and the stream afterwards.  A
    stream that is not good yields nothing; a stream that ends before [n]
    bytes yields what is left and stops being good. *)
Definition istream_read (s : istream) (n : Z) : list Z * istream :=
  if in_good s then
    if n <=? Z.of_nat (length (in_bytes s))
    then (firstn (Z.to_nat n) (in_bytes s),
          mk_istream (skipn (Z.to_nat n) (in_bytes s)) true)
    else (in_bytes s, mk_istream [] false)
  else ([], s).

(** [stream.ignore(n)]. *)
Definition istream_ignore (s : istream) (n : Z) : istream :=
  snd (istream_read s n).

(** [stream.write(buf, n)]: the first [n] bytes of the array.  Writing more
    bytes than the array holds is undefined in C++: the program hands a null
    or short pointer to the stream and crashes, as [Save] does after
    [LoadMetadata].  The model writes what the array holds there; a
    statement about the program is made where every chunk written owns
    [data_length_] bytes ([owns_its_length]). *)
Definition ostream_write (o : ostream) (buf : list Z) (n : Z) : ostream :=
  o ++ firstn (Z.to_nat n) buf.

Section Uninitialised.

(** The program reads two kinds of storage that it never initialised: the
    local [char byte] of [ReadLittleEndian] when a read fails, and the array
    that [new char[n]] returns.  Their contents are arbitrary: the whole
    development is parametric in them. *)
Variable stack_junk : Z.
Variable heap_junk : nat -> Z.

(** [new char[n]].  One function [heap_junk] gives the contents of every
    new array, so two allocations of the model hold the same bytes where
    two allocations of the program need not.  A statement that compares two
    runs is therefore made on files whose chunks are complete, where every
    byte of every array is overwritten from the stream before it is read. *)
Definition new_char (n : Z) : list Z :=
  map (fun i => to_uchar (heap_junk i)) (seq 0 (Z.to_nat n)).

(** ** ReadLittleEndian, WriteLittleEndian *)

(** One turn of the loop of [ReadLittleEndian<T>], [sizeofT = sizeof(T)]. *)
Definition ReadLittleEndian_step (sizeofT : Z) (i : Z) (acc : Z * istream)
  : Z * istream :=
  let (out, stream) := acc in
  let (got, stream') := istream_read stream 1 in
  let byte := match got with b :: _ => b | [] => stack_junk end in
  (to_uintT sizeofT (Z.lor out (int_shl (to_uchar byte) (to_uint32 (8 * i)))),
   stream').

Fixpoint ReadLittleEndian_loop (sizeofT : Z) (n : nat) (i : Z)
  (acc : Z * istream) : Z * istream :=
  match n with
  | O => acc
  | S n' =>
      ReadLittleEndian_loop sizeofT n' (i + 1)
        (ReadLittleEndian_step sizeofT i acc)
  end.

Definition ReadLittleEndian (sizeofT : Z) (stream : istream) : Z * istream :=
  ReadLittleEndian_loop sizeofT (Z.to_nat sizeofT) 0 (0, stream).

Fixpoint WriteLittleEndian_loop (n : nat) (i : Z) (out : Z) (stream : ostream)
  : ostream :=
  match n with
  | O => stream
  | S n' =>
      let byte := Z.land (Z.shiftr out (8 * i)) 255 in
      WriteLittleEndian_loop n' (i + 1) out (ostream_write stream [byte] 1)
  end.

Definition WriteLittleEndian (sizeofT : Z) (out : Z) (stream : ostream)
  : ostream :=
  WriteLittleEndian_loop (Z.to_nat sizeofT) 0 out stream.

(** ** Chunk *)

Record Chunk := mk_Chunk { chunk_type : Z; chunk_size : Z }.

Definition CHUNK_TYPE_RIFF : Z := 0x46464952.
Definition CHUNK_TYPE_FMT : Z := 0x20746d66.
Definition CHUNK_TYPE_DATA : Z := 0x61746164.
Definition DEFAULT_CHUNK_SIZE_FMT : Z := 16.
Definition DEFAULT_CHUNK_SIZE_DATA : Z := 0.
Definition DEFAULT_CHUNK_SIZE_RIFF : Z :=
  4 + 8 + DEFAULT_CHUNK_SIZE_FMT + 8 + DEFAULT_CHUNK_SIZE_DATA.

(** [Chunk::Chunk(uint32_t type)]. *)
Definition Chunk_new (type : Z) : Chunk :=
  mk_Chunk type
    (if type =? CHUNK_TYPE_RIFF then DEFAULT_CHUNK_SIZE_RIFF
     else if type =? CHUNK_TYPE_FMT then DEFAULT_CHUNK_SIZE_FMT
     else if type =? CHUNK_TYPE_DATA then DEFAULT_CHUNK_SIZE_DATA
     else 0).

Definition Chunk_ReadFrom (stream : istream) (c : Chunk) : Chunk * istream :=
  let (size, stream) := ReadLittleEndian 4 stream in
  (mk_Chunk (chunk_type c) size, stream).

Definition Chunk_WriteTo (c : Chunk) (stream : ostream) : ostream :=
  let stream := WriteLittleEndian 4 (chunk_type c) stream in
  WriteLittleEndian 4 (chunk_size c) stream.

(** ** RiffChunk *)

Record RiffChunk := mk_RiffChunk { riff_base : Chunk; riff_type : Z }.

Definition RIFF_TYPE_WAVE : Z := 0x45564157.

Definition RiffChunk_new : RiffChunk :=
  mk_RiffChunk (Chunk_new CHUNK_TYPE_RIFF) RIFF_TYPE_WAVE.

Definition RiffChunk_ReadFrom (stream : istream) (r : RiffChunk)
  : RiffChunk * istream :=
  let (base, stream) := Chunk_ReadFrom stream (riff_base r) in
  let (ty, stream) := ReadLittleEndian 4 stream in
  (mk_RiffChunk base ty, stream).

Definition RiffChunk_WriteTo (r : RiffChunk) (stream : ostream) : ostream :=
  let stream := Chunk_WriteTo (riff_base r) stream in
  WriteLittleEndian 4 (riff_type r) stream.

(** ** FmtChunk *)

Record FmtChunk := mk_FmtChunk {
  fmt_base : Chunk;
  compression : Z;
  nchannels : Z;
  sample_rate : Z;
  bytes_per_sec : Z;
  block_align : Z;
  bits_per_sample : Z
}.

Definition COMPRESSION_NONE : Z := 1.
Definition DEFAULT_COMPRESSION : Z := COMPRESSION_NONE.
Definition DEFAULT_NCHANNELS : Z := 1.
Definition DEFAULT_SAMPLE_RATE : Z := 22050.
Definition DEFAULT_BITS_PER_SAMPLE : Z := 16.
Definition DEFAULT_BLOCK_ALIGN : Z :=
  (DEFAULT_BITS_PER_SAMPLE / 8) * DEFAULT_NCHANNELS.
Definition DEFAULT_BYTES_PER_SEC : Z :=
  DEFAULT_SAMPLE_RATE * DEFAULT_BLOCK_ALIGN.

Definition FmtChunk_new : FmtChunk :=
  mk_FmtChunk (Chunk_new CHUNK_TYPE_FMT)
    DEFAULT_COMPRESSION DEFAULT_NCHANNELS DEFAULT_SAMPLE_RATE
    (to_uint32 DEFAULT_BYTES_PER_SEC) (to_uint16 DEFAULT_BLOCK_ALIGN)
    (to_uint16 DEFAULT_BITS_PER_SAMPLE).

Definition compressed_warning : string :=
  "This WAV file appears to be compressed -- I can't deal with that.".

(** [FmtChunk::ReadFrom]; the third component is what it prints on
    [std::cerr]. *)
Definition FmtChunk_ReadFrom (stream : istream) (f : FmtChunk)
  : FmtChunk * istream * list string :=
  let (base, stream) := Chunk_ReadFrom stream (fmt_base f) in
  let (c, stream) := ReadLittleEndian 2 stream in
  let (n, stream) := ReadLittleEndian 2 stream in
  let (sr, stream) := ReadLittleEndian 4 stream in
  let (bps, stream) := ReadLittleEndian 4 stream in
  let (ba, stream) := ReadLittleEndian 2 stream in
  let (bits, stream) := ReadLittleEndian 2 stream in
  (mk_FmtChunk base c n sr bps ba bits, stream,
   if negb (c =? COMPRESSION_NONE) then [compressed_warning] else []).

Definition FmtChunk_WriteTo (f : FmtChunk) (stream : ostream) : ostream :=
  let stream := Chunk_WriteTo (fmt_base f) stream in
  let stream := WriteLittleEndian 2 (compression f) stream in
  let stream := WriteLittleEndian 2 (nchannels f) stream in
  let stream := WriteLittleEndian 4 (sample_rate f) stream in
  let stream := WriteLittleEndian 4 (bytes_per_sec f) stream in
  let stream := WriteLittleEndian 2 (block_align f) stream in
  WriteLittleEndian 2 (bits_per_sample f) stream.

(** ** DataChunk *)

(** [data_] is the array the chunk owns, [[]] when it owns none (the pointer
    is null or was deleted); [data_length_] is the private length field,
    which [Skip] sets without allocating. *)
Record DataChunk := mk_DataChunk {
  data_base : Chunk;
  data_ : list Z;
  data_length_ : Z
}.

Definition DataChunk_new : DataChunk :=
  mk_DataChunk (Chunk_new CHUNK_TYPE_DATA) [] 0.

(** [explicit DataChunk(uint32_t chunk_type)]. *)
Definition DataChunk_of_type (type : Z) : DataChunk :=
  mk_DataChunk (Chunk_new type) [] 0.

(** [DataChunk::ReAllocData(unsigned length)].  The record holds the array
    and the two length fields.  It does not tell a null pointer from a
    pointer to a deleted array (both are [[]]): the function deletes the
    array it owns and leaves the pointer as it is when the new length is 0,
    so that a later [ReAllocData], or the destructor, deletes the same array
    again.  [ReAllocData_pointer] follows the pointer and says when that
    happens. *)
Definition DataChunk_ReAllocData (length : Z) (d : DataChunk) : DataChunk :=
  let chunk_size' := length in
  let data_length := length in
  let data_length := to_uint32 (data_length + chunk_size' mod 2) in
  let data :=
    if negb (data_length =? 0) then
      let fresh := new_char data_length in
      if negb (chunk_size' mod 2 =? 0)
      then array_set fresh (data_length - 1) 0
      else fresh
    else [] in
  mk_DataChunk (mk_Chunk (chunk_type (data_base d)) chunk_size')
    data data_length.

(** The copy constructor [DataChunk(DataChunk const& other)]. *)
Definition DataChunk_copy (other : DataChunk) : DataChunk :=
  let d := mk_DataChunk (data_base other) [] 0 in
  let d := DataChunk_ReAllocData (chunk_size (data_base other)) d in
  mk_DataChunk (data_base d)
    (memcpy (data_ d) (data_ other) (data_length_ other))
    (data_length_ d).

Definition DataChunk_ReadFrom (stream : istream) (d : DataChunk)
  : DataChunk * istream :=
  let (base, stream) := Chunk_ReadFrom stream (data_base d) in
  let d := mk_DataChunk base (data_ d) (data_length_ d) in
  let d := DataChunk_ReAllocData (chunk_size (data_base d)) d in
  let (got, stream) := istream_read stream (data_length_ d) in
  (mk_DataChunk (data_base d)
     (got ++ skipn (length got) (data_ d)) (data_length_ d),
   stream).

Definition DataChunk_Skip (stream : istream) (d : DataChunk)
  : DataChunk * istream :=
  let d := DataChunk_ReAllocData 0 d in
  let (base, stream) := Chunk_ReadFrom stream (data_base d) in
  let data_length :=
    to_uint32 (chunk_size base + chunk_size base mod 2) in
  (mk_DataChunk base (data_ d) data_length,
   istream_ignore stream data_length).

Definition DataChunk_WriteTo (d : DataChunk) (stream : ostream) : ostream :=
  let stream := Chunk_WriteTo (data_base d) stream in
  ostream_write stream (data_ d) (data_length_ d).

(** ** Wave *)

Record Wave := mk_Wave {
  riff_chunk : RiffChunk;
  fmt_chunk : FmtChunk;
  data_chunk : DataChunk;
  other_chunks : list DataChunk
}.

(** [Wave::Wave(void)]. *)
Definition Wave_new : Wave :=
  mk_Wave RiffChunk_new FmtChunk_new DataChunk_new [].

Definition bytes_per_sample (w : Wave) : Z := block_align (fmt_chunk w).

Definition bytes_per_sample_slice (w : Wave) : Z :=
  bits_per_sample (fmt_chunk w) / 8.

(** Unsigned division as the machine performs it: a zero divisor faults. *)
Definition udiv (a b : Z) : option Z :=
  if b =? 0 then None else Some (a / b).

(** [Wave::nsamples], [None] standing for a division fault. *)
Definition nsamples_checked (w : Wave) : option Z :=
  if (chunk_size (data_base (data_chunk w)) =? 0)
     || (bytes_per_sample w =? 0)
  then Some 0
  else udiv (chunk_size (data_base (data_chunk w))) (bytes_per_sample w).

Definition nsamples (w : Wave) : Z :=
  match nsamples_checked w with Some n => n | None => 0 end.

Definition with_fmt (w : Wave) (f : FmtChunk) : Wave :=
  mk_Wave (riff_chunk w) f (data_chunk w) (other_chunks w).

Definition with_data (w : Wave) (d : DataChunk) : Wave :=
  mk_Wave (riff_chunk w) (fmt_chunk w) d (other_chunks w).

Definition with_riff (w : Wave) (r : RiffChunk) : Wave :=
  mk_Wave r (fmt_chunk w) (data_chunk w) (other_chunks w).

Definition with_others (w : Wave) (l : list DataChunk) : Wave :=
  mk_Wave (riff_chunk w) (fmt_chunk w) (data_chunk w) l.

(** [Wave::UpdateFmtValues].  The product for [bytes_per_sec] is taken at
    [unsigned int], the one for [block_align] at [int] and then stored in a
    16-bit field. *)
Definition UpdateFmtValues (w : Wave) : Wave :=
  let f := fmt_chunk w in
  let bps :=
    to_uint32 (to_uint32 (sample_rate f * nchannels f)
               * (bits_per_sample f / 8)) in
  let ba := to_uint16 (to_int (nchannels f * (bits_per_sample f / 8))) in
  with_fmt w
    (mk_FmtChunk (fmt_base f) (compression f) (nchannels f) (sample_rate f)
       bps ba (bits_per_sample f)).

(** [Wave::UpdateRiffFileSize]; [total] is an [unsigned]. *)
Definition UpdateRiffFileSize (w : Wave) : Wave :=
  let total := to_uint32 (8 * 3) in
  let total := to_uint32 (total + 4) in
  let total := to_uint32 (total + chunk_size (fmt_base (fmt_chunk w))) in
  let total := to_uint32 (total + chunk_size (data_base (data_chunk w))) in
  let total :=
    fold_left (fun t it => to_uint32 (t + chunk_size (data_base it)))
      (other_chunks w) total in
  with_riff w
    (mk_RiffChunk (mk_Chunk (chunk_type (riff_base (riff_chunk w))) total)
       (riff_type (riff_chunk w))).

(** [Wave::Resize]. *)
Definition Resize (new_nsamples : Z) (w : Wave) : Wave :=
  let w := UpdateFmtValues w in
  with_data w
    (DataChunk_ReAllocData (to_uint32 (new_nsamples * bytes_per_sample w))
       (data_chunk w)).

(** ** The sample codec *)

Fixpoint max_thing_value_loop (n : nat) (i : Z) (answer : Z) : Z :=
  match n with
  | O => answer
  | S n' =>
      max_thing_value_loop n' (i + 1)
        (Z.lor answer (ull_shl 255 (to_uint32 (8 * i))))
  end.

Definition max_thing_value (sizeof_thing : Z) : Z :=
  max_thing_value_loop (Z.to_nat sizeof_thing) 0 0.

(** [~(1<<(sizeof_thing*8-1)) & max_thing_value(sizeof_thing)]: the shift
    and the complement are taken at [int], the result is then converted to
    [unsigned long long] for the conjunction. *)
Definition max_signed_value (sizeof_thing : Z) : Z :=
  Z.land (to_ull (Z.lnot (int_shl 1 (to_uint32 (sizeof_thing * 8 - 1)))))
         (max_thing_value sizeof_thing).

(** The loop of [Wave::GetValue]: [(unsigned char)things[i] << 8*i] is an
    [int], converted to [unsigned long long] when it is or-ed in. *)
Fixpoint GetValue_loop (mem : list Z) (things : Z) (n : nat) (i : Z)
  (answer : Z) : Z :=
  match n with
  | O => answer
  | S n' =>
      GetValue_loop mem things n' (i + 1)
        (Z.lor answer
           (to_ull (int_shl (to_uchar (array_get mem (things + i)))
                            (to_uint32 (8 * i)))))
  end.

(** [Wave::GetValue(things, sizeof_thing, thing_is_signed)], the pointer
    [things] being the index [things] into the array [mem]. *)
Definition GetValue (mem : list Z) (things : Z) (sizeof_thing : Z)
  (thing_is_signed : bool) : Z :=
  let answer := GetValue_loop mem things (Z.to_nat sizeof_thing) 0 0 in
  if thing_is_signed then
    if max_signed_value sizeof_thing <? answer
    then to_ull (answer - to_ull (max_signed_value sizeof_thing + 1))
    else to_ull (answer + to_ull (max_signed_value sizeof_thing + 1))
  else answer.

Fixpoint TakeChannelAvg_loop (mem : list Z) (things : Z) (sizeof_thing : Z)
  (thing_is_signed : bool) (n : nat) (i : Z) (total : Z) : Z :=
  match n with
  | O => total
  | S n' =>
      let thing :=
        GetValue mem (things + to_uint32 (i * sizeof_thing)) sizeof_thing
          thing_is_signed in
      TakeChannelAvg_loop mem things sizeof_thing thing_is_signed n' (i + 1)
        (to_ull (total + thing))
  end.

(** The last two statements of [TakeChannelAvg]. *)
Definition munge (total : Z) (nthings sizeof_thing : Z) : float :=
  let average := (ull_to_double total / ull_to_double nthings)%float in
  (average / ull_to_double (max_thing_value sizeof_thing) * 2 - 1)%float.

Definition TakeChannelAvg (mem : list Z) (things : Z)
  (nthings sizeof_thing : Z) (thing_is_signed : bool) : float :=
  let total :=
    TakeChannelAvg_loop mem things sizeof_thing thing_is_signed
      (Z.to_nat nthings) 0 0 in
  munge total nthings sizeof_thing.

(** The value [PutChannelAvg] scatters: the scaled double converted to
    [unsigned long long], then re-biased when the slice is signed. *)
Definition encode_thing (value : float) (sizeof_thing : Z)
  (thing_is_signed : bool) : Z :=
  let thing :=
    double_to_ull
      ((value + 1) / 2 * ull_to_double (max_thing_value sizeof_thing))%float in
  if thing_is_signed then
    if max_signed_value sizeof_thing <? thing
    then to_ull (thing - to_ull (max_signed_value sizeof_thing + 1))
    else to_ull (thing + to_ull (max_signed_value sizeof_thing + 1))
  else thing.

Fixpoint PutChannelAvg_inner (thing : Z) (things : Z) (sizeof_thing : Z)
  (i : Z) (n : nat) (j : Z) (mem : list Z) : list Z :=
  match n with
  | O => mem
  | S n' =>
      PutChannelAvg_inner thing things sizeof_thing i n' (j + 1)
        (array_set mem (things + to_uint32 (j + to_uint32 (i * sizeof_thing)))
           (ull_shr thing (to_uint32 (8 * j))))
  end.

Fixpoint PutChannelAvg_outer (thing : Z) (things : Z) (sizeof_thing : Z)
  (n : nat) (i : Z) (mem : list Z) : list Z :=
  match n with
  | O => mem
  | S n' =>
      PutChannelAvg_outer thing things sizeof_thing n' (i + 1)
        (PutChannelAvg_inner thing things sizeof_thing i
           (Z.to_nat sizeof_thing) 0 mem)
  end.

Definition PutChannelAvg (value : float) (mem : list Z) (things : Z)
  (nthings sizeof_thing : Z) (thing_is_signed : bool) : list Z :=
  PutChannelAvg_outer (encode_thing value sizeof_thing thing_is_signed)
    things sizeof_thing (Z.to_nat nthings) 0 mem.

(** [Wave::GetSample]; [return 0] is the double [0.0]. *)
Definition GetSample (w : Wave) (offset : Z) : float :=
  if nsamples w <=? offset then ull_to_double 0
  else
    let segment := to_uint32 (offset * bytes_per_sample w) in
    if bytes_per_sample_slice w =? 1
    then TakeChannelAvg (data_ (data_chunk w)) segment
           (nchannels (fmt_chunk w)) (bytes_per_sample_slice w) false
    else TakeChannelAvg (data_ (data_chunk w)) segment
           (nchannels (fmt_chunk w)) (bytes_per_sample_slice w) true.

(** [Wave::SetSample]. *)
Definition SetSample (w : Wave) (offset : Z) (value : float) : Wave :=
  if nsamples w <=? offset then w
  else
    let segment := to_uint32 (offset * bytes_per_sample w) in
    let d := data_chunk w in
    let put signed :=
      PutChannelAvg value (data_ d) segment (nchannels (fmt_chunk w))
        (bytes_per_sample_slice w) signed in
    if bytes_per_sample_slice w =? 1
    then with_data w (mk_DataChunk (data_base d) (put false) (data_length_ d))
    else with_data w (mk_DataChunk (data_base d) (put true) (data_length_ d)).

(** ** Load and Save *)

Definition not_wav_error (filename : string) : string :=
  String.append "Error: "
    (String.append filename " doesn't appear to be a WAV file!").

Definition cant_open_error (filename : string) : string :=
  String.append "Error: I can't open " (String.append filename "!").

Definition cant_write_error (filename : string) : string :=
  String.append "Error: I can't open "
    (String.append filename " for writing!").

(** [other_chunks.push_back(chunk)]: the vector stores a copy made by the
    copy constructor.  When the vector moves its elements to larger storage
    it copies them with the same constructor; the model leaves them as they
    are.  The two agree on the chunks that own an array of their declared
    length ([DataChunk_copy_id]), which is every chunk built by [ReadFrom];
    a statement about the entries of a container that is loaded into
    assumes it of them. *)
Definition push_back (l : list DataChunk) (chunk : DataChunk)
  : list DataChunk :=
  l ++ [DataChunk_copy chunk].

(** The [while (file.good())] loop of the private [Wave::Load].  Every turn
    that does not leave the loop consumes the four bytes of a chunk type, so
    the loop is bounded by the length of the stream; [fuel] is that bound
    and [None] means that it was too small, which
    [Load_loop_other_chunks] shows never to happen. *)
Fixpoint Load_loop (fuel : nat) (load_data : bool) (file : istream)
  (w : Wave) (cerr : list string) : option (Wave * list string) :=
  match fuel with
  | O => None
  | S fuel' =>
      if in_good file then
        let (type, file) := ReadLittleEndian 4 file in
        if negb (in_good file) then Some (w, cerr)
        else if type =? CHUNK_TYPE_FMT then
          let '(f, file, msgs) := FmtChunk_ReadFrom file (fmt_chunk w) in
          Load_loop fuel' load_data file (with_fmt w f) (cerr ++ msgs)
        else if type =? CHUNK_TYPE_DATA then
          let (d, file) :=
            if load_data then DataChunk_ReadFrom file (data_chunk w)
            else DataChunk_Skip file (data_chunk w) in
          Load_loop fuel' load_data file (with_data w d) cerr
        else
          let chunk := DataChunk_of_type type in
          let (chunk, file) := DataChunk_ReadFrom file chunk in
          Load_loop fuel' load_data file
            (with_others w (push_back (other_chunks w) chunk)) cerr
      else Some (w, cerr)
  end.

(** The private helper
    [Wave::Load(std::ifstream&, std::string const&, bool)]. *)
Definition Load_file (file : istream) (filename : string) (load_data : bool)
  (w : Wave) : option (Wave * list string) :=
  let (type, file) := ReadLittleEndian 4 file in
  if negb (type =? CHUNK_TYPE_RIFF) then Some (w, [not_wav_error filename])
  else
    let (r, file) := RiffChunk_ReadFrom file (riff_chunk w) in
    let w := with_riff w r in
    if negb (riff_type r =? RIFF_TYPE_WAVE) || negb (in_good file)
    then Some (w, [not_wav_error filename])
    else Load_loop (S (length (in_bytes file))) load_data file w [].

(** Opening [filename] for reading: [contents] is what the file system holds
    under that name, [None] when the file cannot be opened. *)
Definition open_in (contents : option (list Z)) : istream :=
  match contents with
  | Some bytes => mk_istream bytes true
  | None => mk_istream [] false
  end.

(** [Wave::LoadMetadata(filename)]. *)
Definition LoadMetadata (w : Wave) (filename : string)
  (contents : option (list Z)) : option (Wave * list string) :=
  let file := open_in contents in
  if negb (in_good file) then Some (w, [])
  else Load_file file filename false w.

(** [Wave::Load(filename)]. *)
Definition Load (w : Wave) (filename : string) (contents : option (list Z))
  : option (Wave * list string) :=
  let file := open_in contents in
  if negb (in_good file) then Some (w, [cant_open_error filename])
  else Load_file file filename true w.

(** [Wave::Save(filename)]; [opened] tells whether the destination could be
    opened.  The result is the container afterwards, the bytes of the file
    written (if any) and the lines printed on [std::cerr]. *)
Definition Save (w : Wave) (filename : string) (opened : bool)
  : Wave * option ostream * list string :=
  if negb opened then (w, None, [cant_write_error filename])
  else
    let w := UpdateRiffFileSize w in
    let w := UpdateFmtValues w in
    let file : ostream := [] in
    let file := RiffChunk_WriteTo (riff_chunk w) file in
    let file := FmtChunk_WriteTo (fmt_chunk w) file in
    let file :=
      fold_left (fun file it => DataChunk_WriteTo it file)
        (other_chunks w) file in
    let file := DataChunk_WriteTo (data_chunk w) file in
    (w, Some file, []).

(** ** Where the behaviour is defined

    The functions above are total on the records.  The program is not: some
    of its steps have no defined behaviour on some states, and part of the
    state that decides it is not in the records.
    - [ReAllocData] deletes the array that [data_] points to and, when the
      new length is 0, leaves the pointer as it is; the next [ReAllocData],
      or the destructor, then deletes the same array again.
    - [GetSample] and [SetSample] address the array by [block_align] and
      then go through [nchannels * (bits_per_sample / 8)] bytes of it,
      whatever the array holds, with shifts whose counts grow with
      [bits_per_sample / 8].
    - [PutChannelAvg] converts a [double] to [unsigned long long].
    The definitions of this part follow the pointer and give conditions
    under which those steps are defined. *)

(** What the field [data_] of a chunk is: the null pointer, a pointer to an
    array that the chunk owns, or a pointer to an array that was deleted. *)
Inductive pointer := null | owning | deleted.

(** [ReAllocData(length)] on the pointer: [if (data_) delete[] data_;], then
    a new array unless the rounded length is 0.  [None]: the array deleted
    was deleted before. *)
Definition ReAllocData_pointer (length : Z) (p : pointer) : option pointer :=
  match p with
  | deleted => None
  | null | owning =>
      if to_uint32 (length + length mod 2) =? 0
      then Some (match p with owning => deleted | _ => null end)
      else Some owning
  end.

(** [~DataChunk]: [if (data_) delete[] data_;]. *)
Definition destructor_defined (p : pointer) : bool :=
  match p with
  | deleted => false
  | null | owning => true
  end.

(** [Resize] on the pointer of the data chunk. *)
Definition Resize_pointer (new_nsamples : Z) (w : Wave) (p : pointer)
  : option pointer :=
  ReAllocData_pointer
    (to_uint32 (new_nsamples * bytes_per_sample (UpdateFmtValues w))) p.

(** The loop of [Load] on the pointer of the data chunk.  The chunk of the
    default case is a local object: it starts from the null pointer, is
    reallocated once, copied and destroyed, so that each of its arrays is
    deleted once (for a chunk with no bytes the copy is a [memcpy] of
    nothing). *)
Fixpoint Load_loop_pointer (fuel : nat) (load_data : bool) (file : istream)
  (p : pointer) : option pointer :=
  match fuel with
  | O => None
  | S fuel' =>
      if in_good file then
        let (type, file) := ReadLittleEndian 4 file in
        if negb (in_good file) then Some p
        else if type =? CHUNK_TYPE_FMT then
          Load_loop_pointer fuel' load_data
            (snd (fst (FmtChunk_ReadFrom file FmtChunk_new))) p
        else if type =? CHUNK_TYPE_DATA then
          if load_data then
            match ReAllocData_pointer (fst (ReadLittleEndian 4 file)) p with
            | None => None
            | Some p' =>
                Load_loop_pointer fuel' load_data
                  (snd (DataChunk_ReadFrom file DataChunk_new)) p'
            end
          else
            match ReAllocData_pointer 0 p with
            | None => None
            | Some p' =>
                Load_loop_pointer fuel' load_data
                  (snd (DataChunk_Skip file DataChunk_new)) p'
            end
        else
          Load_loop_pointer fuel' load_data
            (snd (DataChunk_ReadFrom file (DataChunk_of_type type))) p
      else Some p
  end.

Definition Load_file_pointer (file : istream) (load_data : bool)
  (p : pointer) : option pointer :=
  let (type, file) := ReadLittleEndian 4 file in
  if negb (type =? CHUNK_TYPE_RIFF) then Some p
  else
    let (r, file) := RiffChunk_ReadFrom file RiffChunk_new in
    if negb (riff_type r =? RIFF_TYPE_WAVE) || negb (in_good file)
    then Some p
    else Load_loop_pointer (S (length (in_bytes file))) load_data file p.

(** [Load] ([load_data = true]) and [LoadMetadata] ([load_data = false]) on
    the pointer of the data chunk: the pointer afterwards, [None] when the
    call deletes an array twice. *)
Definition Load_pointer (load_data : bool) (p : pointer)
  (contents : option (list Z)) : option pointer :=
  let file := open_in contents in
  if negb (in_good file) then Some p
  else Load_file_pointer file load_data p.

(** The shifts of the codec stay within the width of their types for
    slices of one to four bytes: [1 << (sizeof_thing*8-1)] and
    [(unsigned char)things[i] << 8*i] are taken at [int]. *)
Definition slices_defined (w : Wave) : bool :=
  (1 <=? bytes_per_sample_slice w) && (bytes_per_sample_slice w <=? 4).

(** The bytes that [GetSample] and [SetSample] go through at [offset] are
    bytes of the array: the frame starts at [offset * block_align], taken at
    [unsigned], and is [nchannels * (bits_per_sample / 8)] bytes long.  A
    chunk without an array has no such bytes. *)
Definition sample_in_array (w : Wave) (offset : Z) : bool :=
  to_uint32 (offset * bytes_per_sample w)
  + nchannels (fmt_chunk w) * bytes_per_sample_slice w
  <=? Z.of_nat (length (data_ (data_chunk w))).

(** The double that [PutChannelAvg] converts to [unsigned long long]. *)
Definition scaled (value : float) (sizeof_thing : Z) : float :=
  ((value + 1) / 2 * ull_to_double (max_thing_value sizeof_thing))%float.

(** [GetSample(offset)] and [SetSample(offset, value)] are defined: they
    return at once, or they work on slices of one to four bytes inside the
    array; [GetSample] then divides by the number of channels, which must
    not be 0, and [SetSample] converts a double, which must have a value at
    [unsigned long long]. *)
Definition GetSample_defined (w : Wave) (offset : Z) : bool :=
  (nsamples w <=? offset)
  || ((1 <=? nchannels (fmt_chunk w))
      && slices_defined w && sample_in_array w offset).

Definition SetSample_defined (w : Wave) (offset : Z) (value : float) : bool :=
  (nsamples w <=? offset)
  || (slices_defined w && sample_in_array w offset
      && ull_representable (scaled value (bytes_per_sample_slice w))).

(** * wave.cpp *)

(** ** Files *)

(** What the program sees of the file system: the contents of the files it
    can open for reading, and whether a name can be opened for writing. *)
Record files := mk_files {
  file_contents : string -> option (list Z);
  file_writable : string -> bool
}.

(** The files once [bytes] have been written under [filename]. *)
Definition write_file (fs : files) (filename : string) (bytes : list Z)
  : files :=
  mk_files
    (fun name =>
       if String.eqb name filename then Some bytes
       else file_contents fs name)
    (file_writable fs).

(** ** Runs *)

(** A run of a function of [wave.cpp] gives a result and the lines printed
    on [std::cerr], or has no defined outcome ([None]): an access outside an
    array, an array deleted twice, a double converted to an integer that
    cannot hold it, a division by zero, an overflow of [int], an allocation
    of negative length. *)
Definition run (A : Type) : Type := option (A * list string).

Definition bind {A B : Type} (m : run A) (f : A -> run B) : run B :=
  match m with
  | None => None
  | Some (a, printed) =>
      match f a with
      | None => None
      | Some (b, printed') => Some (b, printed ++ printed')
      end
  end.

(** A step that prints nothing. *)
Definition silent {A : Type} (o : option A) : run A :=
  match o with
  | Some a => Some (a, [])
  | None => None
  end.

(** ** Arrays of [double] *)

(** [a[i]] read and [a[i] = v]; [None] outside the array. *)
Definition read_double (a : list float) (i : Z) : option float :=
  if i <? 0 then None else nth_error a (Z.to_nat i).

Definition write_double (a : list float) (i : Z) (v : float)
  : option (list float) :=
  if (0 <=? i) && (i <? Z.of_nat (length a))
  then Some (firstn (Z.to_nat i) a ++ v :: skipn (S (Z.to_nat i)) a)
  else None.

(** The result of an [int] operation, [None] when it overflows. *)
Definition int_checked (z : Z) : option Z :=
  if (- 2 ^ 31 <=? z) && (z <? 2 ^ 31) then Some z else None.

(** [for (int i = 0; i != n; ++i) a[i] = body(i)] on a new array [a] of
    [n] elements: the elements are assigned in order, each once. *)
Fixpoint fill_loop (body : Z -> option float) (n : nat) (i : Z)
  : option (list float) :=
  match n with
  | O => Some []
  | S n' =>
      match body i with
      | None => None
      | Some x =>
          match fill_loop body n' (i + 1) with
          | None => None
          | Some rest => Some (x :: rest)
          end
      end
  end.

(** [new double[n]] followed by that loop. *)
Definition new_filled (n : Z) (body : Z -> option float)
  : option (list float) :=
  if n <? 0 then None else fill_loop body (Z.to_nat n) 0.

(** ** WavLoad, WavLength, WavSave *)

(** [wave.GetSample(i)] and [wave.SetSample(i, v)] in a run. *)
Definition GetSample_checked (w : Wave) (offset : Z) : option float :=
  if GetSample_defined w offset then Some (GetSample w offset) else None.

Definition SetSample_checked (w : Wave) (offset : Z) (value : float)
  : option Wave :=
  if SetSample_defined w offset value then Some (SetSample w offset value)
  else None.

(** [WavLoad]: the local [Wave] starts from the null pointer, is loaded,
    read sample by sample and destroyed when the function returns. *)
Definition WavLoad (fs : files) (filename : string) : run (list float) :=
  match Load Wave_new filename (file_contents fs filename),
        Load_pointer true null (file_contents fs filename) with
  | Some (wave, printed), Some p =>
      let n := to_int (nsamples wave) in
      match new_filled n (fun i => GetSample_checked wave (to_uint32 i)) with
      | None => None
      | Some samples =>
          if destructor_defined p then Some (samples, printed) else None
      end
  | _, _ => None
  end.

(** [WavLength]: [LoadMetadata] into a new [Wave] leaves its pointer null
    ([Load_pointer_metadata_null]), so nothing is deleted twice. *)
Definition WavLength (fs : files) (filename : string) : run Z :=
  match LoadMetadata Wave_new filename (file_contents fs filename) with
  | None => None
  | Some (wave, printed) => Some (to_int (nsamples wave), printed)
  end.

(** [wave.fmt_chunk.nchannels = n]. *)
Definition set_nchannels (w : Wave) (n : Z) : Wave :=
  let f := fmt_chunk w in
  with_fmt w
    (mk_FmtChunk (fmt_base f) (compression f) (to_uint16 n) (sample_rate f)
       (bytes_per_sec f) (block_align f) (bits_per_sample f)).

(** The loop of [WavSave]. *)
Fixpoint WavSave_loop (samples : list float) (n : nat) (i : Z) (wave : Wave)
  : option Wave :=
  match n with
  | O => Some wave
  | S n' =>
      match read_double samples i with
      | None => None
      | Some v =>
          match SetSample_checked wave (to_uint32 i) v with
          | None => None
          | Some wave => WavSave_loop samples n' (i + 1) wave
          end
      end
  end.

(** [WavSave]: the pointer of the local [Wave] is null after
    [LoadMetadata], and [Resize] allocates at most once from there. *)
Definition WavSave (fs : files) (filename : string) (samples : list float)
  (nsamples : Z) : run files :=
  match LoadMetadata Wave_new filename (file_contents fs filename) with
  | None => None
  | Some (wave, printed) =>
      let wave := set_nchannels wave 1 in
      let wave := Resize (to_uint32 nsamples) wave in
      if nsamples <? 0 then None
      else
        match WavSave_loop samples (Z.to_nat nsamples) 0 wave with
        | None => None
        | Some wave =>
            let '(_, written, printed') :=
              Save wave filename (file_writable fs filename) in
            Some (match written with
                  | Some bytes => write_file fs filename bytes
                  | None => fs
                  end,
                  printed ++ printed')
        end
  end.

(** ** The effects *)

(** Each effect is the loop over the samples, then the function that reads
    the input, runs the loop and saves the result.  The loops take the
    array together with the length that [WavLength] reported for it. *)

Definition faster_samples (old_samples : list float)
  (old_samples_length : Z) : option (list float * Z) :=
  let new_samples_length := Z.quot old_samples_length 2 in
  match new_filled new_samples_length
          (fun i => read_double old_samples (i * 2)) with
  | None => None
  | Some new_samples => Some (new_samples, new_samples_length)
  end.

Definition slower_samples (old_samples : list float)
  (old_samples_length : Z) : option (list float * Z) :=
  match int_checked (old_samples_length * 2) with
  | None => None
  | Some new_samples_length =>
      match new_filled new_samples_length
              (fun i => read_double old_samples (Z.quot i 2)) with
      | None => None
      | Some new_samples => Some (new_samples, new_samples_length)
      end
  end.

Definition echo_delay : Z := 10000.

(** The [double] nearest to 0.8. *)
Definition echo_intensity : float := 0x1.999999999999ap-1%float.

Definition echo_body (old_samples : list float) (old_samples_length : Z)
  (i : Z) : option float :=
  if (echo_delay <=? i) && (i <? old_samples_length) then
    match read_double old_samples i,
          read_double old_samples (i - echo_delay) with
    | Some x, Some y => Some ((x + echo_intensity * y) / 2)%float
    | _, _ => None
    end
  else if (echo_delay <=? i) && (old_samples_length <=? i) then
    match read_double old_samples (i - echo_delay) with
    | Some y => Some (echo_intensity * y)%float
    | None => None
    end
  else read_double old_samples i.

Definition echo_samples (old_samples : list float)
  (old_samples_length : Z) : option (list float * Z) :=
  match int_checked (old_samples_length + echo_delay) with
  | None => None
  | Some new_samples_length =>
      match new_filled new_samples_length
              (echo_body old_samples old_samples_length) with
      | None => None
      | Some new_samples => Some (new_samples, new_samples_length)
      end
  end.

(** The loop of [amp_up] and [amp_down], which works in place. *)
Fixpoint amp_loop (factor : float) (n : nat) (i : Z)
  (old_samples : list float) : option (list float) :=
  match n with
  | O => Some old_samples
  | S n' =>
      match read_double old_samples i with
      | None => None
      | Some x =>
          match write_double old_samples i (factor * x)%float with
          | None => None
          | Some a => amp_loop factor n' (i + 1) a
          end
      end
  end.

Definition amp_samples (factor : float) (old_samples : list float)
  (old_samples_length : Z) : option (list float * Z) :=
  if old_samples_length <? 0 then None
  else
    match amp_loop factor (Z.to_nat old_samples_length) 0 old_samples with
    | None => None
    | Some a => Some (a, old_samples_length)
    end.

Definition reverse_samples (old_samples : list float)
  (old_samples_length : Z) : option (list float * Z) :=
  let new_samples_length := old_samples_length in
  match new_filled new_samples_length
          (fun i => read_double old_samples (old_samples_length - 1 - i))
  with
  | None => None
  | Some new_samples => Some (new_samples, new_samples_length)
  end.

(** The loop of [mix], in place on the longer array; [i % 0] has no defined
    result. *)
Fixpoint mix_loop (shortest_samples : list float) (shortest_length : Z)
  (n : nat) (i : Z) (longest_samples : list float) : option (list float) :=
  match n with
  | O => Some longest_samples
  | S n' =>
      match read_double longest_samples i,
            (if shortest_length =? 0 then None
             else read_double shortest_samples (Z.rem i shortest_length))
      with
      | Some x, Some y =>
          match write_double longest_samples i ((x + y) / 2)%float with
          | None => None
          | Some a =>
              mix_loop shortest_samples shortest_length n' (i + 1) a
          end
      | _, _ => None
      end
  end.

Definition mix_samples (file1_samples file2_samples : list float)
  (file1_length file2_length : Z) : option (list float * Z) :=
  let '(longest_length, longest_samples, shortest_length, shortest_samples)
    := if file2_length <? file1_length
       then (file1_length, file1_samples, file2_length, file2_samples)
       else (file2_length, file2_samples, file1_length, file1_samples) in
  if longest_length <? 0 then None
  else
    match mix_loop shortest_samples shortest_length
            (Z.to_nat longest_length) 0 longest_samples with
    | None => None
    | Some a => Some (a, longest_length)
    end.

(** An effect on one file: read the length and the samples of [filename],
    run the loop, save under [result]. *)
Definition effect (samples_loop : list float -> Z -> option (list float * Z))
  (fs : files) (filename result : string) : run files :=
  bind (WavLength fs filename) (fun old_samples_length =>
  bind (WavLoad fs filename) (fun old_samples =>
  bind (silent (samples_loop old_samples old_samples_length)) (fun new =>
  WavSave fs result (fst new) (snd new)))).

Definition faster : files -> string -> string -> run files :=
  effect faster_samples.
Definition slower : files -> string -> string -> run files :=
  effect slower_samples.
Definition echo : files -> string -> string -> run files :=
  effect echo_samples.
(** The factors are the [double]s nearest to 1.2 and to 0.8. *)
Definition amp_up : files -> string -> string -> run files :=
  effect (amp_samples 0x1.3333333333333p+0%float).
Definition amp_down : files -> string -> string -> run files :=
  effect (amp_samples 0x1.999999999999ap-1%float).
Definition reverse : files -> string -> string -> run files :=
  effect reverse_samples.

Definition mix (fs : files) (file1 file2 result : string) : run files :=
  bind (WavLength fs file1) (fun file1_length =>
  bind (WavLength fs file2) (fun file2_length =>
  bind (WavLoad fs file1) (fun file1_samples =>
  bind (WavLoad fs file2) (fun file2_samples =>
  bind (silent (mix_samples file1_samples file2_samples
                  file1_length file2_length)) (fun new =>
  WavSave fs result (fst new) (snd new)))))).

(** * Definitions used by the statements *)

(** ** Saving *)

(** The sum of the declared sizes of a list of chunks. *)
Fixpoint sum_chunk_sizes (l : list DataChunk) : Z :=
  match l with
  | [] => 0
  | c :: l' => chunk_size (data_base c) + sum_chunk_sizes l'
  end.

(** The sum that [UpdateRiffFileSize] accumulates, taken in the integers:
    three headers of eight bytes, the "WAVE" tag, and the declared sizes of
    the Format chunk, of the data chunk and of the extra chunks. *)
Definition riff_size_sum (w : Wave) : Z :=
  24 + 4 + chunk_size (fmt_base (fmt_chunk w))
  + chunk_size (data_base (data_chunk w))
  + sum_chunk_sizes (other_chunks w).

(** The bytes the loop over [other_chunks] appends. *)
Definition write_all (l : list DataChunk) : list Z :=
  flat_map (fun it => DataChunk_WriteTo it []) l.

(** A chunk whose array holds exactly [data_length_] bytes. *)
Definition owns_its_length (d : DataChunk) : Prop :=
  Z.of_nat (length (data_ d)) = data_length_ d.

(** ** Loading *)

(** The stream after the data chunk, read or skipped. *)
Definition after_data (load_data : bool) (file : istream) : istream :=
  snd (if load_data then DataChunk_ReadFrom file DataChunk_new
       else DataChunk_Skip file DataChunk_new).

(** The chunks the loop appends to [other_chunks], as a function of the
    stream alone: every chunk whose type is neither "fmt " nor "data", in
    the order in which the loop meets them. *)
Fixpoint unrecognised_chunks (fuel : nat) (load_data : bool)
  (file : istream) : list DataChunk :=
  match fuel with
  | O => []
  | S fuel' =>
      if in_good file then
        let (type, file) := ReadLittleEndian 4 file in
        if negb (in_good file) then []
        else if type =? CHUNK_TYPE_FMT then
          unrecognised_chunks fuel' load_data
            (snd (fst (FmtChunk_ReadFrom file FmtChunk_new)))
        else if type =? CHUNK_TYPE_DATA then
          unrecognised_chunks fuel' load_data (after_data load_data file)
        else
          let (chunk, file) :=
            DataChunk_ReadFrom file (DataChunk_of_type type) in
          DataChunk_copy chunk :: unrecognised_chunks fuel' load_data file
      else []
  end.

(** The unrecognised chunks of a whole file: none when the file cannot be
    opened or is turned down, those of the chunk loop otherwise. *)
Definition file_unrecognised_chunks (load_data : bool)
  (contents : option (list Z)) : list DataChunk :=
  let file := open_in contents in
  if negb (in_good file) then []
  else
    let (type, file) := ReadLittleEndian 4 file in
    if negb (type =? CHUNK_TYPE_RIFF) then []
    else
      let (r, file) := RiffChunk_ReadFrom file RiffChunk_new in
      if negb (riff_type r =? RIFF_TYPE_WAVE) || negb (in_good file) then []
      else unrecognised_chunks (S (length (in_bytes file))) load_data file.

(** ** Slices and little-endian values *)

(** The unsigned value of a little-endian sequence of bytes. *)
Fixpoint le_value (bytes : list Z) : Z :=
  match bytes with
  | [] => 0
  | b :: rest => b + 256 * le_value rest
  end.

(** The [n] bytes of the array [mem] from index [from], as
    [unsigned char]. *)
Fixpoint slice (mem : list Z) (from : Z) (n : nat) : list Z :=
  match n with
  | O => []
  | S n' => to_uchar (array_get mem from) :: slice mem (from + 1) n'
  end.

(** A slice read as an unsigned value. *)
Definition read_unsigned (mem : list Z) (things : Z) (sizeof_thing : Z) : Z :=
  le_value (slice mem things (Z.to_nat sizeof_thing)).

(** The bytes that the inner loop of [PutChannelAvg] stores for one slice,
    from byte [j] on. *)
Fixpoint le_bytes (thing : Z) (j : Z) (n : nat) : list Z :=
  match n with
  | O => []
  | S n' =>
      to_uchar (ull_shr thing (to_uint32 (8 * j))) :: le_bytes thing (j + 1) n'
  end.

(** ** The decoding rule in the words of the specification *)

(** The largest unsigned and the largest signed value of a slice of [width]
    bytes. *)
Definition spec_max_unsigned (width : Z) : Z := 2 ^ (8 * width) - 1.
Definition spec_max_signed (width : Z) : Z := 2 ^ (8 * width - 1) - 1.

(** Read the slice as an unsigned value; when the slice is signed, subtract
    [max_signed + 1] if the value exceeds [max_signed], add it otherwise. *)
Definition spec_decode (mem : list Z) (things width : Z) (signed : bool)
  : Z :=
  let raw := read_unsigned mem things width in
  if signed then
    if spec_max_signed width <? raw
    then raw - (spec_max_signed width + 1)
    else raw + (spec_max_signed width + 1)
  else raw.

(** The sum of the decoded slices of [n] channels, from channel [i] on. *)
Fixpoint spec_total (mem : list Z) (things width : Z) (signed : bool)
  (n : nat) (i : Z) : Z :=
  match n with
  | O => 0
  | S n' =>
      spec_decode mem (things + i * width) width signed
      + spec_total mem things width signed n' (i + 1)
  end.

(** [GetSample] as the specification words it: slices of one byte are
    unsigned, wider ones signed; the decoded slices are averaged and the
    average is mapped by [value / max_unsigned * 2 - 1]. *)
Definition spec_GetSample (w : Wave) (offset : Z) : float :=
  if nsamples w <=? offset then 0%float
  else
    let width := bytes_per_sample_slice w in
    let total :=
      spec_total (data_ (data_chunk w))
        (offset * block_align (fmt_chunk w)) width (1 <? width)
        (Z.to_nat (nchannels (fmt_chunk w))) 0 in
    let average :=
      (ull_to_double total / ull_to_double (nchannels (fmt_chunk w)))%float in
    (average / ull_to_double (spec_max_unsigned width) * 2 - 1)%float.

(** ** Concrete containers and files *)

(** The freshly allocated storage used by the instances below: every byte
    holds 0xAA. *)
Definition junk_AA : nat -> Z := fun _ => 0xAA.

(** The default mono 16-bit container resized to four samples: what
    [Resize 4] makes of a fresh [Wave] when new storage holds 0xAA. *)
Definition wave_mono16 : Wave :=
  with_data Wave_new
    (mk_DataChunk (mk_Chunk CHUNK_TYPE_DATA 8) (repeat 0xAA 8) 8).

(** A Format chunk with 256 channels of 2048 bits: the product
    [nchannels * (bits_per_sample / 8)] is 65536 and does not fit
    [block_align]. *)
Definition wave_wide : Wave :=
  with_fmt Wave_new (mk_FmtChunk (Chunk_new CHUNK_TYPE_FMT) 1 256 1 0 0 2048).

(** "RIFX", a size of 100, "WAVE". *)
Definition rifx_bytes : list Z :=
  [0x52; 0x49; 0x46; 0x58; 100; 0; 0; 0; 0x57; 0x41; 0x56; 0x45].

(** A stereo 16-bit container of four samples: what [Resize 4] makes of a
    fresh [Wave] whose [nchannels] was set to 2. *)
Definition wave_stereo16 : Wave :=
  mk_Wave RiffChunk_new
    (mk_FmtChunk (Chunk_new CHUNK_TYPE_FMT) 1 2 22050 88200 4 16)
    (mk_DataChunk (mk_Chunk CHUNK_TYPE_DATA 16) (repeat 0xAA 16) 16) [].

(** A mono 32-bit file with the single sample 0x80000000, the most negative
    one. *)
Definition wav32_bytes : list Z :=
  [0x52; 0x49; 0x46; 0x46; 40; 0; 0; 0; 0x57; 0x41; 0x56; 0x45;
   0x66; 0x6d; 0x74; 0x20; 16; 0; 0; 0; 1; 0; 1; 0;
   0x22; 0x56; 0; 0; 0x88; 0x58; 0x01; 0; 4; 0; 32; 0;
   0x64; 0x61; 0x74; 0x61; 4; 0; 0; 0; 0; 0; 0; 0x80].

(** The container that [Load] builds from [wav32_bytes]. *)
Definition wave32 : Wave :=
  mk_Wave (mk_RiffChunk (mk_Chunk CHUNK_TYPE_RIFF 40) RIFF_TYPE_WAVE)
    (mk_FmtChunk (mk_Chunk CHUNK_TYPE_FMT 16) 1 1 22050 88200 4 32)
    (mk_DataChunk (mk_Chunk CHUNK_TYPE_DATA 4) [0; 0; 0; 0x80] 4) [].

(** ** Values of the declared types *)

(** The fields of the classes are [uint16_t] and [uint32_t]; the records of
    the embedding hold [Z].  These predicates say that a record holds values
    of the declared types and, for a [DataChunk], that it is in the state
    [ReAllocData] leaves it in: it owns an array of [chunk_size] rounded up
    to even bytes. *)
Definition is_uint16 (z : Z) : Prop := 0 <= z < 2 ^ 16.
Definition is_uint32 (z : Z) : Prop := 0 <= z < 2 ^ 32.

Definition Chunk_inv (c : Chunk) : Prop :=
  is_uint32 (chunk_type c) /\ is_uint32 (chunk_size c).

Definition FmtChunk_inv (f : FmtChunk) : Prop :=
  Chunk_inv (fmt_base f)
  /\ is_uint16 (compression f) /\ is_uint16 (nchannels f)
  /\ is_uint32 (sample_rate f) /\ is_uint32 (bytes_per_sec f)
  /\ is_uint16 (block_align f) /\ is_uint16 (bits_per_sample f).

Definition DataChunk_inv (d : DataChunk) : Prop :=
  Chunk_inv (data_base d)
  /\ data_length_ d
     = to_uint32 (chunk_size (data_base d) + chunk_size (data_base d) mod 2)
  /\ owns_its_length d.

Definition Wave_inv (w : Wave) : Prop :=
  Chunk_inv (riff_base (riff_chunk w)) /\ is_uint32 (riff_type (riff_chunk w))
  /\ FmtChunk_inv (fmt_chunk w)
  /\ DataChunk_inv (data_chunk w)
  /\ Forall DataChunk_inv (other_chunks w).

(** The three recognised chunks carry their type codes, the Riff chunk the
    "WAVE" tag, and no extra chunk carries the type of the Format or of the
    data chunk: the state of a fresh [Wave] and of one loaded from a file
    that [Load] accepted. *)
Definition Wave_tags (w : Wave) : Prop :=
  chunk_type (riff_base (riff_chunk w)) = CHUNK_TYPE_RIFF
  /\ riff_type (riff_chunk w) = RIFF_TYPE_WAVE
  /\ chunk_type (fmt_base (fmt_chunk w)) = CHUNK_TYPE_FMT
  /\ chunk_type (data_base (data_chunk w)) = CHUNK_TYPE_DATA
  /\ Forall (fun c => chunk_type (data_base c) <> CHUNK_TYPE_FMT
                      /\ chunk_type (data_base c) <> CHUNK_TYPE_DATA)
       (other_chunks w).

(** The pointer [data_] of a chunk against its record: the chunk owns an
    array when its length field is not 0 and has none otherwise.  It
    [pointer_agrees] when, besides, the pointer is not left on an array that
    was deleted. *)
Definition pointer_tracks (d : DataChunk) (p : pointer) : Prop :=
  match p with
  | owning => data_length_ d <> 0
  | null | deleted => data_length_ d = 0
  end.

Definition pointer_agrees (d : DataChunk) (p : pointer) : Prop :=
  pointer_tracks d p /\ p <> deleted.

(** The pad bytes of a list of chunks: what their arrays hold beyond their
    declared sizes. *)
Fixpoint pad_bytes (l : list DataChunk) : Z :=
  match l with
  | [] => 0
  | c :: l' => (data_length_ c - chunk_size (data_base c)) + pad_bytes l'
  end.

(** Two containers that differ at most in the array of their data chunk. *)
Definition same_metadata (a b : Wave) : Prop :=
  riff_chunk a = riff_chunk b /\ fmt_chunk a = fmt_chunk b
  /\ data_base (data_chunk a) = data_base (data_chunk b)
  /\ data_length_ (data_chunk a) = data_length_ (data_chunk b)
  /\ other_chunks a = other_chunks b.

(** ** Files made of complete chunks *)

(** A chunk as it lies in a file: a Format chunk with its fields, or any
    other chunk, with its header and its array. *)
Inductive part := format_part (f : FmtChunk) | chunk_part (d : DataChunk).

Definition write_part (s : part) : list Z :=
  match s with
  | format_part f => FmtChunk_WriteTo f []
  | chunk_part d => DataChunk_WriteTo d []
  end.

(** The file that starts with "RIFF", a declared size and "WAVE", and goes
    on with the chunks [parts], each of them complete. *)
Definition wave_file (size : Z) (parts : list part) : list Z :=
  RiffChunk_WriteTo
    (mk_RiffChunk (mk_Chunk CHUNK_TYPE_RIFF size) RIFF_TYPE_WAVE) []
  ++ flat_map write_part parts.

(** The fields of the chunk are values of their types; a Format chunk is
    tagged "fmt ", any other chunk is not and carries an array of its
    declared size rounded up to even. *)
Definition part_ok (s : part) : Prop :=
  match s with
  | format_part f =>
      FmtChunk_inv f /\ chunk_type (fmt_base f) = CHUNK_TYPE_FMT
  | chunk_part d =>
      DataChunk_inv d /\ chunk_type (data_base d) <> CHUNK_TYPE_FMT
  end.

(** The chunks of a file that are neither "fmt " nor "data", and its "data"
    chunks, each list in the order of the file. *)
Fixpoint extra_parts (parts : list part) : list DataChunk :=
  match parts with
  | [] => []
  | format_part _ :: rest => extra_parts rest
  | chunk_part d :: rest =>
      if chunk_type (data_base d) =? CHUNK_TYPE_DATA then extra_parts rest
      else d :: extra_parts rest
  end.


(** What a turn of the loop of [Load] makes of a complete chunk, and what
    it prints. *)
Definition load_part (w : Wave) (s : part) : Wave :=
  match s with
  | format_part f => with_fmt w f
  | chunk_part d =>
      if chunk_type (data_base d) =? CHUNK_TYPE_DATA then with_data w d
      else with_others w (other_chunks w ++ [d])
  end.


(** The pointer of the data chunk through the chunks of a file: every
    "data" chunk reallocates it, to the declared size when the data is
    loaded and to 0 when it is skipped. *)
Fixpoint parts_pointer (load_data : bool) (parts : list part) (p : pointer)
  : option pointer :=
  match parts with
  | [] => Some p
  | format_part _ :: rest => parts_pointer load_data rest p
  | chunk_part d :: rest =>
      if chunk_type (data_base d) =? CHUNK_TYPE_DATA then
        match
          ReAllocData_pointer
            (if load_data then chunk_size (data_base d) else 0) p
        with
        | None => None
        | Some p' => parts_pointer load_data rest p'
        end
      else parts_pointer load_data rest p
  end.

(** ** Samples written and read back *)

(** What a value reads back as once it has been stored in [nthings]
    channel slices of [sizeof_thing] bytes: the scaled level, reduced
    modulo the range of the slice, averaged and mapped back. *)
Definition quantised (nthings sizeof_thing : Z) (value : float) : float :=
  let level :=
    double_to_ull
      ((value + 1) / 2 * ull_to_double (max_thing_value sizeof_thing))%float in
  munge (nthings * (level mod 2 ^ (8 * sizeof_thing))) nthings sizeof_thing.

(** Every call of a run of [SetSample] calls is defined, and its offset is
    a value of the parameter's type [unsigned]. *)
Fixpoint SetSamples_defined (w : Wave) (writes : list (Z * float)) : bool :=
  match writes with
  | [] => true
  | (offset, value) :: rest =>
      (0 <=? offset) && (offset <? 2 ^ 32)
      && SetSample_defined w offset value
      && SetSamples_defined (SetSample w offset value) rest
  end.

(** A container whose format and data chunk hold [count] samples that
    [GetSample] and [SetSample] reach inside the array: at least one
    channel, slices of one to three bytes that fit the frame. *)
Definition holds_samples (w : Wave) (count : Z) : Prop :=
  1 <= nchannels (fmt_chunk w)
  /\ 1 <= bytes_per_sample_slice w <= 3
  /\ nchannels (fmt_chunk w) * bytes_per_sample_slice w
     <= block_align (fmt_chunk w)
  /\ nsamples w = count
  /\ chunk_size (data_base (data_chunk w)) < 2 ^ 32
  /\ chunk_size (data_base (data_chunk w))
     <= Z.of_nat (length (data_ (data_chunk w))).

(** The stereo container with one unrecognised chunk, "LIST", of three
    bytes and a pad byte. *)
Definition list_chunk : DataChunk :=
  mk_DataChunk (mk_Chunk 0x5453494c 3) [1; 2; 3; 0] 4.

Definition wave_with_list : Wave := with_others wave_stereo16 [list_chunk].

(** A mono 16-bit file with the two samples 0.5 and -0.5, as [WavSave]
    writes it. *)
Definition wav16_bytes : list Z :=
  [0x52; 0x49; 0x46; 0x46; 48; 0; 0; 0; 0x57; 0x41; 0x56; 0x45;
   0x66; 0x6d; 0x74; 0x20; 16; 0; 0; 0; 1; 0; 1; 0;
   0x22; 0x56; 0; 0; 0x44; 0xAC; 0; 0; 2; 0; 16; 0;
   0x64; 0x61; 0x74; 0x61; 4; 0; 0; 0; 0xFF; 0x3F; 0xFF; 0xBF].

(** A file system with no file, and one that holds [wav16_bytes] under
    "in.wav"; every name can be written. *)
Definition no_files : files := mk_files (fun _ => None) (fun _ => true).

Definition one_file : files :=
  mk_files
    (fun name => if String.eqb name "in.wav" then Some wav16_bytes else None)
    (fun _ => true).

(** The chunks of [wav16_bytes]: the default Format chunk and a "data"
    chunk of four bytes. *)
Definition wav16_parts : list part :=
  [format_part FmtChunk_new;
   chunk_part
     (mk_DataChunk (mk_Chunk CHUNK_TYPE_DATA 4) [0xFF; 0x3F; 0xFF; 0xBF] 4)].

(** A file in which an unrecognised chunk follows the audio data: the
    default Format chunk, a "data" chunk of three bytes and a pad byte, and
    a "LIST" chunk of two bytes. *)
Definition data3_chunk : DataChunk :=
  mk_DataChunk (mk_Chunk CHUNK_TYPE_DATA 3) [1; 2; 3; 0] 4.

Definition list2_chunk : DataChunk :=
  mk_DataChunk (mk_Chunk 0x5453494c 2) [7; 8] 2.

Definition data_then_list : list part :=
  [format_part FmtChunk_new; chunk_part data3_chunk; chunk_part list2_chunk].

(** A file whose "LIST" chunk declares 0xFFFFFFFF bytes and holds none, and
    the container [Load] builds from it: the rounded length wraps to 0, so
    that the chunk is kept with its declared size and no array. *)
Definition huge_list_bytes : list Z :=
  wave_file 36 [format_part FmtChunk_new]
  ++ [0x4c; 0x49; 0x53; 0x54; 0xFF; 0xFF; 0xFF; 0xFF].

Definition wave_huge_list : Wave :=
  with_others Wave_new
    [mk_DataChunk (mk_Chunk 0x5453494c 0xFFFFFFFF) [] 0].

(** * Properties *)

(** ** Arithmetic helpers *)

Lemma to_uint32_add_l (a b : Z) :
  to_uint32 (to_uint32 a + b) = to_uint32 (a + b).
Proof. unfold to_uint32. apply Zplus_mod_idemp_l. Qed.

Lemma to_uint32_mul_l (a b : Z) :
  to_uint32 (to_uint32 a * b) = to_uint32 (a * b).
Proof. unfold to_uint32. apply Zmult_mod_idemp_l. Qed.

Lemma to_uint32_small (z : Z) : 0 <= z < 2 ^ 32 -> to_uint32 z = z.
Proof. intros H. unfold to_uint32. apply Z.mod_small. exact H. Qed.

Lemma to_uint16_small (z : Z) : 0 <= z < 2 ^ 16 -> to_uint16 z = z.
Proof. intros H. unfold to_uint16. apply Z.mod_small. exact H. Qed.

(** Storing an [int] in a 16-bit field keeps the low 16 bits of the exact
    value: the detour through [int] is invisible. *)
Lemma to_uint16_to_int (z : Z) : to_uint16 (to_int z) = to_uint16 z.
Proof.
  unfold to_uint16, to_int.
  pose proof (Z.div_mod (z + 2 ^ 31) (2 ^ 32) ltac:(lia)) as H.
  set (q := (z + 2 ^ 31) / 2 ^ 32) in *.
  set (r := (z + 2 ^ 31) mod 2 ^ 32) in *.
  replace (r - 2 ^ 31) with (z + (- (2 ^ 16 * q)) * 2 ^ 16) by lia.
  apply Z.mod_add; lia.
Qed.

(** ** Sample count and out-of-range access *)

(** C9.  [nsamples()] never faults: it returns a value for every [Wave]
    (the checked evaluation is never [None]); that value is
    [data_chunk.chunk_size / block_align]; and it is 0, obtained without
    dividing, whenever [chunk_size] or [block_align] is zero. *)
Theorem nsamples_well_defined (w : Wave) :
  let size := chunk_size (data_base (data_chunk w)) in
  let align := block_align (fmt_chunk w) in
  nsamples_checked w = Some (nsamples w)
  /\ nsamples w = size / align
  /\ nsamples_checked w
     = (if (size =? 0) || (align =? 0) then Some 0 else udiv size align)
  /\ (if (size =? 0) || (align =? 0) then nsamples w = 0
      else udiv size align <> None).
Proof.
  cbv zeta. unfold nsamples, nsamples_checked, bytes_per_sample, udiv.
  destruct (chunk_size (data_base (data_chunk w)) =? 0) eqn:Hs;
    destruct (block_align (fmt_chunk w) =? 0) eqn:Ha; cbn [orb];
    repeat split; try reflexivity; try discriminate.
  - apply Z.eqb_eq in Hs, Ha. rewrite Hs. reflexivity.
  - apply Z.eqb_eq in Hs. rewrite Hs. symmetry. apply Z.div_0_l.
    apply Z.eqb_neq in Ha. exact Ha.
  - apply Z.eqb_eq in Ha. rewrite Ha. symmetry. apply Z.div_0_r.
Qed.

(** C1.  For an offset at or beyond [nsamples()], [GetSample] returns the
    double 0.0 and [SetSample] returns the container as it was: every sample,
    every field and every extra chunk is the same.  Neither operation has a
    diagnostic output in the source, so neither has one in the embedding. *)
Theorem out_of_range_sample_access (w : Wave) (offset : Z) (x : float) :
  nsamples w <= offset ->
  GetSample w offset = 0%float
  /\ SetSample w offset x = w
  /\ forall k, GetSample (SetSample w offset x) k = GetSample w k.
Proof.
  intros H. apply Z.leb_le in H.
  assert (E : SetSample w offset x = w)
    by (unfold SetSample; rewrite H; reflexivity).
  split; [unfold GetSample; rewrite H; reflexivity|].
  split; [exact E|]. intros k. rewrite E. reflexivity.
Qed.

(** ** Size bookkeeping before a save *)

Lemma fold_sizes_sum (l : list DataChunk) (a : Z) :
  fold_left (fun t it => to_uint32 (t + chunk_size (data_base it))) l
    (to_uint32 a)
  = to_uint32 (a + sum_chunk_sizes l).
Proof.
  revert a. induction l as [|c l IH]; intros a;
    cbn [fold_left sum_chunk_sizes].
  - f_equal. lia.
  - rewrite to_uint32_add_l, IH. f_equal. lia.
Qed.

(** What [UpdateRiffFileSize] stores, in the arithmetic of [unsigned]. *)
Lemma UpdateRiffFileSize_total (w : Wave) :
  chunk_size (riff_base (riff_chunk (UpdateRiffFileSize w)))
  = to_uint32 (24 + 4 + chunk_size (fmt_base (fmt_chunk w))
               + chunk_size (data_base (data_chunk w))
               + sum_chunk_sizes (other_chunks w)).
Proof.
  unfold UpdateRiffFileSize. cbn [with_riff riff_chunk riff_base chunk_size].
  rewrite fold_sizes_sum.
  rewrite <- !Z.add_assoc, !to_uint32_add_l.
  rewrite <- !Z.add_assoc, !to_uint32_add_l.
  f_equal. lia.
Qed.

(** C6 (amended).  A save that opens its destination leaves in the Riff
    chunk the sum 24 + 4 + fmt.chunk_size + data.chunk_size + the sum of the
    extra chunks' chunk_size, reduced modulo 2^32 as the [unsigned]
    accumulator reduces it: it is exactly that sum when the sum is below
    2^32, and nothing is added for the headers of the extra chunks.  A save
    that cannot open its destination returns before the size is recomputed:
    it writes nothing and leaves the container, its Riff size included, as
    it was. *)
Theorem Save_riff_size (w : Wave) (filename : string) (opened : bool) :
  let saved := fst (fst (Save w filename opened)) in
  (opened = true ->
   chunk_size (riff_base (riff_chunk saved)) = to_uint32 (riff_size_sum w)
   /\ (0 <= riff_size_sum w < 2 ^ 32 ->
       chunk_size (riff_base (riff_chunk saved)) = riff_size_sum w))
  /\ (opened = false ->
      saved = w /\ snd (fst (Save w filename opened)) = None).
Proof.
  cbv zeta. split; intros ->.
  - assert (E : chunk_size
                  (riff_base (riff_chunk (fst (fst (Save w filename true)))))
                = to_uint32 (riff_size_sum w)).
    { unfold Save. cbn [negb fst].
      unfold UpdateFmtValues at 1. cbn [with_fmt riff_chunk].
      apply UpdateRiffFileSize_total. }
    split; [exact E|]. intros R. rewrite E. apply to_uint32_small. exact R.
  - unfold Save. cbn [negb fst snd]. split; reflexivity.
Qed.

(** ** What the writers append *)

Lemma WriteLittleEndian_loop_app (n : nat) (i out : Z) (stream : ostream) :
  WriteLittleEndian_loop n i out stream
  = stream ++ WriteLittleEndian_loop n i out [].
Proof.
  revert i stream. induction n as [|n IH]; intros i stream;
    cbn [WriteLittleEndian_loop].
  - symmetry. apply app_nil_r.
  - rewrite IH. rewrite (IH _ (ostream_write [] _ _)).
    unfold ostream_write. rewrite app_assoc. reflexivity.
Qed.

Lemma WriteLittleEndian_loop_length (n : nat) (i out : Z) :
  length (WriteLittleEndian_loop n i out []) = n.
Proof.
  revert i. induction n as [|n IH]; intros i; cbn [WriteLittleEndian_loop].
  - reflexivity.
  - rewrite WriteLittleEndian_loop_app, length_app, IH. reflexivity.
Qed.

Lemma WriteLittleEndian_app (size out : Z) (stream : ostream) :
  WriteLittleEndian size out stream = stream ++ WriteLittleEndian size out [].
Proof. apply WriteLittleEndian_loop_app. Qed.

Lemma WriteLittleEndian_length (size out : Z) :
  length (WriteLittleEndian size out []) = Z.to_nat size.
Proof. apply WriteLittleEndian_loop_length. Qed.

Lemma Chunk_WriteTo_app (c : Chunk) (stream : ostream) :
  Chunk_WriteTo c stream = stream ++ Chunk_WriteTo c [].
Proof.
  unfold Chunk_WriteTo.
  rewrite (WriteLittleEndian_app 4 (chunk_size c)).
  rewrite (WriteLittleEndian_app 4 (chunk_type c) stream).
  rewrite (WriteLittleEndian_app 4 (chunk_size c) (WriteLittleEndian _ _ [])).
  rewrite app_assoc. reflexivity.
Qed.

(** A chunk header is eight bytes. *)
Lemma Chunk_WriteTo_length (c : Chunk) : length (Chunk_WriteTo c []) = 8%nat.
Proof.
  unfold Chunk_WriteTo. rewrite WriteLittleEndian_app, length_app.
  rewrite !WriteLittleEndian_length. reflexivity.
Qed.

Lemma RiffChunk_WriteTo_app (r : RiffChunk) (stream : ostream) :
  RiffChunk_WriteTo r stream = stream ++ RiffChunk_WriteTo r [].
Proof.
  unfold RiffChunk_WriteTo.
  rewrite (WriteLittleEndian_app 4 (riff_type r)).
  rewrite (Chunk_WriteTo_app _ stream).
  rewrite (WriteLittleEndian_app 4 (riff_type r) (Chunk_WriteTo _ [])).
  rewrite app_assoc. reflexivity.
Qed.

Lemma FmtChunk_WriteTo_app (f : FmtChunk) (stream : ostream) :
  FmtChunk_WriteTo f stream = stream ++ FmtChunk_WriteTo f [].
Proof.
  unfold FmtChunk_WriteTo.
  repeat match goal with
         | |- context [WriteLittleEndian ?n ?v (?g ?x ?s)] =>
             rewrite (WriteLittleEndian_app n v (g x s))
         | |- context [WriteLittleEndian ?n ?v (?g ?k ?x ?s)] =>
             rewrite (WriteLittleEndian_app n v (g k x s))
         end.
  rewrite (Chunk_WriteTo_app _ stream).
  rewrite <- !app_assoc. reflexivity.
Qed.

Lemma DataChunk_WriteTo_app (d : DataChunk) (stream : ostream) :
  DataChunk_WriteTo d stream = stream ++ DataChunk_WriteTo d [].
Proof.
  unfold DataChunk_WriteTo, ostream_write.
  rewrite (Chunk_WriteTo_app _ stream). rewrite app_assoc. reflexivity.
Qed.

(** What a [DataChunk] writes is its header followed by the first
    [data_length_] bytes of its array. *)
Lemma DataChunk_WriteTo_bytes (d : DataChunk) :
  DataChunk_WriteTo d []
  = Chunk_WriteTo (data_base d) []
    ++ firstn (Z.to_nat (data_length_ d)) (data_ d).
Proof. reflexivity. Qed.

Lemma fold_WriteTo_app (l : list DataChunk) (stream : ostream) :
  fold_left (fun file it => DataChunk_WriteTo it file) l stream
  = stream ++ write_all l.
Proof.
  revert stream. induction l as [|c l IH]; intros stream;
    cbn [fold_left write_all flat_map].
  - symmetry. apply app_nil_r.
  - rewrite IH, DataChunk_WriteTo_app, <- app_assoc. reflexivity.
Qed.

(** The extra chunks are written one after the other, in list order. *)
Lemma write_all_app (l1 l2 : list DataChunk) :
  write_all (l1 ++ l2) = write_all l1 ++ write_all l2.
Proof. unfold write_all. apply flat_map_app. Qed.

(** The file a successful save writes, section by section. *)
Lemma Save_layout (w : Wave) (filename : string) :
  let w' := fst (fst (Save w filename true)) in
  snd (fst (Save w filename true))
  = Some (RiffChunk_WriteTo (riff_chunk w') []
          ++ FmtChunk_WriteTo (fmt_chunk w') []
          ++ write_all (other_chunks w)
          ++ DataChunk_WriteTo (data_chunk w) []).
Proof.
  unfold Save. cbn [negb fst snd]. f_equal.
  rewrite DataChunk_WriteTo_app, fold_WriteTo_app, FmtChunk_WriteTo_app.
  rewrite <- !app_assoc. reflexivity.
Qed.

Lemma Save_frame (w : Wave) (filename : string) :
  let w' := fst (fst (Save w filename true)) in
  other_chunks w' = other_chunks w /\ data_chunk w' = data_chunk w
  /\ w' = UpdateFmtValues (UpdateRiffFileSize w).
Proof. cbv zeta. unfold Save. cbn [negb fst]. repeat split. Qed.

(** What [UpdateFmtValues] stores, for any previous contents of the two
    fields: the products are reduced to the width of the field that
    receives them. *)
Lemma UpdateFmtValues_fields (w : Wave) :
  let f := fmt_chunk w in
  let f' := fmt_chunk (UpdateFmtValues w) in
  block_align f' = to_uint16 (nchannels f * (bits_per_sample f / 8))
  /\ bytes_per_sec f'
     = to_uint32 (sample_rate f * nchannels f * (bits_per_sample f / 8))
  /\ nchannels f' = nchannels f /\ sample_rate f' = sample_rate f
  /\ bits_per_sample f' = bits_per_sample f.
Proof.
  cbv zeta. unfold UpdateFmtValues.
  cbn [with_fmt fmt_chunk block_align bytes_per_sec nchannels sample_rate
       bits_per_sample].
  rewrite to_uint16_to_int, to_uint32_mul_l. repeat split.
Qed.

(** C7 (amended).  Whatever [block_align] and [bytes_per_sec] held before,
    a save that opens its destination, and a resize, recompute them; when
    [nchannels * (bits_per_sample / 8)] fits the 16-bit [block_align] field,
    [block_align] is that product and [bytes_per_sec] is
    [sample_rate * block_align] in 32-bit arithmetic.  The save writes the
    recomputed Format chunk, and the resize sizes the data chunk with the
    recomputed [block_align]. *)
Theorem fmt_values_recomputed (w : Wave) (filename : string)
  (new_nsamples : Z) :
  let f := fmt_chunk w in
  0 <= nchannels f * (bits_per_sample f / 8) < 2 ^ 16 ->
  let saved := fmt_chunk (fst (fst (Save w filename true))) in
  let resized := Resize new_nsamples w in
  block_align saved = nchannels f * (bits_per_sample f / 8)
  /\ bytes_per_sec saved = to_uint32 (sample_rate f * block_align saved)
  /\ (exists before after,
        snd (fst (Save w filename true))
        = Some (before ++ FmtChunk_WriteTo saved [] ++ after))
  /\ block_align (fmt_chunk resized) = nchannels f * (bits_per_sample f / 8)
  /\ bytes_per_sec (fmt_chunk resized)
     = to_uint32 (sample_rate f * block_align (fmt_chunk resized))
  /\ data_chunk resized
     = DataChunk_ReAllocData
         (to_uint32 (new_nsamples * block_align (fmt_chunk resized)))
         (data_chunk w).
Proof.
  cbv zeta. intros Hfit.
  pose proof (UpdateFmtValues_fields w) as Hu. cbv zeta in Hu.
  destruct Hu as (Hba & Hbps & _).
  rewrite to_uint16_small in Hba by exact Hfit.
  pose proof (UpdateFmtValues_fields (UpdateRiffFileSize w)) as Hs.
  cbv zeta in Hs. destruct Hs as (Hba' & Hbps' & _).
  change (fmt_chunk (UpdateRiffFileSize w)) with (fmt_chunk w) in Hba', Hbps'.
  rewrite to_uint16_small in Hba' by exact Hfit.
  destruct (Save_frame w filename) as (_ & _ & Hw'). cbv zeta in Hw'.
  split; [|split; [|split; [|split; [|split]]]].
  - rewrite Hw'. exact Hba'.
  - rewrite Hw', Hbps', Hba'. f_equal. ring.
  - eexists. eexists. rewrite (Save_layout w filename). reflexivity.
  - exact Hba.
  - unfold Resize. cbn [with_data fmt_chunk]. rewrite Hbps, Hba. f_equal. ring.
  - reflexivity.
Qed.

(** ** Arrays and input streams *)

Lemma new_char_length (n : Z) : length (new_char n) = Z.to_nat n.
Proof. unfold new_char. rewrite length_map, length_seq. reflexivity. Qed.

Lemma array_set_nat_length (a : list Z) (i : nat) (v : Z) :
  length (array_set_nat a i v) = length a.
Proof.
  revert i. induction a as [|h t IH]; intros [|i]; cbn; try reflexivity.
  rewrite IH. reflexivity.
Qed.

Lemma array_set_length (a : list Z) (i v : Z) :
  length (array_set a i v) = length a.
Proof.
  unfold array_set. destruct (i <? 0); [reflexivity|].
  apply array_set_nat_length.
Qed.

Lemma array_set_nat_same (a : list Z) (i : nat) (v : Z) :
  (i < length a)%nat -> nth i (array_set_nat a i v) 0 = v.
Proof.
  revert i. induction a as [|h t IH]; intros [|i] H; cbn in *; try lia.
  apply IH. lia.
Qed.

Lemma array_set_nat_other (a : list Z) (i j : nat) (v : Z) :
  i <> j -> nth j (array_set_nat a i v) 0 = nth j a 0.
Proof.
  revert i j. induction a as [|h t IH]; intros [|i] [|j] H; cbn;
    try reflexivity; try congruence.
  apply IH. congruence.
Qed.

Lemma array_get_set_same (a : list Z) (i v : Z) :
  0 <= i < Z.of_nat (length a) ->
  array_get (array_set a i v) i = to_uchar v.
Proof.
  intros H. unfold array_get, array_set.
  destruct (i <? 0) eqn:E; [apply Z.ltb_lt in E; lia|].
  apply array_set_nat_same. lia.
Qed.

Lemma array_get_set_other (a : list Z) (i j v : Z) :
  i <> j -> array_get (array_set a i v) j = array_get a j.
Proof.
  intros H. unfold array_get, array_set.
  destruct (j <? 0) eqn:Ej; [reflexivity|].
  destruct (i <? 0) eqn:Ei; [reflexivity|].
  apply array_set_nat_other.
  apply Z.ltb_ge in Ej, Ei. lia.
Qed.

(** A read never gives the stream more bytes than it had. *)
Lemma istream_read_length (s : istream) (n : Z) :
  (length (in_bytes (snd (istream_read s n))) <= length (in_bytes s))%nat.
Proof.
  unfold istream_read. destruct (in_good s); [|cbn; lia].
  destruct (n <=? Z.of_nat (length (in_bytes s))); cbn; [|lia].
  rewrite length_skipn. lia.
Qed.

(** A read that leaves the stream good obtained all the bytes it asked for. *)
Lemma istream_read_good (s : istream) (n : Z) :
  in_good (snd (istream_read s n)) = true ->
  in_good s = true
  /\ n <= Z.of_nat (length (in_bytes s))
  /\ fst (istream_read s n) = firstn (Z.to_nat n) (in_bytes s)
  /\ in_bytes (snd (istream_read s n)) = skipn (Z.to_nat n) (in_bytes s).
Proof.
  unfold istream_read. destruct (in_good s) eqn:G; cbn; [|intros H; congruence].
  destruct (n <=? Z.of_nat (length (in_bytes s))) eqn:E; cbn;
    [|discriminate].
  intros _. apply Z.leb_le in E. auto.
Qed.

Lemma ReadLittleEndian_loop_length (size : Z) (n : nat) (i out : Z)
  (s : istream) :
  (length (in_bytes (snd (ReadLittleEndian_loop size n i (out, s))))
   <= length (in_bytes s))%nat.
Proof.
  revert i out s. induction n as [|n IH]; intros i out s;
    cbn [ReadLittleEndian_loop]; [cbn; lia|].
  unfold ReadLittleEndian_step.
  pose proof (istream_read_length s 1) as H1.
  destruct (istream_read s 1) as [got s'] eqn:E. cbn [snd] in H1.
  etransitivity; [apply IH | exact H1].
Qed.

Lemma ReadLittleEndian_loop_good (size : Z) (n : nat) (i out : Z)
  (s : istream) :
  in_good (snd (ReadLittleEndian_loop size n i (out, s))) = true ->
  in_good s = true
  /\ (n <= length (in_bytes s))%nat
  /\ in_bytes (snd (ReadLittleEndian_loop size n i (out, s)))
     = skipn n (in_bytes s).
Proof.
  revert i out s. induction n as [|n IH]; intros i out s;
    cbn [ReadLittleEndian_loop].
  - cbn. intros H. repeat split; [exact H | lia].
  - unfold ReadLittleEndian_step.
    destruct (istream_read s 1) as [got s'] eqn:E.
    intros H. apply IH in H. destruct H as (G' & L' & B').
    pose proof (istream_read_good s 1) as R. rewrite E in R. cbn [fst snd] in R.
    destruct (R G') as (G & L & _ & B).
    rewrite B in L', B'. rewrite length_skipn in L'. rewrite skipn_skipn in B'.
    change (Z.to_nat 1) with 1%nat in *.
    repeat split; [exact G | lia |].
    rewrite B'. f_equal. lia.
Qed.

Lemma ReadLittleEndian_length (size : Z) (s : istream) :
  (length (in_bytes (snd (ReadLittleEndian size s)))
   <= length (in_bytes s))%nat.
Proof. apply ReadLittleEndian_loop_length. Qed.

Lemma ReadLittleEndian_good (size : Z) (s : istream) :
  in_good (snd (ReadLittleEndian size s)) = true ->
  in_good s = true
  /\ (Z.to_nat size <= length (in_bytes s))%nat
  /\ in_bytes (snd (ReadLittleEndian size s))
     = skipn (Z.to_nat size) (in_bytes s).
Proof. apply ReadLittleEndian_loop_good. Qed.

(** The value read is reduced to the width of its type. *)
Lemma ReadLittleEndian_loop_range (size : Z) (n : nat) (i out : Z)
  (s : istream) :
  0 <= size -> 0 <= out < 2 ^ (8 * size) ->
  0 <= fst (ReadLittleEndian_loop size n i (out, s)) < 2 ^ (8 * size).
Proof.
  intros Hs. revert i out s. induction n as [|n IH]; intros i out s Ho;
    cbn [ReadLittleEndian_loop]; [exact Ho|].
  unfold ReadLittleEndian_step.
  destruct (istream_read s 1) as [got s'].
  apply IH. unfold to_uintT. apply Z.mod_pos_bound.
  apply Z.pow_pos_nonneg; lia.
Qed.

Lemma ReadLittleEndian_4_range (s : istream) :
  0 <= fst (ReadLittleEndian 4 s) < 2 ^ 32.
Proof.
  apply (ReadLittleEndian_loop_range 4); [lia|]. cbn. lia.
Qed.

(** ** Word alignment of a DataChunk *)

Lemma ReAllocData_length (n : Z) (d : DataChunk) :
  owns_its_length (DataChunk_ReAllocData n d).
Proof.
  unfold owns_its_length, DataChunk_ReAllocData. cbn [data_ data_length_].
  set (len := to_uint32 (n + n mod 2)).
  assert (0 <= len) by (apply Z.mod_pos_bound; lia).
  destruct (len =? 0) eqn:E; cbn [negb].
  - apply Z.eqb_eq in E. rewrite E. reflexivity.
  - destruct (negb (n mod 2 =? 0));
      rewrite ?array_set_length, new_char_length; lia.
Qed.

(** A chunk built by [ReAllocData] or [ReadFrom] owns its length, and its
    length is its size rounded up.  The copy constructor reproduces such a
    chunk exactly, so the copies the vector makes of its elements (at
    [push_back], or when it moves them to larger storage) are the elements
    themselves. *)
Lemma DataChunk_copy_id (d : DataChunk) :
  owns_its_length d ->
  data_length_ d
  = to_uint32 (chunk_size (data_base d) + chunk_size (data_base d) mod 2) ->
  DataChunk_copy d = d.
Proof.
  unfold owns_its_length. intros Hown Hlen.
  pose proof (ReAllocData_length (chunk_size (data_base d))
                (mk_DataChunk (data_base d) [] 0)) as Ha.
  unfold owns_its_length in Ha.
  unfold DataChunk_copy.
  set (a := DataChunk_ReAllocData _ _) in *.
  assert (Hal : data_length_ a = data_length_ d) by (rewrite Hlen; reflexivity).
  assert (Hab : data_base a = data_base d).
  { unfold a. cbn [DataChunk_ReAllocData data_base].
    destruct (data_base d). reflexivity. }
  destruct d as [base mem len]. cbn [data_base data_ data_length_] in *.
  rewrite Hab, Hal. f_equal.
  unfold memcpy.
  rewrite firstn_all2 by lia.
  rewrite skipn_all2 by lia.
  apply app_nil_r.
Qed.

Lemma ReAllocData_fields (n : Z) (d : DataChunk) :
  chunk_size (data_base (DataChunk_ReAllocData n d)) = n
  /\ chunk_type (data_base (DataChunk_ReAllocData n d))
     = chunk_type (data_base d)
  /\ data_length_ (DataChunk_ReAllocData n d) = to_uint32 (n + n mod 2).
Proof. repeat split. Qed.


(** A chunk that owns its length writes its header and its whole array. *)
Lemma WriteTo_whole_array (d : DataChunk) :
  owns_its_length d ->
  DataChunk_WriteTo d [] = Chunk_WriteTo (data_base d) [] ++ data_ d
  /\ Z.of_nat (length (DataChunk_WriteTo d [])) = 8 + data_length_ d.
Proof.
  unfold owns_its_length. intros H.
  rewrite DataChunk_WriteTo_bytes.
  rewrite firstn_all2 by lia.
  split; [reflexivity|].
  rewrite length_app, Chunk_WriteTo_length. lia.
Qed.

Lemma Chunk_ReadFrom_stream (s : istream) (c : Chunk) :
  Chunk_ReadFrom s c
  = (mk_Chunk (chunk_type c) (fst (ReadLittleEndian 4 s)),
     snd (ReadLittleEndian 4 s)).
Proof.
  unfold Chunk_ReadFrom. destruct (ReadLittleEndian 4 s). reflexivity.
Qed.

(** [ReadFrom] unfolded: the size field, the allocation, the payload read. *)
Lemma DataChunk_ReadFrom_unfold (s : istream) (d : DataChunk) :
  let size := fst (ReadLittleEndian 4 s) in
  let s1 := snd (ReadLittleEndian 4 s) in
  let a := DataChunk_ReAllocData size d in
  let got := fst (istream_read s1 (data_length_ a)) in
  DataChunk_ReadFrom s d
  = (mk_DataChunk (data_base a) (got ++ skipn (length got) (data_ a))
       (data_length_ a),
     snd (istream_read s1 (data_length_ a))).
Proof.
  cbv zeta. unfold DataChunk_ReadFrom. rewrite Chunk_ReadFrom_stream.
  cbn [data_base chunk_size].
  change (DataChunk_ReAllocData (fst (ReadLittleEndian 4 s))
            (mk_DataChunk
               (mk_Chunk (chunk_type (data_base d))
                  (fst (ReadLittleEndian 4 s))) (data_ d) (data_length_ d)))
    with (DataChunk_ReAllocData (fst (ReadLittleEndian 4 s)) d).
  destruct (istream_read _ _). reflexivity.
Qed.

Lemma istream_read_got_length (s : istream) (n : Z) :
  0 <= n -> Z.of_nat (length (fst (istream_read s n))) <= n.
Proof.
  intros Hn. unfold istream_read. destruct (in_good s); [|cbn; lia].
  destruct (n <=? Z.of_nat (length (in_bytes s))) eqn:E; cbn [fst].
  - rewrite length_firstn. lia.
  - apply Z.leb_gt in E. lia.
Qed.

(** After [ReadFrom], complete or not, the chunk owns an array of
    [chunk_size] rounded up to even (in 32-bit arithmetic). *)
Lemma ReadFrom_length (s : istream) (d : DataChunk) :
  let r := fst (DataChunk_ReadFrom s d) in
  let m := chunk_size (data_base r) in
  data_length_ r = to_uint32 (m + m mod 2) /\ owns_its_length r.
Proof.
  cbv zeta. rewrite DataChunk_ReadFrom_unfold. cbn [fst].
  split; [reflexivity|].
  unfold owns_its_length. cbn [data_ data_length_ DataChunk_ReAllocData].
  set (a := DataChunk_ReAllocData (fst (ReadLittleEndian 4 s)) d).
  pose proof (ReAllocData_length (fst (ReadLittleEndian 4 s)) d) as Ha.
  fold a in Ha. unfold owns_its_length in Ha.
  change (to_uint32 (fst (ReadLittleEndian 4 s)
                     + fst (ReadLittleEndian 4 s) mod 2))
    with (data_length_ a).
  assert (0 <= data_length_ a) by lia.
  pose proof (istream_read_got_length (snd (ReadLittleEndian 4 s))
                (data_length_ a) H) as Hg.
  change (if negb (data_length_ a =? 0)
          then if negb (fst (ReadLittleEndian 4 s) mod 2 =? 0)
               then array_set (new_char (data_length_ a))
                      (data_length_ a - 1) 0
               else new_char (data_length_ a)
          else []) with (data_ a).
  rewrite length_app, length_skipn. lia.
Qed.


(** ** The loader *)

Ltac read_step :=
  match goal with
  | |- context [ReadLittleEndian ?n ?s] =>
      let H := fresh "Hlen" in
      pose proof (ReadLittleEndian_length n s) as H;
      destruct (ReadLittleEndian n s) as [? ?];
      cbn [fst snd] in H
  end.

Lemma FmtChunk_ReadFrom_length (s : istream) (f : FmtChunk) :
  (length (in_bytes (snd (fst (FmtChunk_ReadFrom s f))))
   <= length (in_bytes s))%nat.
Proof.
  unfold FmtChunk_ReadFrom, Chunk_ReadFrom. repeat read_step.
  cbn [fst snd]. lia.
Qed.

Lemma DataChunk_ReadFrom_length (s : istream) (d : DataChunk) :
  (length (in_bytes (snd (DataChunk_ReadFrom s d)))
   <= length (in_bytes s))%nat.
Proof.
  rewrite DataChunk_ReadFrom_unfold. cbn [snd].
  etransitivity; [apply istream_read_length|].
  apply ReadLittleEndian_length.
Qed.

Lemma DataChunk_Skip_length (s : istream) (d : DataChunk) :
  (length (in_bytes (snd (DataChunk_Skip s d))) <= length (in_bytes s))%nat.
Proof.
  unfold DataChunk_Skip. rewrite Chunk_ReadFrom_stream. cbn [snd].
  unfold istream_ignore.
  etransitivity; [apply istream_read_length|].
  apply ReadLittleEndian_length.
Qed.

(** The streams the readers leave behind do not depend on the object that
    is being filled. *)
Lemma FmtChunk_ReadFrom_stream (s : istream) (f f' : FmtChunk) :
  snd (fst (FmtChunk_ReadFrom s f)) = snd (fst (FmtChunk_ReadFrom s f')).
Proof.
  unfold FmtChunk_ReadFrom, Chunk_ReadFrom.
  repeat match goal with
         | |- context [ReadLittleEndian ?n ?s] =>
             destruct (ReadLittleEndian n s) as [? ?]
         end.
  reflexivity.
Qed.

Lemma DataChunk_ReadFrom_stream (s : istream) (d d' : DataChunk) :
  snd (DataChunk_ReadFrom s d) = snd (DataChunk_ReadFrom s d').
Proof. rewrite !DataChunk_ReadFrom_unfold. reflexivity. Qed.

Lemma DataChunk_Skip_stream (s : istream) (d d' : DataChunk) :
  snd (DataChunk_Skip s d) = snd (DataChunk_Skip s d').
Proof.
  unfold DataChunk_Skip. rewrite !Chunk_ReadFrom_stream. reflexivity.
Qed.

Lemma after_data_eq (load_data : bool) (file : istream) (d : DataChunk) :
  snd (if load_data then DataChunk_ReadFrom file d
       else DataChunk_Skip file d)
  = after_data load_data file.
Proof.
  unfold after_data. destruct load_data.
  - apply DataChunk_ReadFrom_stream.
  - apply DataChunk_Skip_stream.
Qed.

Lemma after_data_length (load_data : bool) (file : istream) :
  (length (in_bytes (after_data load_data file))
   <= length (in_bytes file))%nat.
Proof.
  unfold after_data. destruct load_data.
  - apply DataChunk_ReadFrom_length.
  - apply DataChunk_Skip_length.
Qed.

(** The bound given to the loop is enough: the loop always ends, and what it
    leaves in [other_chunks] is what was there followed by the unrecognised
    chunks of the stream. *)
Lemma Load_loop_other_chunks (fuel : nat) (load_data : bool) (file : istream)
  (w : Wave) (cerr : list string) :
  (length (in_bytes file) < fuel)%nat ->
  exists w' cerr',
    Load_loop fuel load_data file w cerr = Some (w', cerr')
    /\ other_chunks w'
       = other_chunks w ++ unrecognised_chunks fuel load_data file
    /\ riff_chunk w' = riff_chunk w.
Proof.
  revert file w cerr. induction fuel as [|fuel IH]; intros file w cerr Hlen;
    [lia|].
  cbn [Load_loop unrecognised_chunks].
  destruct (in_good file) eqn:G.
  2:{ exists w, cerr. rewrite app_nil_r. auto. }
  pose proof (ReadLittleEndian_good 4 file) as R.
  destruct (ReadLittleEndian 4 file) as [type file1]. cbn [snd] in R.
  destruct (in_good file1) eqn:G1; cbn [negb].
  2:{ exists w, cerr. rewrite app_nil_r. auto. }
  destruct (R eq_refl) as (_ & L & B). change (Z.to_nat 4) with 4%nat in *.
  assert (Hlen1 : (length (in_bytes file1) < fuel)%nat).
  { rewrite B, length_skipn. lia. }
  destruct (type =? CHUNK_TYPE_FMT).
  { pose proof (FmtChunk_ReadFrom_length file1 (fmt_chunk w)) as Lf.
    rewrite (FmtChunk_ReadFrom_stream file1 FmtChunk_new (fmt_chunk w)).
    destruct (FmtChunk_ReadFrom file1 (fmt_chunk w)) as [[f file2] msgs].
    cbn [fst snd] in *.
    destruct (IH file2 (with_fmt w f) (cerr ++ msgs)) as (w' & c' & E & O & Rf);
      [lia|].
    exists w', c'. auto. }
  destruct (type =? CHUNK_TYPE_DATA).
  { pose proof (after_data_length load_data file1) as Ld.
    rewrite <- (after_data_eq load_data file1 (data_chunk w)) in *.
    destruct (if load_data then DataChunk_ReadFrom file1 (data_chunk w)
              else DataChunk_Skip file1 (data_chunk w)) as [d file2].
    cbn [fst snd] in *.
    destruct (IH file2 (with_data w d) cerr) as (w' & c' & E & O & Rf); [lia|].
    exists w', c'. auto. }
  pose proof (DataChunk_ReadFrom_length file1 (DataChunk_of_type type)) as Lo.
  destruct (DataChunk_ReadFrom file1 (DataChunk_of_type type))
    as [chunk file2].
  cbn [fst snd] in *.
  destruct (IH file2 (with_others w (push_back (other_chunks w) chunk)) cerr)
    as (w' & c' & E & O & Rf); [lia|].
  exists w', c'. split; [exact E|]. split; [|exact Rf].
  rewrite O. unfold push_back. cbn [with_others other_chunks].
  rewrite <- app_assoc. reflexivity.
Qed.

(** No chunk the loop appends has the type of a recognised chunk. *)
Lemma unrecognised_chunks_types (fuel : nat) (load_data : bool)
  (file : istream) :
  Forall (fun c => chunk_type (data_base c) <> CHUNK_TYPE_FMT
                   /\ chunk_type (data_base c) <> CHUNK_TYPE_DATA)
    (unrecognised_chunks fuel load_data file).
Proof.
  revert file. induction fuel as [|fuel IH]; intros file;
    cbn [unrecognised_chunks]; [constructor|].
  destruct (in_good file); [|constructor].
  destruct (ReadLittleEndian 4 file) as [type file1].
  destruct (in_good file1); cbn [negb]; [|constructor].
  destruct (type =? CHUNK_TYPE_FMT) eqn:Ef; [apply IH|].
  destruct (type =? CHUNK_TYPE_DATA) eqn:Ed; [apply IH|].
  rewrite DataChunk_ReadFrom_unfold.
  constructor; [|apply IH].
  cbn. apply Z.eqb_neq in Ef, Ed. auto.
Qed.

Lemma RiffChunk_ReadFrom_unfold (s : istream) (r : RiffChunk) :
  let s1 := snd (ReadLittleEndian 4 s) in
  RiffChunk_ReadFrom s r
  = (mk_RiffChunk
       (mk_Chunk (chunk_type (riff_base r)) (fst (ReadLittleEndian 4 s)))
       (fst (ReadLittleEndian 4 s1)),
     snd (ReadLittleEndian 4 s1)).
Proof.
  cbv zeta. unfold RiffChunk_ReadFrom. rewrite Chunk_ReadFrom_stream.
  destruct (ReadLittleEndian 4 (snd (ReadLittleEndian 4 s))). reflexivity.
Qed.

(** Both entry points return, and leave in [other_chunks] the former
    entries followed by the unrecognised chunks of the file. *)
Lemma Load_other_chunks (load_data : bool) (w : Wave) (filename : string)
  (contents : option (list Z)) :
  exists w' cerr,
    (if load_data then Load w filename contents
     else LoadMetadata w filename contents) = Some (w', cerr)
    /\ other_chunks w'
       = other_chunks w ++ file_unrecognised_chunks load_data contents.
Proof.
  assert (H : exists w' cerr,
             (if negb (in_good (open_in contents))
              then Some (w, if load_data then [cant_open_error filename]
                            else [])
              else Load_file (open_in contents) filename load_data w)
             = Some (w', cerr)
             /\ other_chunks w'
                = other_chunks w
                  ++ file_unrecognised_chunks load_data contents).
  { unfold file_unrecognised_chunks, Load_file.
    destruct (in_good (open_in contents)); cbn [negb].
    2:{ eexists. eexists. split; [reflexivity|]. symmetry. apply app_nil_r. }
    destruct (ReadLittleEndian 4 (open_in contents)) as [type file1].
    destruct (type =? CHUNK_TYPE_RIFF); cbn [negb].
    2:{ eexists. eexists. split; [reflexivity|]. symmetry. apply app_nil_r. }
    rewrite !RiffChunk_ReadFrom_unfold. cbn [riff_type].
    destruct (negb (fst (ReadLittleEndian 4 (snd (ReadLittleEndian 4 file1)))
                    =? RIFF_TYPE_WAVE)
              || negb (in_good (snd (ReadLittleEndian 4
                                       (snd (ReadLittleEndian 4 file1)))))).
    { eexists. eexists. split; [reflexivity|]. symmetry. apply app_nil_r. }
    edestruct Load_loop_other_chunks as (w' & c' & E & O & _);
      [|exists w', c'; split; [exact E | exact O]].
    lia. }
  destruct load_data; exact H.
Qed.

(** C5 (amended).  When the outer marker read from the file is not "RIFF",
    [Load] prints the format error and returns with the whole container,
    Riff chunk included, as it was.  When the outer marker is "RIFF" and the
    format tag read is not "WAVE", it prints the same error and returns with
    the size and the tag read from the file in the Riff chunk and with the
    Format chunk, the data chunk and [other_chunks] as they were.
    [LoadMetadata] does the same. *)
Theorem Load_format_error (w : Wave) (filename : string) (bytes : list Z) :
  let file := mk_istream bytes true in
  let outer := fst (ReadLittleEndian 4 file) in
  let riff :=
    fst (RiffChunk_ReadFrom (snd (ReadLittleEndian 4 file)) (riff_chunk w)) in
  outer <> CHUNK_TYPE_RIFF \/ riff_type riff <> RIFF_TYPE_WAVE ->
  exists w',
    Load w filename (Some bytes) = Some (w', [not_wav_error filename])
    /\ LoadMetadata w filename (Some bytes)
       = Some (w', [not_wav_error filename])
    /\ riff_chunk w' = (if outer =? CHUNK_TYPE_RIFF then riff
                        else riff_chunk w)
    /\ fmt_chunk w' = fmt_chunk w
    /\ data_chunk w' = data_chunk w
    /\ other_chunks w' = other_chunks w.
Proof.
  cbv zeta. intros H.
  unfold Load, LoadMetadata, Load_file. cbn [open_in in_good negb].
  destruct (ReadLittleEndian 4 (mk_istream bytes true)) as [type file1].
  cbn [fst snd] in *.
  destruct (type =? CHUNK_TYPE_RIFF) eqn:E; cbn [negb].
  - destruct (RiffChunk_ReadFrom file1 (riff_chunk w)) as [r file2].
    cbn [fst] in H.
    destruct H as [H|H]; [apply Z.eqb_eq in E; contradiction|].
    apply Z.eqb_neq in H. rewrite H. cbn [negb orb].
    exists (with_riff w r). repeat split.
  - exists w. repeat split.
Qed.

(** ** The sample codec *)

(** *** Little-endian values *)

Lemma land_shifted_0 (a b k : Z) :
  0 <= k -> 0 <= a < 2 ^ k -> Z.land a (b * 2 ^ k) = 0.
Proof.
  intros Hk Ha. apply Z.bits_inj'. intros n Hn.
  rewrite Z.land_spec, Z.bits_0.
  destruct (Z.lt_ge_cases n k) as [L|L].
  - rewrite Z.mul_pow2_bits_low by lia. apply andb_false_r.
  - rewrite <- (Z.mod_small a (2 ^ k)) by lia.
    rewrite Z.mod_pow2_bits_high by lia. reflexivity.
Qed.

Lemma lor_shifted (a b k : Z) :
  0 <= k -> 0 <= a < 2 ^ k -> Z.lor a (b * 2 ^ k) = a + b * 2 ^ k.
Proof.
  intros Hk Ha.
  rewrite <- Z.lxor_lor by (apply land_shifted_0; assumption).
  symmetry. apply Z.add_nocarry_lxor. apply land_shifted_0; assumption.
Qed.

Lemma to_uchar_range (z : Z) : 0 <= to_uchar z < 256.
Proof. unfold to_uchar. apply Z.mod_pos_bound. lia. Qed.

Lemma to_uchar_idem (z : Z) : to_uchar (to_uchar z) = to_uchar z.
Proof. unfold to_uchar. apply Z.mod_mod. lia. Qed.

Lemma to_ull_small (z : Z) : 0 <= z < 2 ^ 64 -> to_ull z = z.
Proof. intros H. unfold to_ull. apply Z.mod_small. exact H. Qed.

(** [b << 8*i] at [int], for a byte [b] and [i < 3], is the exact product:
    it stays below 2^31 and the conversion to [unsigned long long] keeps
    it. *)
Lemma int_shl_byte (b i : Z) :
  0 <= b < 256 -> 0 <= i < 3 ->
  to_ull (int_shl b (to_uint32 (8 * i))) = b * 2 ^ (8 * i).
Proof.
  intros Hb Hi. unfold int_shl, to_int.
  rewrite to_uint32_small by lia.
  rewrite (Z.mod_small (8 * i) 32) by lia.
  rewrite Z.shiftl_mul_pow2 by lia.
  assert (0 < 2 ^ (8 * i) <= 2 ^ 16).
  { split; [apply Z.pow_pos_nonneg; lia|]. apply Z.pow_le_mono_r; lia. }
  assert (0 <= b * 2 ^ (8 * i) < 2 ^ 24) by nia.
  rewrite (Z.mod_small (b * 2 ^ (8 * i) + 2 ^ 31)) by lia.
  rewrite to_ull_small by lia. lia.
Qed.

Lemma le_value_range (mem : list Z) (from : Z) (n : nat) :
  0 <= le_value (slice mem from n) < 2 ^ (8 * Z.of_nat n).
Proof.
  revert from. induction n as [|n IH]; intros from; cbn [slice le_value].
  - cbn. lia.
  - pose proof (to_uchar_range (array_get mem from)).
    pose proof (IH (from + 1)).
    replace (8 * Z.of_nat (S n)) with (8 + 8 * Z.of_nat n) by lia.
    rewrite Z.pow_add_r by lia. change (2 ^ 8) with 256. nia.
Qed.

(** Up to three bytes, the loop of [GetValue] assembles the unsigned
    little-endian value of the slice. *)
Lemma GetValue_loop_le_value (mem : list Z) (things : Z) (n : nat)
  (i answer : Z) :
  0 <= i -> i + Z.of_nat n <= 3 -> 0 <= answer < 2 ^ (8 * i) ->
  GetValue_loop mem things n i answer
  = answer + 2 ^ (8 * i) * le_value (slice mem (things + i) n).
Proof.
  revert i answer. induction n as [|n IH]; intros i answer Hi Hn Ha;
    cbn [GetValue_loop slice le_value].
  - lia.
  - pose proof (to_uchar_range (array_get mem (things + i))) as Hb.
    rewrite int_shl_byte by lia.
    rewrite lor_shifted by lia.
    rewrite IH.
    + replace (things + (i + 1)) with (things + i + 1) by lia.
      replace (8 * (i + 1)) with (8 * i + 8) by lia.
      rewrite Z.pow_add_r by lia. change (2 ^ 8) with 256. ring.
    + lia.
    + lia.
    + replace (8 * (i + 1)) with (8 * i + 8) by lia.
      rewrite Z.pow_add_r by lia. change (2 ^ 8) with 256.
      assert (0 < 2 ^ (8 * i)) by (apply Z.pow_pos_nonneg; lia).
      nia.
Qed.

Lemma GetValue_loop_read_unsigned (mem : list Z) (things sizeof_thing : Z) :
  0 <= sizeof_thing <= 3 ->
  GetValue_loop mem things (Z.to_nat sizeof_thing) 0 0
  = read_unsigned mem things sizeof_thing.
Proof.
  intros H. rewrite GetValue_loop_le_value by (cbn; lia).
  unfold read_unsigned. rewrite Z.add_0_r. cbn. 
  destruct (le_value _); reflexivity.
Qed.

Lemma width_cases (n : Z) : 1 <= n <= 3 -> n = 1 \/ n = 2 \/ n = 3.
Proof. lia. Qed.

Lemma max_thing_value_small (n : Z) :
  1 <= n <= 3 -> max_thing_value n = 2 ^ (8 * n) - 1.
Proof.
  intros H. destruct (width_cases n H) as [E|[E|E]]; subst n; reflexivity.
Qed.

Lemma max_signed_value_small (n : Z) :
  1 <= n <= 3 -> max_signed_value n = 2 ^ (8 * n - 1) - 1.
Proof.
  intros H. destruct (width_cases n H) as [E|[E|E]]; subst n; reflexivity.
Qed.

(** *** What [PutChannelAvg] stores *)

Lemma ull_shr_byte (thing j : Z) :
  0 <= j < 8 -> ull_shr thing (to_uint32 (8 * j)) = thing / 2 ^ (8 * j).
Proof.
  intros H. unfold ull_shr. rewrite to_uint32_small by lia.
  rewrite (Z.mod_small (8 * j) 64) by lia.
  apply Z.shiftr_div_pow2. lia.
Qed.

Lemma le_value_le_bytes (thing j : Z) (n : nat) :
  0 <= j -> j + Z.of_nat n <= 8 ->
  le_value (le_bytes thing j n)
  = (thing / 2 ^ (8 * j)) mod 2 ^ (8 * Z.of_nat n).
Proof.
  revert j. induction n as [|n IH]; intros j Hj Hn; cbn [le_bytes le_value].
  - cbn. symmetry. apply Z.mod_1_r.
  - rewrite IH by lia. rewrite ull_shr_byte by lia.
    replace (8 * Z.of_nat (S n)) with (8 + 8 * Z.of_nat n) by lia.
    rewrite (Z.pow_add_r 2 8) by lia. change (2 ^ 8) with 256.
    rewrite Z.rem_mul_r by (try apply Z.pow_pos_nonneg; lia).
    unfold to_uchar. change (2 ^ 8) with 256.
    replace (8 * (j + 1)) with (8 * j + 8) by lia.
    rewrite Z.pow_add_r by lia. change (2 ^ 8) with 256.
    rewrite Z.div_div by (try apply Z.pow_pos_nonneg; lia).
    reflexivity.
Qed.

Lemma slice_le_bytes (mem : list Z) (from : Z) (thing j : Z) (n : nat) :
  (forall k, 0 <= k < Z.of_nat n ->
     array_get mem (from + k)
     = to_uchar (ull_shr thing (to_uint32 (8 * (j + k))))) ->
  slice mem from n = le_bytes thing j n.
Proof.
  revert from j. induction n as [|n IH]; intros from j H;
    cbn [slice le_bytes]; [reflexivity|].
  f_equal.
  - specialize (H 0 ltac:(lia)). rewrite !Z.add_0_r in H.
    rewrite H. apply to_uchar_idem.
  - apply IH. intros k Hk. specialize (H (1 + k) ltac:(lia)).
    replace (from + 1 + k) with (from + (1 + k)) by lia.
    replace (j + 1 + k) with (j + (1 + k)) by lia. exact H.
Qed.

Lemma PutChannelAvg_inner_spec (thing things sizeof_thing i : Z) (n : nat)
  (j : Z) (mem : list Z) :
  0 <= things -> 0 <= i * sizeof_thing -> 0 <= j ->
  i * sizeof_thing + j + Z.of_nat n < 2 ^ 32 ->
  things + i * sizeof_thing + j + Z.of_nat n <= Z.of_nat (length mem) ->
  let mem' := PutChannelAvg_inner thing things sizeof_thing i n j mem in
  length mem' = length mem
  /\ forall k,
       array_get mem' k
       = if (things + i * sizeof_thing + j <=? k)
            && (k <? things + i * sizeof_thing + j + Z.of_nat n)
         then to_uchar
                (ull_shr thing
                   (to_uint32 (8 * (k - things - i * sizeof_thing))))
         else array_get mem k.
Proof.
  cbv zeta. intros Ht Hi. revert j mem.
  induction n as [|n IH]; intros j mem Hj Hw Hl; cbn [PutChannelAvg_inner].
  - split; [reflexivity|]. intros k.
    destruct (things + i * sizeof_thing + j <=? k) eqn:E1;
      destruct (k <? things + i * sizeof_thing + j + Z.of_nat 0) eqn:E2;
      cbn [andb]; try reflexivity.
    apply Z.leb_le in E1. apply Z.ltb_lt in E2. lia.
  - rewrite (to_uint32_small (i * sizeof_thing)) by lia.
    rewrite (to_uint32_small (j + i * sizeof_thing)) by lia.
    set (p := things + (j + i * sizeof_thing)).
    set (mem1 := array_set mem p (ull_shr thing (to_uint32 (8 * j)))).
    assert (L1 : length mem1 = length mem) by apply array_set_length.
    destruct (IH (j + 1) mem1) as (L & G); [lia | lia | rewrite L1; lia |].
    split; [rewrite L; exact L1|].
    intros k. rewrite G.
    destruct (Z.eq_dec k p) as [->|Hk].
    + replace (things + i * sizeof_thing + (j + 1) <=? p) with false
        by (symmetry; apply Z.leb_gt; subst p; lia).
      replace (things + i * sizeof_thing + j <=? p) with true
        by (symmetry; apply Z.leb_le; subst p; lia).
      replace (p <? things + i * sizeof_thing + j + Z.of_nat (S n)) with true
        by (symmetry; apply Z.ltb_lt; subst p; lia).
      cbn [andb]. unfold mem1. rewrite array_get_set_same by (subst p; lia).
      do 3 f_equal. subst p. lia.
    + unfold mem1 at 1. rewrite array_get_set_other by congruence.
      replace (things + i * sizeof_thing + (j + 1) <=? k)
        with (things + i * sizeof_thing + j <=? k).
      2:{ destruct (things + i * sizeof_thing + j <=? k) eqn:E1; symmetry.
          - apply Z.leb_le in E1. apply Z.leb_le. subst p. lia.
          - apply Z.leb_gt in E1. apply Z.leb_gt. lia. }
      replace (k <? things + i * sizeof_thing + (j + 1) + Z.of_nat n)
        with (k <? things + i * sizeof_thing + j + Z.of_nat (S n))
        by (f_equal; lia).
      reflexivity.
Qed.

(** With two channels, both slices of the sample receive the same bytes:
    the little-endian bytes of the one encoded value. *)
Lemma PutChannelAvg_two_channels (thing things sizeof_thing : Z)
  (mem : list Z) :
  0 <= things -> 1 <= sizeof_thing -> 2 * sizeof_thing < 2 ^ 32 ->
  things + 2 * sizeof_thing <= Z.of_nat (length mem) ->
  let mem' := PutChannelAvg_outer thing things sizeof_thing 2 0 mem in
  length mem' = length mem
  /\ slice mem' things (Z.to_nat sizeof_thing)
     = le_bytes thing 0 (Z.to_nat sizeof_thing)
  /\ slice mem' (things + sizeof_thing) (Z.to_nat sizeof_thing)
     = le_bytes thing 0 (Z.to_nat sizeof_thing).
Proof.
  cbv zeta. intros Ht Hs Hw Hl. cbn [PutChannelAvg_outer].
  set (mem1 := PutChannelAvg_inner thing things sizeof_thing 0
                 (Z.to_nat sizeof_thing) 0 mem).
  destruct (PutChannelAvg_inner_spec thing things sizeof_thing 0
              (Z.to_nat sizeof_thing) 0 mem) as (L1 & G1); try lia.
  fold mem1 in L1, G1.
  destruct (PutChannelAvg_inner_spec thing things sizeof_thing (0 + 1)
              (Z.to_nat sizeof_thing) 0 mem1) as (L2 & G2);
    try lia.
  split; [rewrite L2; exact L1|]. split.
  - apply slice_le_bytes. intros k Hk. rewrite G2.
    replace (things + (0 + 1) * sizeof_thing + 0 <=? things + k) with false
      by (symmetry; apply Z.leb_gt; lia).
    cbn [andb]. rewrite G1.
    replace (things + 0 * sizeof_thing + 0 <=? things + k) with true
      by (symmetry; apply Z.leb_le; lia).
    replace (things + k
             <? things + 0 * sizeof_thing + 0
                + Z.of_nat (Z.to_nat sizeof_thing)) with true
      by (symmetry; apply Z.ltb_lt; lia).
    cbn [andb]. do 3 f_equal. lia.
  - apply slice_le_bytes. intros k Hk. rewrite G2.
    replace (things + (0 + 1) * sizeof_thing + 0
             <=? things + sizeof_thing + k) with true
      by (symmetry; apply Z.leb_le; lia).
    replace (things + sizeof_thing + k
             <? things + (0 + 1) * sizeof_thing + 0
                + Z.of_nat (Z.to_nat sizeof_thing)) with true
      by (symmetry; apply Z.ltb_lt; lia).
    cbn [andb]. do 3 f_equal. lia.
Qed.

(** *** Writing a sample and reading it back *)

Lemma nsamples_div (w : Wave) :
  nsamples w
  = chunk_size (data_base (data_chunk w)) / block_align (fmt_chunk w).
Proof.
  unfold nsamples, nsamples_checked, bytes_per_sample, udiv.
  destruct (chunk_size (data_base (data_chunk w)) =? 0) eqn:Hs;
    destruct (block_align (fmt_chunk w) =? 0) eqn:Ha; cbn [orb];
    try reflexivity.
  - apply Z.eqb_eq in Hs, Ha. rewrite Hs. reflexivity.
  - apply Z.eqb_eq in Hs. rewrite Hs. reflexivity.
  - apply Z.eqb_eq in Ha. rewrite Ha. symmetry. apply Z.div_0_r.
Qed.

(** An in-range sample lies inside the declared size of the data chunk. *)
Lemma sample_in_chunk (w : Wave) (offset : Z) :
  0 < block_align (fmt_chunk w) ->
  0 <= offset < nsamples w ->
  (offset + 1) * block_align (fmt_chunk w)
  <= chunk_size (data_base (data_chunk w)).
Proof.
  intros Hb Ho. rewrite nsamples_div in Ho.
  set (size := chunk_size (data_base (data_chunk w))) in *.
  set (align := block_align (fmt_chunk w)) in *.
  assert (offset + 1 <= size / align) by lia.
  pose proof (Z.mul_div_le size align Hb).
  nia.
Qed.

Lemma double_to_ull_range (x : float) : 0 <= double_to_ull x < 2 ^ 64.
Proof.
  unfold double_to_ull. destruct (trunc_double x); [|lia].
  apply Z.mod_pos_bound. lia.
Qed.

(** Up to three bytes, decoding the bytes of an encoded level gives the
    level back. *)
Lemma GetValue_of_encoded (mem : list Z) (things sizeof_thing : Z)
  (thing_is_signed : bool) (value : float) :
  1 <= sizeof_thing <= 3 ->
  double_to_ull
    ((value + 1) / 2 * ull_to_double (max_thing_value sizeof_thing))%float
  <= max_thing_value sizeof_thing ->
  slice mem things (Z.to_nat sizeof_thing)
  = le_bytes (encode_thing value sizeof_thing thing_is_signed) 0
      (Z.to_nat sizeof_thing) ->
  read_unsigned mem things sizeof_thing
  = encode_thing value sizeof_thing thing_is_signed
  /\ GetValue mem things sizeof_thing thing_is_signed
     = double_to_ull
         ((value + 1) / 2
          * ull_to_double (max_thing_value sizeof_thing))%float.
Proof.
  intros Hw Hmax Hs.
  unfold GetValue. rewrite GetValue_loop_read_unsigned by lia.
  unfold read_unsigned. rewrite Hs, le_value_le_bytes by lia.
  unfold encode_thing.
  set (level := double_to_ull _) in *.
  pose proof (double_to_ull_range
                ((value + 1) / 2
                 * ull_to_double (max_thing_value sizeof_thing))%float) as Hl.
  fold level in Hl.
  rewrite max_thing_value_small in Hmax by lia.
  rewrite max_signed_value_small by lia.
  change (2 ^ (8 * 0)) with 1. rewrite !Z.div_1_r.
  unfold to_ull.
  destruct (width_cases sizeof_thing Hw) as [E|[E|E]]; subst sizeof_thing;
    match goal with
    | |- context [2 ^ (8 * Z.of_nat (Z.to_nat ?k))] =>
        let a := eval vm_compute in (2 ^ (8 * Z.of_nat (Z.to_nat k))) in
        let b := eval vm_compute in (2 ^ (8 * k - 1) - 1) in
        let c := eval vm_compute in (2 ^ (8 * k) - 1) in
        change (2 ^ (8 * Z.of_nat (Z.to_nat k))) with a;
        change (2 ^ (8 * k - 1) - 1) with b;
        change (2 ^ (8 * k) - 1) with c in Hmax
    end;
    destruct thing_is_signed;
    repeat first
      [ match goal with
        | |- context [?a mod ?b] => rewrite (Z.mod_small a b) by lia
        end
      | match goal with
        | |- context [?a <? ?b] =>
            let E := fresh "E" in
            destruct (a <? b) eqn:E;
            [apply Z.ltb_lt in E | apply Z.ltb_ge in E]
        end ];
    split; lia.
Qed.

(** C2 (amended).  In a two-channel container with slices of one to three
    bytes, for an in-range offset and a value whose scaled level
    [(value + 1) / 2 * max_thing_value] converts to an integer [level] no
    greater than [max_thing_value], [SetSample] stores the same bytes, the
    encoding of [level], in both channel slices, and [GetSample] then returns
    the average of two equal levels mapped back,
    [((level + level) / 2) / max_thing_value * 2 - 1]: the value quantised to
    the bit depth, not the value itself. *)
Theorem SetSample_GetSample_two_channels (w : Wave) (offset : Z)
  (value : float) :
  let width := bytes_per_sample_slice w in
  let scaled :=
    ((value + 1) / 2 * ull_to_double (max_thing_value width))%float in
  let level := double_to_ull scaled in
  nchannels (fmt_chunk w) = 2 ->
  block_align (fmt_chunk w) = 2 * width ->
  1 <= width <= 3 ->
  0 <= offset < nsamples w ->
  chunk_size (data_base (data_chunk w)) < 2 ^ 32 ->
  chunk_size (data_base (data_chunk w))
  <= Z.of_nat (length (data_ (data_chunk w))) ->
  ull_representable scaled = true ->
  level <= max_thing_value width ->
  let w' := SetSample w offset value in
  let mem' := data_ (data_chunk w') in
  let segment := offset * block_align (fmt_chunk w) in
  slice mem' segment (Z.to_nat width)
  = slice mem' (segment + width) (Z.to_nat width)
  /\ read_unsigned mem' segment width
     = encode_thing value width (negb (width =? 1))
  /\ GetSample w' offset = munge (level + level) 2 width.
Proof.
  cbv zeta. intros Hn Hb Hw Ho Hs Hl _ Hmax.
  set (width := bytes_per_sample_slice w) in *.
  set (signed := negb (width =? 1)).
  assert (Hin : (offset + 1) * block_align (fmt_chunk w)
                <= chunk_size (data_base (data_chunk w)))
    by (apply sample_in_chunk; lia).
  assert (Hseg : to_uint32 (offset * bytes_per_sample w)
                 = offset * block_align (fmt_chunk w)).
  { unfold bytes_per_sample. apply to_uint32_small. nia. }
  assert (Hlt : (nsamples w <=? offset) = false) by (apply Z.leb_gt; lia).
  set (put := PutChannelAvg value (data_ (data_chunk w))
                (offset * block_align (fmt_chunk w)) 2 width signed).
  assert (Hw' : SetSample w offset value
                = with_data w
                    (mk_DataChunk (data_base (data_chunk w)) put
                       (data_length_ (data_chunk w)))).
  { unfold SetSample. rewrite Hlt, Hseg, Hn. fold width.
    unfold put, signed. destruct (width =? 1); reflexivity. }
  rewrite Hw'. cbn [with_data data_chunk data_].
  destruct (PutChannelAvg_two_channels
              (encode_thing value width signed)
              (offset * block_align (fmt_chunk w)) width
              (data_ (data_chunk w))) as (_ & S0 & S1); try nia.
  change (PutChannelAvg_outer (encode_thing value width signed)
            (offset * block_align (fmt_chunk w)) width 2 0
            (data_ (data_chunk w))) with put in S0, S1.
  destruct (GetValue_of_encoded put (offset * block_align (fmt_chunk w))
              width signed value Hw Hmax S0) as (R0 & G0).
  destruct (GetValue_of_encoded put
              (offset * block_align (fmt_chunk w) + width)
              width signed value Hw Hmax S1) as (_ & G1).
  split; [rewrite S0, S1; reflexivity|]. split; [exact R0|].
  unfold GetSample.
  replace (nsamples (with_data w _)) with (nsamples w) by reflexivity.
  rewrite Hlt.
  change (bytes_per_sample (with_data w _)) with (bytes_per_sample w).
  change (bytes_per_sample_slice (with_data w _)) with width.
  cbn [with_data data_chunk data_ fmt_chunk]. rewrite Hseg, Hn.
  assert (Htake : TakeChannelAvg put (offset * block_align (fmt_chunk w))
                    2 width signed
                  = munge (double_to_ull
                             ((value + 1) / 2
                              * ull_to_double (max_thing_value width))%float
                           + double_to_ull
                               ((value + 1) / 2
                                * ull_to_double
                                    (max_thing_value width))%float)
                      2 width).
  { unfold TakeChannelAvg. f_equal.
    change (Z.to_nat 2) with 2%nat. cbn [TakeChannelAvg_loop].
    rewrite (to_uint32_small (0 * width)) by lia.
    rewrite (to_uint32_small ((0 + 1) * width)) by lia.
    replace (offset * block_align (fmt_chunk w) + 0 * width)
      with (offset * block_align (fmt_chunk w)) by lia.
    replace (offset * block_align (fmt_chunk w) + (0 + 1) * width)
      with (offset * block_align (fmt_chunk w) + width) by lia.
    rewrite G0, G1.
    pose proof (double_to_ull_range
                  ((value + 1) / 2
                   * ull_to_double (max_thing_value width))%float).
    assert (Hm : max_thing_value width < 2 ^ 24).
    { rewrite max_thing_value_small by lia.
      assert (2 ^ (8 * width) <= 2 ^ 24) by (apply Z.pow_le_mono_r; lia).
      lia. }
    set (level := double_to_ull _) in *.
    rewrite (to_ull_small (0 + level)) by lia.
    apply to_ull_small. lia. }
  unfold signed in Htake. destruct (width =? 1); cbn [negb] in Htake;
    exact Htake.
Qed.


(** *** Agreement with the decoding rule of the specification *)

Lemma read_unsigned_range (mem : list Z) (things width : Z) :
  0 <= width ->
  0 <= read_unsigned mem things width < 2 ^ (8 * width).
Proof.
  intros H. unfold read_unsigned.
  pose proof (le_value_range mem things (Z.to_nat width)) as R.
  rewrite Z2Nat.id in R by exact H. exact R.
Qed.

(** For slices of one to three bytes [GetValue] is the rule above. *)
Lemma GetValue_spec_decode (mem : list Z) (things width : Z) (signed : bool) :
  1 <= width <= 3 ->
  GetValue mem things width signed = spec_decode mem things width signed
  /\ 0 <= spec_decode mem things width signed < 2 ^ 24.
Proof.
  intros Hw. unfold GetValue, spec_decode, spec_max_signed.
  rewrite GetValue_loop_read_unsigned by lia.
  rewrite max_signed_value_small by lia.
  pose proof (read_unsigned_range mem things width ltac:(lia)) as R.
  set (raw := read_unsigned mem things width) in *.
  unfold to_ull.
  destruct (width_cases width Hw) as [E|[E|E]]; rewrite E in *;
    match goal with
    | |- context [2 ^ (8 * ?k - 1) - 1] =>
        let b := eval vm_compute in (2 ^ (8 * k - 1) - 1) in
        let c := eval vm_compute in (2 ^ (8 * k)) in
        change (2 ^ (8 * k - 1) - 1) with b;
        change (2 ^ (8 * k)) with c in R
    end;
    destruct signed;
    repeat first
      [ match goal with
        | |- context [?a mod ?b] => rewrite (Z.mod_small a b) by lia
        end
      | match goal with
        | |- context [?a <? ?b] =>
            let E := fresh "E" in
            destruct (a <? b) eqn:E;
            [apply Z.ltb_lt in E | apply Z.ltb_ge in E]
        end ];
    split; lia.
Qed.

Lemma TakeChannelAvg_loop_spec (mem : list Z) (things width : Z)
  (signed : bool) (n : nat) (i total : Z) :
  1 <= width <= 3 -> 0 <= i -> i + Z.of_nat n <= 2 ^ 16 ->
  0 <= total <= i * 2 ^ 24 ->
  TakeChannelAvg_loop mem things width signed n i total
  = total + spec_total mem things width signed n i
  /\ 0 <= total + spec_total mem things width signed n i
     <= (i + Z.of_nat n) * 2 ^ 24.
Proof.
  intros Hw. revert i total.
  induction n as [|n IH]; intros i total Hi Hn Ht;
    cbn [TakeChannelAvg_loop spec_total].
  - split; lia.
  - rewrite to_uint32_small by nia.
    destruct (GetValue_spec_decode mem (things + i * width) width signed Hw)
      as (G & R).
    rewrite G.
    set (d := spec_decode mem (things + i * width) width signed) in *.
    rewrite to_ull_small by lia.
    destruct (IH (i + 1) (total + d)) as (E & B); lia.
Qed.

(** For slices of one to three bytes [GetSample] is the sample the
    specification describes. *)
Lemma GetSample_spec_small_widths (w : Wave) (offset : Z) :
  1 <= bytes_per_sample_slice w <= 3 ->
  0 <= nchannels (fmt_chunk w) < 2 ^ 16 ->
  0 <= block_align (fmt_chunk w) ->
  0 <= offset ->
  chunk_size (data_base (data_chunk w)) < 2 ^ 32 ->
  GetSample w offset = spec_GetSample w offset.
Proof.
  intros Hw Hn Hb Ho Hs. unfold GetSample, spec_GetSample.
  destruct (nsamples w <=? offset) eqn:E; [reflexivity|].
  apply Z.leb_gt in E.
  assert (Hpos : 0 < block_align (fmt_chunk w)).
  { destruct (Z.eq_dec (block_align (fmt_chunk w)) 0) as [Z0|]; [|lia].
    rewrite nsamples_div, Z0, Z.div_0_r in E. lia. }
  pose proof (sample_in_chunk w offset Hpos ltac:(lia)) as Hin.
  unfold bytes_per_sample. rewrite to_uint32_small by nia.
  set (width := bytes_per_sample_slice w) in *.
  assert (Hflag : (if width =? 1 then false else true) = (1 <? width)).
  { destruct (width =? 1) eqn:E1; symmetry.
    - apply Z.eqb_eq in E1. apply Z.ltb_ge. lia.
    - apply Z.eqb_neq in E1. apply Z.ltb_lt. lia. }
  assert (Hgo : forall signed,
             TakeChannelAvg (data_ (data_chunk w))
               (offset * block_align (fmt_chunk w))
               (nchannels (fmt_chunk w)) width signed
             = (ull_to_double
                  (spec_total (data_ (data_chunk w))
                     (offset * block_align (fmt_chunk w)) width signed
                     (Z.to_nat (nchannels (fmt_chunk w))) 0)
                / ull_to_double (nchannels (fmt_chunk w))
                / ull_to_double (spec_max_unsigned width) * 2 - 1)%float).
  { intros signed. unfold TakeChannelAvg, munge.
    destruct (TakeChannelAvg_loop_spec (data_ (data_chunk w))
                (offset * block_align (fmt_chunk w)) width signed
                (Z.to_nat (nchannels (fmt_chunk w))) 0 0 Hw) as (T & _);
      try lia.
    rewrite T, Z.add_0_l.
    unfold spec_max_unsigned. rewrite max_thing_value_small by lia.
    reflexivity. }
  rewrite <- Hflag. destruct (width =? 1); apply Hgo.
Qed.

(** ** Little-endian reading and writing *)

Lemma lor_mod_pow2 (a b n : Z) :
  0 <= n -> Z.lor a b mod 2 ^ n = Z.lor (a mod 2 ^ n) (b mod 2 ^ n).
Proof.
  intros H. rewrite <- !Z.land_ones by exact H. apply Z.land_lor_distr_l.
Qed.

Lemma to_int_mod (z : Z) : to_int z mod 2 ^ 32 = z mod 2 ^ 32.
Proof.
  unfold to_int.
  pose proof (Z.div_mod (z + 2 ^ 31) (2 ^ 32) ltac:(lia)) as H.
  set (q := (z + 2 ^ 31) / 2 ^ 32) in *.
  set (r := (z + 2 ^ 31) mod 2 ^ 32) in *.
  replace (r - 2 ^ 31) with (z + (- q) * 2 ^ 32) by lia.
  apply Z.mod_add. lia.
Qed.

Lemma istream_read_cons (b : Z) (l : list Z) :
  istream_read (mk_istream (b :: l) true) 1 = ([b], mk_istream l true).
Proof.
  unfold istream_read. cbn [in_good in_bytes].
  replace (1 <=? Z.of_nat (length (b :: l))) with true
    by (symmetry; apply Z.leb_le; cbn [length]; lia).
  reflexivity.
Qed.

(** One turn of the reading loop on a stream that still has a byte: the
    byte lands at position [8 * i], also when the shift overflows [int]
    (at [i = 3] for a byte of 0x80 or more), because the result is reduced
    to the unsigned type [T]. *)
Lemma ReadLittleEndian_step_cons (size i out b : Z) (l : list Z) :
  0 <= i < size -> size <= 4 -> 0 <= out < 2 ^ (8 * i) ->
  ReadLittleEndian_step size i (out, mk_istream (b :: l) true)
  = (out + to_uchar b * 2 ^ (8 * i), mk_istream l true).
Proof.
  intros Hi Hs Ho. unfold ReadLittleEndian_step.
  rewrite istream_read_cons. f_equal.
  pose proof (to_uchar_range b) as Hb.
  set (B := to_uchar b) in *.
  unfold int_shl. rewrite to_uint32_small by lia.
  rewrite (Z.mod_small (8 * i) 32) by lia.
  rewrite Z.shiftl_mul_pow2 by lia.
  assert (P1 : 0 < 2 ^ (8 * i)) by (apply Z.pow_pos_nonneg; lia).
  assert (P2 : 2 ^ (8 * (i + 1)) <= 2 ^ (8 * size))
    by (apply Z.pow_le_mono_r; lia).
  assert (P3 : 2 ^ (8 * size) <= 2 ^ 32) by (apply Z.pow_le_mono_r; lia).
  assert (P4 : 2 ^ (8 * (i + 1)) = 256 * 2 ^ (8 * i)).
  { replace (8 * (i + 1)) with (8 + 8 * i) by lia.
    rewrite Z.pow_add_r by lia. reflexivity. }
  assert (Hy : 0 <= B * 2 ^ (8 * i) < 2 ^ (8 * (i + 1))) by nia.
  unfold to_uintT.
  assert (D : (2 ^ (8 * size) | 2 ^ 32)).
  { exists (2 ^ (32 - 8 * size)). rewrite <- Z.pow_add_r by lia.
    f_equal. lia. }
  rewrite <- (Z.mod_mod_divide _ (2 ^ 32) (2 ^ (8 * size))) by exact D.
  rewrite lor_mod_pow2 by lia.
  rewrite to_int_mod.
  rewrite (Z.mod_small out) by lia.
  rewrite (Z.mod_small (B * 2 ^ (8 * i))) by lia.
  rewrite lor_shifted by lia.
  apply Z.mod_small. nia.
Qed.

Lemma ReadLittleEndian_loop_bytes (size : Z) (bs rest : list Z) (i out : Z) :
  0 <= i -> i + Z.of_nat (length bs) <= size -> size <= 4 ->
  0 <= out < 2 ^ (8 * i) ->
  ReadLittleEndian_loop size (length bs) i (out, mk_istream (bs ++ rest) true)
  = (out + 2 ^ (8 * i) * le_value (map to_uchar bs), mk_istream rest true).
Proof.
  revert i out. induction bs as [|b bs IH]; intros i out Hi Hn Hs Ho;
    cbn [length ReadLittleEndian_loop map le_value app].
  - f_equal. lia.
  - cbn [length] in Hn.
    rewrite ReadLittleEndian_step_cons by lia.
    pose proof (to_uchar_range b) as Hb.
    assert (P1 : 0 < 2 ^ (8 * i)) by (apply Z.pow_pos_nonneg; lia).
    assert (P4 : 2 ^ (8 * (i + 1)) = 256 * 2 ^ (8 * i)).
    { replace (8 * (i + 1)) with (8 + 8 * i) by lia.
      rewrite Z.pow_add_r by lia. reflexivity. }
    rewrite IH by (try lia; nia).
    f_equal. rewrite P4. ring.
Qed.

Lemma WriteLittleEndian_loop_cons (n : nat) (i out : Z) :
  0 <= i ->
  WriteLittleEndian_loop (S n) i out []
  = (out / 2 ^ (8 * i)) mod 256 :: WriteLittleEndian_loop n (i + 1) out [].
Proof.
  intros Hi. cbn [WriteLittleEndian_loop]. rewrite WriteLittleEndian_loop_app.
  unfold ostream_write. cbn [app firstn Z.to_nat Pos.to_nat Pos.iter_op].
  change (Z.to_nat 1) with 1%nat. cbn [firstn app].
  f_equal. change 255 with (Z.ones 8).
  rewrite Z.land_ones by lia. rewrite Z.shiftr_div_pow2 by lia. reflexivity.
Qed.

(** The bytes written are bytes, and their little-endian value is the value
    written, reduced to the bytes that are left to write. *)
Lemma WriteLittleEndian_loop_value (n : nat) (i out : Z) :
  0 <= i ->
  Forall (fun b => 0 <= b < 256) (WriteLittleEndian_loop n i out [])
  /\ le_value (WriteLittleEndian_loop n i out [])
     = (out / 2 ^ (8 * i)) mod 2 ^ (8 * Z.of_nat n).
Proof.
  revert i. induction n as [|n IH]; intros i Hi.
  - cbn [WriteLittleEndian_loop le_value]. split; [constructor|].
    cbn. symmetry. apply Z.mod_1_r.
  - rewrite WriteLittleEndian_loop_cons by exact Hi.
    destruct (IH (i + 1) ltac:(lia)) as (F & V).
    split.
    + constructor; [apply Z.mod_pos_bound; lia | exact F].
    + cbn [le_value]. rewrite V.
      replace (8 * Z.of_nat (S n)) with (8 + 8 * Z.of_nat n) by lia.
      rewrite (Z.pow_add_r 2 8) by lia. change (2 ^ 8) with 256.
      rewrite Z.rem_mul_r by (try apply Z.pow_pos_nonneg; lia).
      replace (8 * (i + 1)) with (8 * i + 8) by lia.
      rewrite Z.pow_add_r by lia. change (2 ^ 8) with 256.
      rewrite Z.div_div by (try apply Z.pow_pos_nonneg; lia).
      reflexivity.
Qed.

Lemma map_to_uchar_bytes (bs : list Z) :
  Forall (fun b => 0 <= b < 256) bs -> map to_uchar bs = bs.
Proof.
  induction 1 as [|b bs Hb _ IH]; cbn [map]; [reflexivity|].
  rewrite IH. f_equal. unfold to_uchar. apply Z.mod_small.
  change (2 ^ 8) with 256. exact Hb.
Qed.

(** Reading back what [WriteLittleEndian] wrote, for the types the program
    uses (up to four bytes): the value reduced to the type, and the stream
    positioned after it. *)
Lemma ReadLittleEndian_written (size out : Z) (rest : list Z) :
  1 <= size <= 4 ->
  ReadLittleEndian size
    (mk_istream (WriteLittleEndian size out [] ++ rest) true)
  = (out mod 2 ^ (8 * size), mk_istream rest true).
Proof.
  intros Hs. unfold ReadLittleEndian.
  rewrite <- (WriteLittleEndian_length size out) at 1.
  destruct (WriteLittleEndian_loop_value (Z.to_nat size) 0 out ltac:(lia))
    as (F & V).
  fold (WriteLittleEndian size out []) in F, V.
  rewrite ReadLittleEndian_loop_bytes.
  2: lia.
  2: rewrite WriteLittleEndian_length; lia.
  2: lia.
  2: cbn; lia.
  rewrite map_to_uchar_bytes by exact F.
  rewrite V. f_equal.
  change (2 ^ (8 * 0)) with 1. rewrite Z.div_1_r, Z2Nat.id by lia. lia.
Qed.

(** ** The size field of a DataChunk *)



(** X1.  Round trip of the byte-order helpers, for the two- and four-byte
    types the program uses (and any width up to four): whatever was written
    before, reading the bytes that [WriteLittleEndian] appends gives the
    value back, leaves the stream good and positioned on what follows.  There
    is no range check on writing: a value too large for the type comes back
    reduced modulo 2^(8 * sizeof(T)). *)
Theorem ReadLittleEndian_WriteLittleEndian (size out : Z)
  (before rest : list Z) :
  1 <= size <= 4 ->
  let written := skipn (length before) (WriteLittleEndian size out before) in
  length written = Z.to_nat size
  /\ ReadLittleEndian size (mk_istream (written ++ rest) true)
     = (out mod 2 ^ (8 * size), mk_istream rest true)
  /\ (0 <= out < 2 ^ (8 * size) ->
      ReadLittleEndian size (mk_istream (written ++ rest) true)
      = (out, mk_istream rest true)).
Proof.
  intros Hs. cbv zeta.
  rewrite WriteLittleEndian_app.
  rewrite skipn_app, Nat.sub_diag, skipn_all. cbn [skipn app].
  split; [apply WriteLittleEndian_length|].
  split; [apply ReadLittleEndian_written; exact Hs|].
  intros Hr. rewrite ReadLittleEndian_written by exact Hs.
  rewrite Z.mod_small by exact Hr. reflexivity.
Qed.

(** X2.  [ReadLittleEndian] leaves the stream good exactly when the stream
    was good and still held [sizeof(T)] bytes; it then consumed exactly those
    bytes.  Otherwise the stream is not good afterwards, and in no case does
    it hold more bytes than before. *)
Theorem ReadLittleEndian_stream (size : Z) (s : istream) :
  0 <= size ->
  in_good (snd (ReadLittleEndian size s))
  = in_good s && (size <=? Z.of_nat (length (in_bytes s)))
  /\ (in_good (snd (ReadLittleEndian size s)) = true ->
      in_bytes (snd (ReadLittleEndian size s))
      = skipn (Z.to_nat size) (in_bytes s))
  /\ (length (in_bytes (snd (ReadLittleEndian size s)))
      <= length (in_bytes s))%nat.
Proof.
  intros Hs.
  assert (G : forall n i out s',
             in_good s' = true -> (n <= length (in_bytes s'))%nat ->
             in_good (snd (ReadLittleEndian_loop size n i (out, s'))) = true).
  { induction n as [|n IH]; intros i out s' Hg Hl;
      cbn [ReadLittleEndian_loop]; [exact Hg|].
    unfold ReadLittleEndian_step.
    destruct s' as [bytes good]. cbn [in_good in_bytes] in *. subst good.
    destruct bytes as [|b bytes]; [cbn in Hl; lia|].
    rewrite istream_read_cons. apply IH; [reflexivity|].
    cbn [in_bytes length] in *. lia. }
  split; [|split].
  - destruct (in_good (snd (ReadLittleEndian size s))) eqn:E.
    + apply ReadLittleEndian_good in E. destruct E as (E1 & E2 & _).
      rewrite E1. symmetry. apply Z.leb_le. lia.
    + symmetry. apply andb_false_iff.
      destruct (in_good s) eqn:Gs; [right | left; reflexivity].
      apply Z.leb_gt.
      destruct (Z.lt_ge_cases (Z.of_nat (length (in_bytes s))) size)
        as [L|L]; [exact L|].
      unfold ReadLittleEndian in E.
      rewrite G in E; [discriminate | exact Gs | lia].
  - intros E. apply ReadLittleEndian_good in E. apply E.
  - apply ReadLittleEndian_length.
Qed.

(** ** Writing a chunk and reading it back *)

Lemma ReadLittleEndian_written_exact (size out : Z) (rest : list Z) :
  1 <= size <= 4 -> 0 <= out < 2 ^ (8 * size) ->
  ReadLittleEndian size
    (mk_istream (WriteLittleEndian size out [] ++ rest) true)
  = (out, mk_istream rest true).
Proof.
  intros Hs Ho. rewrite ReadLittleEndian_written by exact Hs.
  rewrite Z.mod_small by exact Ho. reflexivity.
Qed.

Lemma Chunk_WriteTo_bytes (c : Chunk) :
  Chunk_WriteTo c []
  = WriteLittleEndian 4 (chunk_type c) []
    ++ WriteLittleEndian 4 (chunk_size c) [].
Proof. unfold Chunk_WriteTo. apply WriteLittleEndian_app. Qed.

Lemma RiffChunk_WriteTo_bytes (r : RiffChunk) :
  RiffChunk_WriteTo r []
  = WriteLittleEndian 4 (chunk_type (riff_base r)) []
    ++ WriteLittleEndian 4 (chunk_size (riff_base r)) []
    ++ WriteLittleEndian 4 (riff_type r) [].
Proof.
  unfold RiffChunk_WriteTo.
  rewrite WriteLittleEndian_app, Chunk_WriteTo_bytes, <- app_assoc.
  reflexivity.
Qed.

Lemma FmtChunk_WriteTo_bytes (f : FmtChunk) :
  FmtChunk_WriteTo f []
  = WriteLittleEndian 4 (chunk_type (fmt_base f)) []
    ++ WriteLittleEndian 4 (chunk_size (fmt_base f)) []
    ++ WriteLittleEndian 2 (compression f) []
    ++ WriteLittleEndian 2 (nchannels f) []
    ++ WriteLittleEndian 4 (sample_rate f) []
    ++ WriteLittleEndian 4 (bytes_per_sec f) []
    ++ WriteLittleEndian 2 (block_align f) []
    ++ WriteLittleEndian 2 (bits_per_sample f) [].
Proof.
  unfold FmtChunk_WriteTo.
  rewrite (WriteLittleEndian_app 2 (bits_per_sample f)).
  rewrite (WriteLittleEndian_app 2 (block_align f)).
  rewrite (WriteLittleEndian_app 4 (bytes_per_sec f)).
  rewrite (WriteLittleEndian_app 4 (sample_rate f)).
  rewrite (WriteLittleEndian_app 2 (nchannels f)).
  rewrite (WriteLittleEndian_app 2 (compression f)).
  rewrite Chunk_WriteTo_bytes, <- !app_assoc. reflexivity.
Qed.

Lemma DataChunk_WriteTo_owned (d : DataChunk) :
  owns_its_length d ->
  DataChunk_WriteTo d []
  = WriteLittleEndian 4 (chunk_type (data_base d)) []
    ++ WriteLittleEndian 4 (chunk_size (data_base d)) []
    ++ data_ d.
Proof.
  intros H. destruct (WriteTo_whole_array d H) as (E & _).
  rewrite E, Chunk_WriteTo_bytes, <- app_assoc. reflexivity.
Qed.

(** The body of a Format chunk (what follows its four-byte type) read
    back. *)
Lemma FmtChunk_ReadFrom_written (f f0 : FmtChunk) (rest : list Z) :
  FmtChunk_inv f ->
  FmtChunk_ReadFrom
    (mk_istream
       (WriteLittleEndian 4 (chunk_size (fmt_base f)) []
        ++ WriteLittleEndian 2 (compression f) []
        ++ WriteLittleEndian 2 (nchannels f) []
        ++ WriteLittleEndian 4 (sample_rate f) []
        ++ WriteLittleEndian 4 (bytes_per_sec f) []
        ++ WriteLittleEndian 2 (block_align f) []
        ++ WriteLittleEndian 2 (bits_per_sample f) [] ++ rest) true) f0
  = (mk_FmtChunk
       (mk_Chunk (chunk_type (fmt_base f0)) (chunk_size (fmt_base f)))
       (compression f) (nchannels f) (sample_rate f) (bytes_per_sec f)
       (block_align f) (bits_per_sample f),
     mk_istream rest true,
     if negb (compression f =? COMPRESSION_NONE) then [compressed_warning]
     else []).
Proof.
  intros ((_ & Hsz) & Hc & Hn & Hsr & Hbps & Hba & Hbits).
  unfold is_uint16, is_uint32 in *.
  unfold FmtChunk_ReadFrom, Chunk_ReadFrom.
  repeat (rewrite ReadLittleEndian_written_exact by (try exact I; lia)).
  reflexivity.
Qed.

(** The body of a [DataChunk] read back: after the size field the reader
    takes the whole array, pad byte included. *)
Lemma DataChunk_ReadFrom_written (d d0 : DataChunk) (rest : list Z) :
  DataChunk_inv d ->
  DataChunk_ReadFrom
    (mk_istream
       (WriteLittleEndian 4 (chunk_size (data_base d)) [] ++ data_ d ++ rest)
       true) d0
  = (mk_DataChunk
       (mk_Chunk (chunk_type (data_base d0)) (chunk_size (data_base d)))
       (data_ d) (data_length_ d),
     mk_istream rest true).
Proof.
  intros ((_ & Hsz) & Hlen & Hown). unfold is_uint32, owns_its_length in *.
  rewrite DataChunk_ReadFrom_unfold.
  rewrite ReadLittleEndian_written_exact by lia. cbn [fst snd].
  set (a := DataChunk_ReAllocData (chunk_size (data_base d)) d0).
  pose proof (ReAllocData_length (chunk_size (data_base d)) d0) as Ha.
  fold a in Ha. unfold owns_its_length in Ha.
  assert (Hal : data_length_ a = data_length_ d)
    by (rewrite Hlen; reflexivity).
  unfold istream_read. cbn [in_good in_bytes].
  replace (data_length_ a <=? Z.of_nat (length (data_ d ++ rest))) with true
    by (symmetry; apply Z.leb_le; rewrite length_app; lia).
  cbn [fst snd].
  replace (Z.to_nat (data_length_ a)) with (length (data_ d)) by lia.
  rewrite firstn_app, Nat.sub_diag, firstn_all, firstn_O, app_nil_r.
  rewrite skipn_app, Nat.sub_diag, skipn_all, skipn_O, app_nil_l.
  rewrite skipn_all2 by lia. rewrite app_nil_r, Hal.
  reflexivity.
Qed.

(** A stream that is good and long enough gives [ReadLittleEndian] all its
    bytes. *)
Lemma ReadLittleEndian_enough (size : Z) (s : istream) :
  in_good s = true -> (Z.to_nat size <= length (in_bytes s))%nat ->
  snd (ReadLittleEndian size s)
  = mk_istream (skipn (Z.to_nat size) (in_bytes s)) true.
Proof.
  unfold ReadLittleEndian. generalize (Z.to_nat size) as n.
  generalize 0 at 2 as out. generalize 0 as i.
  intros i out n. revert i out s.
  induction n as [|n IH]; intros i out s Hg Hl; cbn [ReadLittleEndian_loop].
  - destruct s as [bytes good]. cbn in *. subst good. reflexivity.
  - unfold ReadLittleEndian_step.
    destruct s as [bytes good]. cbn [in_good in_bytes] in *. subst good.
    destruct bytes as [|b bytes]; [cbn in Hl; lia|].
    rewrite istream_read_cons.
    rewrite IH; [reflexivity | reflexivity |].
    cbn [in_bytes length] in *. lia.
Qed.

(** X3.  A Format chunk whose fields are values of their types reads back
    from the 24 bytes [FmtChunk::WriteTo] writes: the loader's four-byte type
    read gives the chunk type, and [FmtChunk::ReadFrom] then restores the
    declared size and the six fields, leaves the stream on what follows, and
    warns exactly when the compression code is not 1. *)
Theorem FmtChunk_write_read (f f0 : FmtChunk) (rest : list Z) :
  FmtChunk_inv f ->
  chunk_type (fmt_base f0) = chunk_type (fmt_base f) ->
  let s := mk_istream (FmtChunk_WriteTo f [] ++ rest) true in
  length (FmtChunk_WriteTo f []) = 24%nat
  /\ fst (ReadLittleEndian 4 s) = chunk_type (fmt_base f)
  /\ FmtChunk_ReadFrom (snd (ReadLittleEndian 4 s)) f0
     = (f, mk_istream rest true,
        if compression f =? 1 then [] else [compressed_warning]).
Proof.
  intros Hf Ht. cbv zeta.
  pose proof Hf as ((Hty & _) & _). unfold is_uint32 in Hty.
  rewrite FmtChunk_WriteTo_bytes. split.
  - rewrite !length_app, !WriteLittleEndian_length. reflexivity.
  - rewrite <- !app_assoc.
    rewrite ReadLittleEndian_written_exact by lia. cbn [fst snd].
    split; [reflexivity|].
    rewrite FmtChunk_ReadFrom_written by exact Hf.
    rewrite Ht. unfold COMPRESSION_NONE.
    destruct f as [[ty sz] c n sr bps ba bits]. cbn.
    destruct (c =? 1); reflexivity.
Qed.

Lemma FmtChunk_ReadFrom_reads (s : istream) (f : FmtChunk) :
  snd (fst (FmtChunk_ReadFrom s f))
  = snd (ReadLittleEndian 2 (snd (ReadLittleEndian 2
      (snd (ReadLittleEndian 4 (snd (ReadLittleEndian 4
        (snd (ReadLittleEndian 2 (snd (ReadLittleEndian 2
          (snd (ReadLittleEndian 4 s)))))))))))))
  /\ chunk_size (fmt_base (fst (fst (FmtChunk_ReadFrom s f))))
     = fst (ReadLittleEndian 4 s).
Proof.
  unfold FmtChunk_ReadFrom, Chunk_ReadFrom.
  repeat match goal with
         | |- context [ReadLittleEndian ?n ?s] =>
             destruct (ReadLittleEndian n s) as [? ?]; cbn [fst snd]
         end.
  split; reflexivity.
Qed.

Lemma ReadLittleEndian_skipped (size : Z) (k : nat) (bytes : list Z) :
  (k + Z.to_nat size <= length bytes)%nat ->
  snd (ReadLittleEndian size (mk_istream (skipn k bytes) true))
  = mk_istream (skipn (k + Z.to_nat size) bytes) true.
Proof.
  intros H. rewrite ReadLittleEndian_enough.
  - cbn [in_bytes]. rewrite skipn_skipn. f_equal. f_equal. lia.
  - reflexivity.
  - cbn [in_bytes]. rewrite length_skipn. lia.
Qed.

(** X4.  [FmtChunk::ReadFrom] takes exactly twenty bytes from a stream that
    has them (the size field and sixteen bytes of fields), whatever size the
    chunk declares: the declared size is stored and otherwise ignored, so the
    payload of a Format chunk that declares more than 16 bytes is left in the
    stream, where the loader takes it for the next chunk header. *)
Theorem FmtChunk_ReadFrom_takes_20_bytes (s : istream) (f : FmtChunk) :
  in_good s = true -> (20 <= length (in_bytes s))%nat ->
  snd (fst (FmtChunk_ReadFrom s f)) = mk_istream (skipn 20 (in_bytes s)) true
  /\ chunk_size (fmt_base (fst (fst (FmtChunk_ReadFrom s f))))
     = fst (ReadLittleEndian 4 s).
Proof.
  intros Hg Hl. destruct (FmtChunk_ReadFrom_reads s f) as (E & Z0).
  split; [|exact Z0]. rewrite E.
  destruct s as [bytes good]. cbn [in_good in_bytes] in *. subst good.
  change bytes with (skipn 0 bytes) at 1.
  rewrite !ReadLittleEndian_skipped by (cbn; lia).
  reflexivity.
Qed.

Lemma DataChunk_eta (d : DataChunk) :
  mk_DataChunk (mk_Chunk (chunk_type (data_base d)) (chunk_size (data_base d)))
    (data_ d) (data_length_ d) = d.
Proof. destruct d as [[ty sz] mem len]. reflexivity. Qed.

(** X5.  A [DataChunk] in the state [ReAllocData] or [ReadFrom] leaves it in
    is preserved byte for byte by the path the loader takes for a chunk it
    does not recognise: from the bytes [WriteTo] writes (header, payload and
    pad byte), the type read, [ReadFrom] into a chunk of that type and the
    copy [push_back] stores give the same chunk back, with the stream on what
    follows. *)
Theorem DataChunk_write_read (d : DataChunk) (rest : list Z) :
  DataChunk_inv d ->
  let s := mk_istream (DataChunk_WriteTo d [] ++ rest) true in
  let type := fst (ReadLittleEndian 4 s) in
  let read :=
    DataChunk_ReadFrom (snd (ReadLittleEndian 4 s)) (DataChunk_of_type type) in
  Z.of_nat (length (DataChunk_WriteTo d [])) = 8 + data_length_ d
  /\ type = chunk_type (data_base d)
  /\ read = (d, mk_istream rest true)
  /\ push_back [] (fst read) = [d].
Proof.
  intros Hd. cbv zeta.
  pose proof Hd as ((Hty & Hsz) & Hlen & Hown). unfold is_uint32 in *.
  destruct (WriteTo_whole_array d Hown) as (_ & L).
  split; [exact L|].
  rewrite DataChunk_WriteTo_owned by exact Hown.
  rewrite <- !app_assoc.
  rewrite ReadLittleEndian_written_exact by lia. cbn [fst snd].
  split; [reflexivity|].
  rewrite DataChunk_ReadFrom_written by exact Hd.
  cbn [DataChunk_of_type Chunk_new data_base chunk_type fst].
  rewrite DataChunk_eta.
  split; [reflexivity|].
  unfold push_back. cbn [app].
  rewrite DataChunk_copy_id; [reflexivity | exact Hown | exact Hlen].
Qed.

(** ** Saving and loading back *)

(** Fuel beyond what the loop needs changes nothing. *)
Lemma Load_loop_more_fuel (fuel fuel' : nat) (load_data : bool)
  (file : istream) (w : Wave) (cerr : list string) (r : Wave * list string) :
  Load_loop fuel load_data file w cerr = Some r -> (fuel <= fuel')%nat ->
  Load_loop fuel' load_data file w cerr = Some r.
Proof.
  revert fuel' file w cerr.
  induction fuel as [|fuel IH]; intros fuel' file w cerr H L;
    [discriminate|].
  destruct fuel' as [|fuel']; [lia|].
  cbn [Load_loop] in H |- *.
  destruct (in_good file); [|exact H].
  destruct (ReadLittleEndian 4 file) as [type file1].
  destruct (negb (in_good file1)); [exact H|].
  destruct (type =? CHUNK_TYPE_FMT).
  { destruct (FmtChunk_ReadFrom file1 (fmt_chunk w)) as [[f file2] msgs].
    apply IH; [exact H | lia]. }
  destruct (type =? CHUNK_TYPE_DATA).
  { destruct (if load_data then DataChunk_ReadFrom file1 (data_chunk w)
              else DataChunk_Skip file1 (data_chunk w)) as [d file2].
    apply IH; [exact H | lia]. }
  destruct (DataChunk_ReadFrom file1 (DataChunk_of_type type))
    as [chunk file2].
  apply IH; [exact H | lia].
Qed.

(** At the end of the stream the loop stops. *)
Lemma Load_loop_end (fuel : nat) (load_data : bool) (w : Wave)
  (cerr : list string) :
  Load_loop (S fuel) load_data (mk_istream [] true) w cerr = Some (w, cerr).
Proof.
  cbn [Load_loop in_good].
  pose proof (ReadLittleEndian_good 4 (mk_istream [] true)) as R.
  destruct (ReadLittleEndian 4 (mk_istream [] true)) as [type file1].
  cbn [snd] in R. destruct (in_good file1); [|reflexivity].
  destruct (R eq_refl) as (_ & L & _). cbn in L. lia.
Qed.

(** One turn of the loop on the bytes of an extra chunk. *)
Lemma Load_loop_other (fuel : nat) (load_data : bool) (d : DataChunk)
  (rest : list Z) (w : Wave) (cerr : list string) :
  DataChunk_inv d ->
  chunk_type (data_base d) <> CHUNK_TYPE_FMT ->
  chunk_type (data_base d) <> CHUNK_TYPE_DATA ->
  Load_loop (S fuel) load_data
    (mk_istream (DataChunk_WriteTo d [] ++ rest) true) w cerr
  = Load_loop fuel load_data (mk_istream rest true)
      (with_others w (other_chunks w ++ [d])) cerr.
Proof.
  intros Hd Hf Hdt.
  pose proof Hd as ((Hty & Hsz) & Hlen & Hown). unfold is_uint32 in *.
  cbn [Load_loop in_good].
  rewrite DataChunk_WriteTo_owned by exact Hown. rewrite <- !app_assoc.
  rewrite ReadLittleEndian_written_exact by lia. cbn [in_good negb].
  apply Z.eqb_neq in Hf, Hdt. rewrite Hf, Hdt.
  rewrite DataChunk_ReadFrom_written by exact Hd.
  cbn [DataChunk_of_type Chunk_new data_base chunk_type].
  rewrite DataChunk_eta. unfold push_back.
  rewrite DataChunk_copy_id by assumption. reflexivity.
Qed.

Lemma Load_loop_others (fuel : nat) (load_data : bool)
  (others : list DataChunk) (rest : list Z) (w : Wave) (cerr : list string) :
  Forall DataChunk_inv others ->
  Forall (fun c => chunk_type (data_base c) <> CHUNK_TYPE_FMT
                   /\ chunk_type (data_base c) <> CHUNK_TYPE_DATA) others ->
  Load_loop (length others + fuel) load_data
    (mk_istream (write_all others ++ rest) true) w cerr
  = Load_loop fuel load_data (mk_istream rest true)
      (with_others w (other_chunks w ++ others)) cerr.
Proof.
  revert w. induction others as [|d others IH]; intros w Hi Ht.
  - cbn [length write_all flat_map app Nat.add]. rewrite app_nil_r.
    destruct w. reflexivity.
  - inversion Hi as [|? ? Hd Hi']; subst.
    inversion Ht as [|? ? (Hf & Hdt) Ht']; subst.
    cbn [length write_all flat_map Nat.add].
    fold (write_all others). rewrite <- app_assoc.
    rewrite Load_loop_other by assumption.
    rewrite IH by assumption.
    cbn [with_others other_chunks riff_chunk fmt_chunk data_chunk].
    rewrite <- app_assoc. reflexivity.
Qed.

(** One turn of the loop on the bytes of the data chunk. *)
Lemma Load_loop_data (fuel : nat) (d : DataChunk) (rest : list Z) (w : Wave)
  (cerr : list string) :
  DataChunk_inv d ->
  chunk_type (data_base d) = CHUNK_TYPE_DATA ->
  chunk_type (data_base (data_chunk w)) = CHUNK_TYPE_DATA ->
  Load_loop (S fuel) true
    (mk_istream (DataChunk_WriteTo d [] ++ rest) true) w cerr
  = Load_loop fuel true (mk_istream rest true) (with_data w d) cerr.
Proof.
  intros Hd Ht Hw.
  pose proof Hd as ((Hty & Hsz) & Hlen & Hown). unfold is_uint32 in *.
  cbn [Load_loop in_good].
  rewrite DataChunk_WriteTo_owned by exact Hown. rewrite <- !app_assoc.
  rewrite ReadLittleEndian_written_exact by lia. cbn [in_good negb].
  rewrite Ht. change (CHUNK_TYPE_DATA =? CHUNK_TYPE_FMT) with false.
  rewrite Z.eqb_refl.
  rewrite DataChunk_ReadFrom_written by exact Hd.
  rewrite Hw, <- Ht, DataChunk_eta. reflexivity.
Qed.

(** One turn of the loop on the bytes of the Format chunk. *)
Lemma Load_loop_fmt (fuel : nat) (load_data : bool) (f : FmtChunk)
  (rest : list Z) (w : Wave) (cerr : list string) :
  FmtChunk_inv f ->
  chunk_type (fmt_base f) = CHUNK_TYPE_FMT ->
  chunk_type (fmt_base (fmt_chunk w)) = CHUNK_TYPE_FMT ->
  Load_loop (S fuel) load_data
    (mk_istream (FmtChunk_WriteTo f [] ++ rest) true) w cerr
  = Load_loop fuel load_data (mk_istream rest true) (with_fmt w f)
      (cerr ++ if compression f =? 1 then [] else [compressed_warning]).
Proof.
  intros Hf Ht Hw.
  pose proof Hf as ((Hty & _) & _). unfold is_uint32 in *.
  cbn [Load_loop in_good].
  rewrite FmtChunk_WriteTo_bytes. rewrite <- !app_assoc.
  rewrite ReadLittleEndian_written_exact by lia. cbn [in_good negb].
  rewrite Ht, Z.eqb_refl.
  rewrite FmtChunk_ReadFrom_written by exact Hf.
  rewrite Hw, <- Ht. unfold COMPRESSION_NONE.
  replace (mk_FmtChunk
             (mk_Chunk (chunk_type (fmt_base f)) (chunk_size (fmt_base f)))
             (compression f) (nchannels f) (sample_rate f) (bytes_per_sec f)
             (block_align f) (bits_per_sample f)) with f
    by (destruct f as [[ty sz] c n sr bps ba bits]; reflexivity).
  destruct (compression f =? 1); reflexivity.
Qed.

(** What a save does to a container that is in range. *)
Lemma Save_keeps_inv (w : Wave) (filename : string) (opened : bool) :
  Wave_inv w -> Wave_inv (fst (fst (Save w filename opened))).
Proof.
  intros H. unfold Save. destruct opened; cbn [negb fst]; [|exact H].
  destruct H as (Hr & Hrt & Hf & Hd & Ho).
  destruct Hf as (Hfb & Hc & Hn & Hsr & _ & _ & Hbits).
  split; [|split; [exact Hrt|split; [|split; assumption]]].
  - destruct Hr as (Hty & _). split; [exact Hty|].
    change (is_uint32
              (chunk_size (riff_base (riff_chunk (UpdateRiffFileSize w))))).
    rewrite UpdateRiffFileSize_total. apply Z.mod_pos_bound. lia.
  - unfold FmtChunk_inv, UpdateFmtValues, UpdateRiffFileSize.
    cbn [with_fmt with_riff fmt_chunk fmt_base compression nchannels
         sample_rate bytes_per_sec block_align bits_per_sample].
    split; [exact Hfb|]. split; [exact Hc|]. split; [exact Hn|].
    split; [exact Hsr|].
    split; [apply Z.mod_pos_bound; lia|].
    split; [apply Z.mod_pos_bound; lia | exact Hbits].
Qed.

Lemma write_all_length (l : list DataChunk) :
  (length l <= length (write_all l))%nat.
Proof.
  induction l as [|c l IH]; cbn [write_all flat_map length]; [lia|].
  fold (write_all l). rewrite length_app.
  rewrite DataChunk_WriteTo_bytes, length_app, Chunk_WriteTo_length. lia.
Qed.

Lemma Wave_eta (w : Wave) :
  mk_Wave (riff_chunk w) (fmt_chunk w) (data_chunk w) (other_chunks w) = w.
Proof. destruct w. reflexivity. Qed.

(** Loading the bytes of a save into a container that carries the standard
    type codes: the three standard chunks are replaced, the extra chunks
    come after those the container already had. *)
Lemma Load_saved_into (w w0 : Wave) (filename : string) :
  Wave_inv w -> Wave_tags w -> Wave_tags w0 ->
  let saved := fst (fst (Save w filename true)) in
  Load w0 filename (snd (fst (Save w filename true)))
  = Some (mk_Wave (riff_chunk saved) (fmt_chunk saved) (data_chunk saved)
            (other_chunks w0 ++ other_chunks saved),
          if compression (fmt_chunk w) =? 1 then [] else [compressed_warning]).
Proof.
  intros Hinv (Tr & Tw & Tf & Td & To) (Tr0 & _ & Tf0 & Td0 & _). cbv zeta.
  pose proof (Save_keeps_inv w filename true Hinv) as Hs.
  destruct (Save_frame w filename) as (Eo & Ed & Ew). cbv zeta in Eo, Ed, Ew.
  rewrite (Save_layout w filename). cbv zeta.
  set (saved := fst (fst (Save w filename true))) in *.
  destruct Hs as ((_ & Hrs) & _ & Hfs & _ & _).
  destruct Hinv as (_ & _ & _ & Hd & Ho).
  assert (Er : riff_chunk saved
               = mk_RiffChunk
                   (mk_Chunk CHUNK_TYPE_RIFF
                      (chunk_size (riff_base (riff_chunk saved))))
                   RIFF_TYPE_WAVE).
  { rewrite Ew. unfold UpdateFmtValues, UpdateRiffFileSize.
    cbn [with_fmt with_riff riff_chunk riff_base chunk_size].
    rewrite Tr, Tw. reflexivity. }
  assert (Ef : chunk_type (fmt_base (fmt_chunk saved)) = CHUNK_TYPE_FMT)
    by (rewrite Ew; exact Tf).
  assert (Ec : compression (fmt_chunk saved) = compression (fmt_chunk w))
    by (rewrite Ew; reflexivity).
  unfold Load, Load_file. cbn [open_in in_good negb].
  rewrite RiffChunk_WriteTo_bytes, Er. cbn [riff_base riff_type chunk_type].
  rewrite <- !app_assoc.
  rewrite ReadLittleEndian_written_exact by (unfold CHUNK_TYPE_RIFF; lia).
  rewrite Z.eqb_refl. cbn [negb].
  rewrite RiffChunk_ReadFrom_unfold.
  unfold is_uint32 in Hrs. cbn [chunk_size].
  rewrite ReadLittleEndian_written_exact by lia. cbn [fst snd].
  rewrite ReadLittleEndian_written_exact by (unfold RIFF_TYPE_WAVE; lia).
  cbn [fst snd riff_type in_good in_bytes negb orb].
  rewrite Z.eqb_refl. cbn [negb orb].
  set (w1 := with_riff w0 _).
  set (stream := FmtChunk_WriteTo (fmt_chunk saved) [] ++ _).
  apply (Load_loop_more_fuel (S (length (other_chunks w) + 2))).
  - unfold stream.
    rewrite Load_loop_fmt; [|exact Hfs | exact Ef | exact Tf0].
    rewrite <- (app_nil_r (DataChunk_WriteTo (data_chunk w) [])).
    rewrite Load_loop_others by assumption.
    rewrite Load_loop_data; [|exact Hd | exact Td | exact Td0].
    rewrite Load_loop_end. rewrite Ec. cbn [app].
    f_equal. f_equal.
    rewrite Eo, Ed.
    unfold w1, with_data, with_others, with_fmt, with_riff.
    cbn [riff_chunk fmt_chunk data_chunk other_chunks riff_base].
    rewrite Tr0. reflexivity.
  - unfold stream. rewrite !length_app.
    pose proof (write_all_length (other_chunks w)).
    rewrite (DataChunk_WriteTo_bytes (data_chunk w)), length_app,
      Chunk_WriteTo_length.
    lia.
Qed.

Lemma Wave_new_tags : Wave_tags Wave_new.
Proof.
  unfold Wave_tags. cbn. repeat split; constructor.
Qed.


(** X7.  Saving twice in a row changes nothing the second time.  For a
    container whose fields are values of their types and whose chunks own
    the bytes they declare (so that the first save has the bytes to write),
    the container after the first save again is one, the second save leaves
    it as the first did, and the second file is byte for byte the first. *)
Theorem Save_idempotent (w : Wave) (filename : string) :
  Wave_inv w ->
  let first := Save w filename true in
  Wave_inv (fst (fst first))
  /\ (exists bytes, snd (fst first) = Some bytes)
  /\ Save (fst (fst first)) filename true
     = (fst (fst first), snd (fst first), []).
Proof.
  intros Hinv. cbv zeta.
  split; [apply Save_keeps_inv; exact Hinv|].
  split; [eexists; apply Save_layout|].
  assert (E : UpdateFmtValues
                (UpdateRiffFileSize
                   (UpdateFmtValues (UpdateRiffFileSize w)))
              = UpdateFmtValues (UpdateRiffFileSize w)).
  { destruct w as [[[rt rs] rty] [fb c n sr bps ba bits] d others].
    reflexivity. }
  unfold Save at 1. cbn [negb].
  destruct (Save_frame w filename) as (_ & _ & Ew). cbv zeta in Ew.
  rewrite Ew, E. unfold Save. cbn [negb fst snd]. reflexivity.
Qed.

(** The bytes written for a list of chunks: eight of header each, the
    declared sizes and the pad bytes. *)
Lemma write_all_total_length (l : list DataChunk) :
  Forall DataChunk_inv l ->
  Z.of_nat (length (write_all l))
  = 8 * Z.of_nat (length l) + sum_chunk_sizes l + pad_bytes l.
Proof.
  induction 1 as [|c l Hc _ IH];
    cbn [write_all flat_map length sum_chunk_sizes pad_bytes];
    [reflexivity|].
  fold (write_all l). rewrite length_app.
  destruct Hc as (_ & _ & Hown).
  destruct (WriteTo_whole_array c Hown) as (_ & L).
  rewrite Nat2Z.inj_add, L, IH, Nat2Z.inj_succ. lia.
Qed.

(** The length of the file a save writes, chunk by chunk. *)
Lemma Save_length (w : Wave) (filename : string) :
  Wave_inv w ->
  exists file,
    snd (fst (Save w filename true)) = Some file
    /\ Z.of_nat (length file)
       = 12 + 24 + Z.of_nat (length (write_all (other_chunks w)))
         + (8 + data_length_ (data_chunk w)).
Proof.
  intros (_ & _ & _ & Hd & Ho).
  rewrite (Save_layout w filename). cbv zeta.
  eexists. split; [reflexivity|].
  rewrite !length_app.
  rewrite RiffChunk_WriteTo_bytes, FmtChunk_WriteTo_bytes.
  rewrite !length_app, !WriteLittleEndian_length.
  destruct Hd as (_ & _ & Hown).
  destruct (WriteTo_whole_array (data_chunk w) Hown) as (_ & L).
  change (Z.to_nat 4) with 4%nat. change (Z.to_nat 2) with 2%nat.
  lia.
Qed.


(** X9.  The size a save stores in the Riff chunk against the file it
    writes.  When the Format chunk declares 16 bytes and the sum does not
    overflow, the stored size is the length of the whole file less 8 bytes
    for every extra chunk and less the pad bytes: with no extra chunk and no
    pad byte it is the full length of the file, Riff header included, and
    the "file size" that [operator<<] prints, the stored size plus 8, is 8
    more than the file holds. *)
Theorem Save_riff_size_against_file (w : Wave) (filename : string) :
  Wave_inv w ->
  chunk_size (fmt_base (fmt_chunk w)) = 16 ->
  24 + 4 + 16 + chunk_size (data_base (data_chunk w))
  + sum_chunk_sizes (other_chunks w) < 2 ^ 32 ->
  let saved := fst (fst (Save w filename true)) in
  exists file,
    snd (fst (Save w filename true)) = Some file
    /\ chunk_size (riff_base (riff_chunk saved))
       = Z.of_nat (length file)
         - 8 * Z.of_nat (length (other_chunks w))
         - pad_bytes (data_chunk w :: other_chunks w).
Proof.
  intros Hw Hf Hsum. cbv zeta.
  destruct (Save_length w filename Hw) as (file & E & L).
  exists file. split; [exact E|].
  destruct (Save_frame w filename) as (_ & _ & Ew). cbv zeta in Ew.
  rewrite Ew.
  change (riff_chunk (UpdateFmtValues (UpdateRiffFileSize w)))
    with (riff_chunk (UpdateRiffFileSize w)).
  rewrite UpdateRiffFileSize_total, Hf.
  destruct Hw as (_ & _ & _ & ((_ & Hd) & _) & Ho).
  assert (Hnn : 0 <= sum_chunk_sizes (other_chunks w)).
  { clear - Ho. induction Ho as [|c l ((_ & Hc) & _) _ IH];
      cbn [sum_chunk_sizes]; [lia|]. unfold is_uint32 in Hc. lia. }
  unfold is_uint32 in Hd.
  rewrite to_uint32_small by lia.
  rewrite L, (write_all_total_length _ Ho). cbn [pad_bytes]. lia.
Qed.

(** ** Loading with and without the audio data *)

Lemma Skip_ReadFrom_agree (s : istream) (d d' : DataChunk) :
  data_base d = data_base d' ->
  snd (DataChunk_ReadFrom s d) = snd (DataChunk_Skip s d')
  /\ data_base (fst (DataChunk_ReadFrom s d))
     = data_base (fst (DataChunk_Skip s d'))
  /\ data_length_ (fst (DataChunk_ReadFrom s d))
     = data_length_ (fst (DataChunk_Skip s d'))
  /\ data_ (fst (DataChunk_Skip s d')) = [].
Proof.
  intros Hb. rewrite DataChunk_ReadFrom_unfold.
  unfold DataChunk_Skip. rewrite Chunk_ReadFrom_stream.
  cbn [fst snd data_base data_length_ data_ DataChunk_ReAllocData
       chunk_type chunk_size].
  rewrite Hb. repeat split.
Qed.

Lemma Load_loop_metadata (fuel : nat) (file : istream) (a b : Wave)
  (cerr : list string) :
  same_metadata a b ->
  match Load_loop fuel true file a cerr, Load_loop fuel false file b cerr with
  | Some (a', ca), Some (b', cb) =>
      same_metadata a' b' /\ ca = cb
      /\ (data_chunk b' = data_chunk b \/ data_ (data_chunk b') = [])
  | None, None => True
  | _, _ => False
  end.
Proof.
  revert file a b cerr. induction fuel as [|fuel IH]; intros file a b cerr R;
    cbn [Load_loop]; [exact I|].
  destruct (in_good file); [|auto].
  destruct (ReadLittleEndian 4 file) as [type file1].
  destruct (negb (in_good file1)); [auto|].
  destruct R as (Rr & Rf & Rb & Rl & Ro).
  destruct (type =? CHUNK_TYPE_FMT).
  { rewrite Rf.
    destruct (FmtChunk_ReadFrom file1 (fmt_chunk b)) as [[f file2] msgs].
    specialize (IH file2 (with_fmt a f) (with_fmt b f) (cerr ++ msgs)).
    apply IH. repeat split; assumption. }
  destruct (type =? CHUNK_TYPE_DATA).
  { destruct (Skip_ReadFrom_agree file1 (data_chunk a) (data_chunk b) Rb)
      as (Es & Eb & El & Ee).
    destruct (DataChunk_ReadFrom file1 (data_chunk a)) as [da fa].
    destruct (DataChunk_Skip file1 (data_chunk b)) as [db fb].
    cbn [fst snd] in *. subst fb.
    specialize (IH fa (with_data a da) (with_data b db) cerr).
    destruct (Load_loop fuel true fa (with_data a da) cerr) as [[a' ca]|];
      destruct (Load_loop fuel false fa (with_data b db) cerr)
        as [[b' cb]|]; try (apply IH; repeat split; assumption).
    destruct IH as (R' & Ec & Ed); [repeat split; assumption|].
    split; [exact R'|]. split; [exact Ec|]. right.
    destruct Ed as [Ed|Ed]; [rewrite Ed; exact Ee | exact Ed]. }
  rewrite Ro.
  destruct (DataChunk_ReadFrom file1 (DataChunk_of_type type))
    as [chunk file2].
  specialize (IH file2
                (with_others a (push_back (other_chunks b) chunk))
                (with_others b (push_back (other_chunks b) chunk)) cerr).
  apply IH. repeat split; assumption.
Qed.

(** [Load] and [LoadMetadata] on the same bytes. *)
Lemma Load_metadata_agree (w : Wave) (filename : string) (bytes : list Z) :
  exists loaded meta cerr,
    Load w filename (Some bytes) = Some (loaded, cerr)
    /\ LoadMetadata w filename (Some bytes) = Some (meta, cerr)
    /\ same_metadata loaded meta
    /\ (data_chunk meta = data_chunk w \/ data_ (data_chunk meta) = []).
Proof.
  unfold Load, LoadMetadata, Load_file. cbn [open_in in_good negb].
  destruct (ReadLittleEndian 4 (mk_istream bytes true)) as [type file1].
  destruct (negb (type =? CHUNK_TYPE_RIFF)).
  { exists w, w, [not_wav_error filename].
    repeat split; auto. }
  destruct (RiffChunk_ReadFrom file1 (riff_chunk w)) as [r file2].
  destruct (negb (riff_type r =? RIFF_TYPE_WAVE) || negb (in_good file2)).
  { exists (with_riff w r), (with_riff w r), [not_wav_error filename].
    repeat split; auto. }
  pose proof (Load_loop_metadata (S (length (in_bytes file2))) file2
                (with_riff w r) (with_riff w r) []) as M.
  destruct (Load_loop_other_chunks (S (length (in_bytes file2))) true
              file2 (with_riff w r) []) as (a' & ca & Ea & _); [lia|].
  destruct (Load_loop_other_chunks (S (length (in_bytes file2))) false
              file2 (with_riff w r) []) as (b' & cb & Eb & _); [lia|].
  rewrite Ea, Eb in M |- *.
  destruct M as (R & Ec & Ed); [repeat split|]. subst cb.
  exists a', b', ca. auto.
Qed.

Lemma same_metadata_nsamples (a b : Wave) :
  same_metadata a b -> nsamples a = nsamples b.
Proof.
  intros (_ & Rf & Rb & _). rewrite !nsamples_div, Rf, Rb. reflexivity.
Qed.

(** ** The representation invariant *)

Lemma ReadLittleEndian_range (size : Z) (s : istream) :
  0 <= size -> 0 <= fst (ReadLittleEndian size s) < 2 ^ (8 * size).
Proof.
  intros H. apply ReadLittleEndian_loop_range; [exact H|].
  split; [lia|]. apply Z.pow_pos_nonneg; lia.
Qed.

Lemma ReAllocData_inv (n : Z) (d : DataChunk) :
  is_uint32 n -> is_uint32 (chunk_type (data_base d)) ->
  DataChunk_inv (DataChunk_ReAllocData n d).
Proof.
  intros Hn Ht. split; [split; assumption|].
  split; [reflexivity | apply ReAllocData_length].
Qed.

Lemma DataChunk_ReadFrom_inv (s : istream) (d : DataChunk) :
  is_uint32 (chunk_type (data_base d)) ->
  DataChunk_inv (fst (DataChunk_ReadFrom s d)).
Proof.
  intros Ht. destruct (ReadFrom_length s d) as (L & O). cbv zeta in L, O.
  split; [|split; assumption].
  rewrite DataChunk_ReadFrom_unfold. cbn [fst data_base].
  split; [exact Ht|]. apply (ReadLittleEndian_range 4). lia.
Qed.

Lemma FmtChunk_ReadFrom_inv (s : istream) (f : FmtChunk) :
  is_uint32 (chunk_type (fmt_base f)) ->
  FmtChunk_inv (fst (fst (FmtChunk_ReadFrom s f))).
Proof.
  intros Ht. unfold FmtChunk_ReadFrom, Chunk_ReadFrom.
  repeat match goal with
         | |- context [ReadLittleEndian ?n ?s] =>
             let R := fresh "R" in
             pose proof (ReadLittleEndian_range n s ltac:(lia)) as R;
             destruct (ReadLittleEndian n s) as [? ?]; cbn [fst snd] in R
         end.
  cbn [fst]. unfold FmtChunk_inv, Chunk_inv, is_uint16, is_uint32.
  cbn [fmt_base chunk_type chunk_size compression nchannels sample_rate
       bytes_per_sec block_align bits_per_sample].
  change (8 * 4) with 32 in *. change (8 * 2) with 16 in *.
  repeat split; try apply Ht; lia.
Qed.

Lemma Load_loop_inv (fuel : nat) (file : istream) (w : Wave)
  (cerr : list string) (r : Wave * list string) :
  Wave_inv w ->
  Load_loop fuel true file w cerr = Some r -> Wave_inv (fst r).
Proof.
  revert file w cerr. induction fuel as [|fuel IH]; intros file w cerr Hw H;
    [discriminate|].
  cbn [Load_loop] in H.
  destruct (in_good file); [|inversion H; exact Hw].
  pose proof (ReadLittleEndian_range 4 file ltac:(lia)) as Rt.
  destruct (ReadLittleEndian 4 file) as [type file1]. cbn [fst] in Rt.
  destruct (negb (in_good file1)); [inversion H; exact Hw|].
  destruct Hw as (Hr & Hrt & Hf & Hd & Ho).
  destruct (type =? CHUNK_TYPE_FMT).
  { pose proof (FmtChunk_ReadFrom_inv file1 (fmt_chunk w)
                  (proj1 (proj1 Hf))) as Hf'.
    destruct (FmtChunk_ReadFrom file1 (fmt_chunk w)) as [[f file2] msgs].
    apply IH in H; [exact H|].
    split; [exact Hr|]. split; [exact Hrt|]. split; [exact Hf'|].
    split; [exact Hd | exact Ho]. }
  destruct (type =? CHUNK_TYPE_DATA).
  { pose proof (DataChunk_ReadFrom_inv file1 (data_chunk w)
                  (proj1 (proj1 Hd))) as Hd'.
    destruct (DataChunk_ReadFrom file1 (data_chunk w)) as [d file2].
    apply IH in H; [exact H|].
    split; [exact Hr|]. split; [exact Hrt|]. split; [exact Hf|].
    split; [exact Hd' | exact Ho]. }
  pose proof (DataChunk_ReadFrom_inv file1 (DataChunk_of_type type) Rt)
    as Hc.
  destruct (DataChunk_ReadFrom file1 (DataChunk_of_type type))
    as [chunk file2]. cbn [fst] in Hc.
  apply IH in H; [exact H|].
  split; [exact Hr|]. split; [exact Hrt|]. split; [exact Hf|].
  split; [exact Hd|].
  cbn [with_others other_chunks]. unfold push_back.
  apply Forall_app. split; [exact Ho|]. constructor; [|constructor].
  rewrite DataChunk_copy_id; [exact Hc | apply Hc | apply Hc].
Qed.

Lemma Load_file_inv (file : istream) (filename : string) (w : Wave)
  (r : Wave * list string) :
  Wave_inv w ->
  Load_file file filename true w = Some r -> Wave_inv (fst r).
Proof.
  intros Hw H. unfold Load_file in H.
  destruct (ReadLittleEndian 4 file) as [type file1].
  destruct (negb (type =? CHUNK_TYPE_RIFF)); [inversion H; exact Hw|].
  rewrite RiffChunk_ReadFrom_unfold in H. cbv zeta in H.
  assert (Hw' : Wave_inv
                  (with_riff w
                     (mk_RiffChunk
                        (mk_Chunk (chunk_type (riff_base (riff_chunk w)))
                           (fst (ReadLittleEndian 4 file1)))
                        (fst (ReadLittleEndian 4
                                (snd (ReadLittleEndian 4 file1))))))).
  { destruct Hw as ((Hty & _) & _ & Hf & Hd & Ho).
    split; [split; [exact Hty | apply (ReadLittleEndian_range 4); lia]|].
    split; [apply (ReadLittleEndian_range 4); lia|].
    split; [exact Hf|]. split; [exact Hd | exact Ho]. }
  match type of H with
  | (if ?c then _ else _) = _ => destruct c
  end.
  - inversion H. exact Hw'.
  - eapply Load_loop_inv; [exact Hw' | exact H].
Qed.

Lemma PutChannelAvg_inner_length (thing things sizeof_thing i : Z) (n : nat)
  (j : Z) (mem : list Z) :
  length (PutChannelAvg_inner thing things sizeof_thing i n j mem)
  = length mem.
Proof.
  revert j mem. induction n as [|n IH]; intros j mem;
    cbn [PutChannelAvg_inner]; [reflexivity|].
  rewrite IH. apply array_set_length.
Qed.

Lemma PutChannelAvg_outer_length (thing things sizeof_thing : Z) (n : nat)
  (i : Z) (mem : list Z) :
  length (PutChannelAvg_outer thing things sizeof_thing n i mem)
  = length mem.
Proof.
  revert i mem. induction n as [|n IH]; intros i mem;
    cbn [PutChannelAvg_outer]; [reflexivity|].
  rewrite IH. apply PutChannelAvg_inner_length.
Qed.

(** [SetSample] changes nothing but the bytes of the audio array: the
    array keeps its length, every other field its value. *)
Lemma SetSample_frame (w : Wave) (offset : Z) (value : float) :
  let w' := SetSample w offset value in
  riff_chunk w' = riff_chunk w /\ fmt_chunk w' = fmt_chunk w
  /\ other_chunks w' = other_chunks w
  /\ data_base (data_chunk w') = data_base (data_chunk w)
  /\ data_length_ (data_chunk w') = data_length_ (data_chunk w)
  /\ length (data_ (data_chunk w')) = length (data_ (data_chunk w)).
Proof.
  cbv zeta. unfold SetSample.
  destruct (nsamples w <=? offset); [repeat split|].
  destruct (bytes_per_sample_slice w =? 1);
    cbn [with_data riff_chunk fmt_chunk other_chunks data_chunk data_base
         data_length_ data_];
    repeat split; unfold PutChannelAvg; apply PutChannelAvg_outer_length.
Qed.

Lemma Wave_new_inv : Wave_inv Wave_new.
Proof.
  unfold Wave_inv, Chunk_inv, FmtChunk_inv, DataChunk_inv, Chunk_inv,
    owns_its_length, is_uint16, is_uint32.
  cbn. repeat split; try discriminate; constructor.
Qed.

Lemma Load_inv (w : Wave) (filename : string) (contents : option (list Z)) :
  Wave_inv w ->
  exists loaded cerr,
    Load w filename contents = Some (loaded, cerr) /\ Wave_inv loaded.
Proof.
  intros Hw.
  destruct (Load_other_chunks true w filename contents)
    as (loaded & cerr & E & _).
  exists loaded, cerr. split; [exact E|].
  unfold Load in E. destruct (negb (in_good (open_in contents))).
  - inversion E. subst. exact Hw.
  - apply (Load_file_inv _ _ _ _ Hw E).
Qed.

Lemma Resize_inv (new_nsamples : Z) (w : Wave) :
  Wave_inv w -> Wave_inv (Resize new_nsamples w).
Proof.
  intros (Hr & Hrt & Hf & Hd & Ho).
  destruct Hf as (Hfb & Hc & Hn & Hsr & _ & _ & Hbits).
  unfold Resize.
  split; [exact Hr|]. split; [exact Hrt|]. split.
  - unfold UpdateFmtValues.
    cbn [with_data with_fmt fmt_chunk].
    split; [exact Hfb|]. split; [exact Hc|]. split; [exact Hn|].
    split; [exact Hsr|].
    split; [apply Z.mod_pos_bound; lia|].
    split; [apply Z.mod_pos_bound; lia | exact Hbits].
  - split; [|exact Ho].
    cbn [with_data data_chunk].
    apply ReAllocData_inv; [apply Z.mod_pos_bound; lia | apply Hd].
Qed.

Lemma SetSample_inv (w : Wave) (offset : Z) (value : float) :
  Wave_inv w -> Wave_inv (SetSample w offset value).
Proof.
  intros Hw.
  destruct (SetSample_frame w offset value) as (Er & Ef & Eo & Eb & El & En).
  cbv zeta in *.
  destruct Hw as (Hr & Hrt & Hf & Hd & Ho).
  unfold Wave_inv. rewrite Er, Ef, Eo.
  split; [exact Hr|]. split; [exact Hrt|]. split; [exact Hf|].
  split; [|exact Ho].
  destruct Hd as (Hb & Hl & Hown).
  unfold DataChunk_inv, owns_its_length in *. rewrite Eb, El, En.
  auto.
Qed.

(** The pointer through [ReAllocData], [ReadFrom] and the loop of [Load]:
    it goes with the length field of the record. *)
Lemma ReAllocData_pointer_tracks (n : Z) (d : DataChunk) (p p' : pointer) :
  ReAllocData_pointer n p = Some p' ->
  pointer_tracks (DataChunk_ReAllocData n d) p'.
Proof.
  unfold ReAllocData_pointer, pointer_tracks.
  cbn [DataChunk_ReAllocData data_length_].
  destruct (to_uint32 (n + n mod 2) =? 0) eqn:E;
    [apply Z.eqb_eq in E | apply Z.eqb_neq in E];
    destruct p; intros H; inversion H; subst; exact E.
Qed.

Lemma ReadFrom_pointer_tracks (file : istream) (d : DataChunk)
  (p p' : pointer) :
  ReAllocData_pointer (fst (ReadLittleEndian 4 file)) p = Some p' ->
  pointer_tracks (fst (DataChunk_ReadFrom file d)) p'.
Proof.
  intros H. rewrite DataChunk_ReadFrom_unfold. cbn [fst].
  apply (ReAllocData_pointer_tracks _ d) in H.
  destruct p'; exact H.
Qed.

Lemma Load_loop_pointer_tracks (fuel : nat) (file : istream) (w : Wave)
  (cerr : list string) (r : Wave * list string) (p p' : pointer) :
  pointer_tracks (data_chunk w) p ->
  Load_loop_pointer fuel true file p = Some p' ->
  Load_loop fuel true file w cerr = Some r ->
  pointer_tracks (data_chunk (fst r)) p'.
Proof.
  revert file w cerr p.
  induction fuel as [|fuel IH]; intros file w cerr p Ht Hp H; [discriminate|].
  cbn [Load_loop] in H. cbn [Load_loop_pointer] in Hp.
  destruct (in_good file); [|inversion H; inversion Hp; subst; exact Ht].
  destruct (ReadLittleEndian 4 file) as [type file1].
  destruct (negb (in_good file1));
    [inversion H; inversion Hp; subst; exact Ht|].
  destruct (type =? CHUNK_TYPE_FMT).
  { rewrite (FmtChunk_ReadFrom_stream file1 FmtChunk_new (fmt_chunk w)) in Hp.
    destruct (FmtChunk_ReadFrom file1 (fmt_chunk w)) as [[f file2] msgs].
    cbn [fst snd] in Hp. refine (IH _ _ _ _ _ Hp H). exact Ht. }
  destruct (type =? CHUNK_TYPE_DATA).
  { destruct (ReAllocData_pointer (fst (ReadLittleEndian 4 file1)) p)
      as [p1|] eqn:Ep; [|discriminate].
    pose proof (ReadFrom_pointer_tracks file1 (data_chunk w) p p1 Ep) as Ht1.
    rewrite (DataChunk_ReadFrom_stream file1 DataChunk_new (data_chunk w))
      in Hp.
    destruct (DataChunk_ReadFrom file1 (data_chunk w)) as [d file2].
    cbn [fst snd] in Hp, Ht1. refine (IH _ _ _ _ _ Hp H). exact Ht1. }
  destruct (DataChunk_ReadFrom file1 (DataChunk_of_type type))
    as [chunk file2].
  cbn [fst snd] in Hp. refine (IH _ _ _ _ _ Hp H). exact Ht.
Qed.

Lemma Load_pointer_tracks (w : Wave) (filename : string)
  (contents : option (list Z)) (r : Wave * list string) (p p' : pointer) :
  pointer_tracks (data_chunk w) p ->
  Load_pointer true p contents = Some p' ->
  Load w filename contents = Some r ->
  pointer_tracks (data_chunk (fst r)) p'.
Proof.
  intros Ht Hp H. unfold Load, Load_file in H.
  unfold Load_pointer, Load_file_pointer in Hp.
  destruct (negb (in_good (open_in contents)));
    [inversion H; inversion Hp; subst; exact Ht|].
  destruct (ReadLittleEndian 4 (open_in contents)) as [type file1].
  destruct (negb (type =? CHUNK_TYPE_RIFF));
    [inversion H; inversion Hp; subst; exact Ht|].
  rewrite RiffChunk_ReadFrom_unfold in H, Hp. cbv zeta in H, Hp.
  cbn [riff_type] in H, Hp.
  destruct (negb (fst (ReadLittleEndian 4 (snd (ReadLittleEndian 4 file1)))
                  =? RIFF_TYPE_WAVE)
            || negb (in_good (snd (ReadLittleEndian 4
                                     (snd (ReadLittleEndian 4 file1))))));
    [inversion H; inversion Hp; subst; exact Ht|].
  refine (Load_loop_pointer_tracks _ _ _ _ _ _ _ _ Hp H). exact Ht.
Qed.

(** [LoadMetadata] into a chunk that has no array leaves it without one:
    every reallocation is to no bytes. *)
Lemma Load_loop_pointer_metadata (fuel : nat) (file : istream) :
  (length (in_bytes file) < fuel)%nat ->
  Load_loop_pointer fuel false file null = Some null.
Proof.
  revert file. induction fuel as [|fuel IH]; intros file Hlen; [lia|].
  cbn [Load_loop_pointer].
  destruct (in_good file) eqn:G; [|reflexivity].
  pose proof (ReadLittleEndian_good 4 file) as R.
  destruct (ReadLittleEndian 4 file) as [type file1]. cbn [snd] in R.
  destruct (in_good file1) eqn:G1; cbn [negb]; [|reflexivity].
  destruct (R eq_refl) as (_ & L & B). change (Z.to_nat 4) with 4%nat in *.
  assert (Hlen1 : (length (in_bytes file1) < fuel)%nat)
    by (rewrite B, length_skipn; lia).
  destruct (type =? CHUNK_TYPE_FMT).
  { apply IH. pose proof (FmtChunk_ReadFrom_length file1 FmtChunk_new). lia. }
  destruct (type =? CHUNK_TYPE_DATA).
  { change (ReAllocData_pointer 0 null) with (Some null).
    apply IH. pose proof (after_data_length false file1) as A.
    unfold after_data in A. lia. }
  apply IH.
  pose proof (DataChunk_ReadFrom_length file1 (DataChunk_of_type type)). lia.
Qed.

Lemma Load_pointer_metadata_null (contents : option (list Z)) :
  Load_pointer false null contents = Some null.
Proof.
  unfold Load_pointer, Load_file_pointer.
  destruct (negb (in_good (open_in contents))); [reflexivity|].
  destruct (ReadLittleEndian 4 (open_in contents)) as [type file1].
  destruct (negb (type =? CHUNK_TYPE_RIFF)); [reflexivity|].
  destruct (RiffChunk_ReadFrom file1 RiffChunk_new) as [r file2].
  destruct (negb (riff_type r =? RIFF_TYPE_WAVE) || negb (in_good file2));
    [reflexivity|].
  apply Load_loop_pointer_metadata. lia.
Qed.

(** X11.  The representation invariant: every field is a value of its
    type, every [DataChunk] owns an array of its declared size rounded up to
    even, and the pointer of the data chunk is null or on an array the chunk
    owns, never on one that was deleted.  It holds for a fresh [Wave].
    [Load] keeps it, on any file whatever and also when the load is turned
    down, provided that it deletes no array twice and does not end on a
    deleted array (as it does after an empty "data" chunk).  [Resize] keeps
    it under the same proviso (it fails to when it resizes an array to no
    bytes), [SetSample] where the frame it writes lies inside the array and
    the value can be converted, and [Save] always. *)
Theorem Wave_inv_kept (w : Wave) (filename : string)
  (contents : option (list Z)) (new_nsamples offset : Z) (value : float)
  (opened : bool) (p : pointer) :
  Wave_inv w -> pointer_agrees (data_chunk w) p ->
  (Wave_inv Wave_new /\ pointer_agrees (data_chunk Wave_new) null)
  /\ (forall p', Load_pointer true p contents = Some p' -> p' <> deleted ->
      exists loaded cerr,
        Load w filename contents = Some (loaded, cerr)
        /\ Wave_inv loaded /\ pointer_agrees (data_chunk loaded) p')
  /\ (forall p', Resize_pointer new_nsamples w p = Some p' ->
      p' <> deleted ->
      Wave_inv (Resize new_nsamples w)
      /\ pointer_agrees (data_chunk (Resize new_nsamples w)) p')
  /\ (SetSample_defined w offset value = true ->
      Wave_inv (SetSample w offset value)
      /\ pointer_agrees (data_chunk (SetSample w offset value)) p)
  /\ Wave_inv (fst (fst (Save w filename opened)))
  /\ pointer_agrees (data_chunk (fst (fst (Save w filename opened)))) p.
Proof.
  intros Hw (Ht & Hnd).
  split.
  { split; [exact Wave_new_inv|]. split; [reflexivity | discriminate]. }
  split.
  { intros p' Hp Hp'.
    destruct (Load_inv w filename contents Hw) as (loaded & cerr & E & Hl).
    exists loaded, cerr. split; [exact E|]. split; [exact Hl|].
    split; [|exact Hp'].
    exact (Load_pointer_tracks w filename contents (loaded, cerr) p p'
             Ht Hp E). }
  split.
  { intros p' Hp Hp'. split; [apply Resize_inv; exact Hw|].
    split; [|exact Hp'].
    unfold Resize. cbn [with_data data_chunk].
    apply (ReAllocData_pointer_tracks _ _ p). exact Hp. }
  split.
  { intros _. split; [apply SetSample_inv; exact Hw|].
    destruct (SetSample_frame w offset value) as (_ & _ & _ & _ & El & _).
    cbv zeta in El.
    split; [|exact Hnd].
    unfold pointer_tracks in *. rewrite El. exact Ht. }
  split; [apply Save_keeps_inv; exact Hw|].
  split; [|exact Hnd].
  unfold Save. destruct opened; cbn [negb fst]; exact Ht.
Qed.

(** ** Files made of complete chunks *)

Lemma write_part_length (s : part) : (1 <= length (write_part s))%nat.
Proof.
  destruct s as [f|d]; cbn [write_part].
  - rewrite FmtChunk_WriteTo_bytes, length_app, WriteLittleEndian_length.
    change (Z.to_nat 4) with 4%nat. lia.
  - rewrite DataChunk_WriteTo_bytes, length_app, Chunk_WriteTo_length. lia.
Qed.

Lemma parts_length (parts : list part) :
  (length parts <= length (flat_map write_part parts))%nat.
Proof.
  induction parts as [|s parts IH]; cbn [flat_map length]; [lia|].
  rewrite length_app. pose proof (write_part_length s). lia.
Qed.





Lemma load_parts_riff (parts : list part) (w : Wave) :
  riff_chunk (fold_left load_part parts w) = riff_chunk w.
Proof.
  revert w. induction parts as [|s parts IH]; intros w;
    cbn [fold_left]; [reflexivity|].
  rewrite IH. destruct s as [f|d]; cbn [load_part]; [reflexivity|].
  destruct (chunk_type (data_base d) =? CHUNK_TYPE_DATA); reflexivity.
Qed.

(** The stream after a complete "data" chunk, read or skipped. *)
Lemma after_data_written (load_data : bool) (d : DataChunk) (rest : list Z) :
  DataChunk_inv d ->
  after_data load_data
    (mk_istream
       (WriteLittleEndian 4 (chunk_size (data_base d)) [] ++ data_ d ++ rest)
       true)
  = mk_istream rest true.
Proof.
  intros Hd. unfold after_data.
  set (s := mk_istream _ true).
  destruct (Skip_ReadFrom_agree s DataChunk_new DataChunk_new eq_refl)
    as (E & _).
  assert (R : snd (DataChunk_ReadFrom s DataChunk_new) = mk_istream rest true)
    by (unfold s; rewrite DataChunk_ReadFrom_written by exact Hd;
        reflexivity).
  destruct load_data; [exact R | rewrite <- E; exact R].
Qed.

(** The chunks that the loop appends, on complete chunks: those that are
    neither "fmt " nor "data", as they lie in the file. *)
Lemma unrecognised_chunks_parts (load_data : bool) (parts : list part)
  (fuel : nat) :
  Forall part_ok parts -> (length parts < fuel)%nat ->
  unrecognised_chunks fuel load_data
    (mk_istream (flat_map write_part parts) true)
  = extra_parts parts.
Proof.
  revert fuel.
  induction parts as [|s parts IH]; intros fuel Hp Hfuel;
    (destruct fuel as [|fuel]; [cbn [length] in Hfuel; lia|]).
  - cbn [flat_map unrecognised_chunks in_good extra_parts].
    pose proof (ReadLittleEndian_good 4 (mk_istream [] true)) as R.
    destruct (ReadLittleEndian 4 (mk_istream [] true)) as [type file1].
    cbn [snd] in R. destruct (in_good file1); [|reflexivity].
    destruct (R eq_refl) as (_ & L & _). cbn in L. lia.
  - inversion Hp as [|? ? Hs Hp']; subst. cbn [length] in Hfuel.
    cbn [flat_map unrecognised_chunks in_good extra_parts].
    destruct s as [f|d]; cbn [write_part part_ok] in Hs |- *.
    + destruct Hs as (Hf & Ht).
      pose proof Hf as ((Hty & _) & _). unfold is_uint32 in Hty.
      rewrite FmtChunk_WriteTo_bytes. rewrite <- !app_assoc.
      rewrite ReadLittleEndian_written_exact by lia. cbn [in_good negb].
      rewrite Ht, Z.eqb_refl.
      rewrite FmtChunk_ReadFrom_written by exact Hf. cbn [fst snd].
      apply IH; [exact Hp' | lia].
    + destruct Hs as (Hd & Hnf).
      pose proof Hd as ((Hty & Hsz) & Hlen & Hown). unfold is_uint32 in *.
      rewrite DataChunk_WriteTo_owned by exact Hown. rewrite <- !app_assoc.
      rewrite ReadLittleEndian_written_exact by lia. cbn [in_good negb].
      apply Z.eqb_neq in Hnf. rewrite Hnf.
      destruct (chunk_type (data_base d) =? CHUNK_TYPE_DATA) eqn:E.
      * rewrite after_data_written by exact Hd.
        apply IH; [exact Hp' | lia].
      * rewrite DataChunk_ReadFrom_written by exact Hd.
        cbn [DataChunk_of_type Chunk_new data_base chunk_type].
        rewrite DataChunk_eta.
        rewrite DataChunk_copy_id by assumption.
        f_equal. apply IH; [exact Hp' | lia].
Qed.

(** The pointer of the data chunk through the loop, on complete chunks. *)
Lemma Load_loop_pointer_parts (load_data : bool) (parts : list part)
  (fuel : nat) (p : pointer) :
  Forall part_ok parts -> (length parts < fuel)%nat ->
  Load_loop_pointer fuel load_data
    (mk_istream (flat_map write_part parts) true) p
  = parts_pointer load_data parts p.
Proof.
  revert fuel p.
  induction parts as [|s parts IH]; intros fuel p Hp Hfuel;
    (destruct fuel as [|fuel]; [cbn [length] in Hfuel; lia|]).
  - cbn [flat_map Load_loop_pointer in_good parts_pointer].
    pose proof (ReadLittleEndian_good 4 (mk_istream [] true)) as R.
    destruct (ReadLittleEndian 4 (mk_istream [] true)) as [type file1].
    cbn [snd] in R. destruct (in_good file1); [|reflexivity].
    destruct (R eq_refl) as (_ & L & _). cbn in L. lia.
  - inversion Hp as [|? ? Hs Hp']; subst. cbn [length] in Hfuel.
    cbn [flat_map Load_loop_pointer in_good parts_pointer].
    destruct s as [f|d]; cbn [write_part part_ok] in Hs |- *.
    + destruct Hs as (Hf & Ht).
      pose proof Hf as ((Hty & _) & _). unfold is_uint32 in Hty.
      rewrite FmtChunk_WriteTo_bytes. rewrite <- !app_assoc.
      rewrite ReadLittleEndian_written_exact by lia. cbn [in_good negb].
      rewrite Ht, Z.eqb_refl.
      rewrite FmtChunk_ReadFrom_written by exact Hf. cbn [fst snd].
      apply IH; [exact Hp' | lia].
    + destruct Hs as (Hd & Hnf).
      pose proof Hd as ((Hty & Hsz) & Hlen & Hown). unfold is_uint32 in *.
      rewrite DataChunk_WriteTo_owned by exact Hown. rewrite <- !app_assoc.
      rewrite ReadLittleEndian_written_exact by lia. cbn [in_good negb].
      apply Z.eqb_neq in Hnf. rewrite Hnf.
      destruct (chunk_type (data_base d) =? CHUNK_TYPE_DATA) eqn:E.
      * pose proof (after_data_written true d (flat_map write_part parts) Hd)
          as At.
        pose proof (after_data_written false d (flat_map write_part parts) Hd)
          as Af.
        unfold after_data in At, Af. rewrite At, Af.
        rewrite ReadLittleEndian_written_exact by lia. cbn [fst].
        destruct load_data;
          (destruct (ReAllocData_pointer _ p) as [p'|]; [|reflexivity]);
          apply IH; try exact Hp'; lia.
      * rewrite DataChunk_ReadFrom_written by exact Hd. cbn [snd].
        apply IH; [exact Hp' | lia].
Qed.

(** The twelve bytes at the head of the file. *)
Lemma wave_file_head (size : Z) (parts : list part) (r : RiffChunk) :
  0 <= size < 2 ^ 32 ->
  exists file1,
    ReadLittleEndian 4 (mk_istream (wave_file size parts) true)
    = (CHUNK_TYPE_RIFF, file1)
    /\ RiffChunk_ReadFrom file1 r
       = (mk_RiffChunk (mk_Chunk (chunk_type (riff_base r)) size)
            RIFF_TYPE_WAVE,
          mk_istream (flat_map write_part parts) true).
Proof.
  intros Hs. unfold wave_file.
  rewrite RiffChunk_WriteTo_bytes.
  cbn [riff_base riff_type chunk_type chunk_size].
  rewrite <- !app_assoc.
  rewrite ReadLittleEndian_written_exact by (unfold CHUNK_TYPE_RIFF; lia).
  eexists. split; [reflexivity|].
  rewrite RiffChunk_ReadFrom_unfold.
  rewrite ReadLittleEndian_written_exact by lia. cbn [fst snd].
  rewrite ReadLittleEndian_written_exact by (unfold RIFF_TYPE_WAVE; lia).
  reflexivity.
Qed.


Lemma file_unrecognised_chunks_wave_file (load_data : bool) (size : Z)
  (parts : list part) :
  0 <= size < 2 ^ 32 -> Forall part_ok parts ->
  file_unrecognised_chunks load_data (Some (wave_file size parts))
  = extra_parts parts.
Proof.
  intros Hs Hp.
  destruct (wave_file_head size parts RiffChunk_new Hs) as (file1 & E1 & E2).
  unfold file_unrecognised_chunks. cbn [open_in in_good negb].
  rewrite E1, Z.eqb_refl. cbn [negb]. rewrite E2.
  cbn [riff_type in_good in_bytes negb orb]. rewrite Z.eqb_refl.
  cbn [negb orb].
  apply unrecognised_chunks_parts; [exact Hp|].
  pose proof (parts_length parts). lia.
Qed.

Lemma Load_pointer_wave_file (load_data : bool) (size : Z)
  (parts : list part) (p : pointer) :
  0 <= size < 2 ^ 32 -> Forall part_ok parts ->
  Load_pointer load_data p (Some (wave_file size parts))
  = parts_pointer load_data parts p.
Proof.
  intros Hs Hp.
  destruct (wave_file_head size parts RiffChunk_new Hs) as (file1 & E1 & E2).
  unfold Load_pointer, Load_file_pointer. cbn [open_in in_good negb].
  rewrite E1, Z.eqb_refl. cbn [negb]. rewrite E2.
  cbn [riff_type in_good in_bytes negb orb]. rewrite Z.eqb_refl.
  cbn [negb orb].
  apply Load_loop_pointer_parts; [exact Hp|].
  pose proof (parts_length parts). lia.
Qed.

(** The extra chunks of a file carry neither of the two recognised
    types. *)
Lemma extra_parts_types (parts : list part) :
  Forall part_ok parts ->
  Forall (fun c => chunk_type (data_base c) <> CHUNK_TYPE_FMT
                   /\ chunk_type (data_base c) <> CHUNK_TYPE_DATA)
    (extra_parts parts).
Proof.
  induction 1 as [|s parts Hs _ IH]; cbn [extra_parts]; [constructor|].
  destruct s as [f|d]; [exact IH|]. destruct Hs as (_ & Hnf).
  destruct (chunk_type (data_base d) =? CHUNK_TYPE_DATA) eqn:E; [exact IH|].
  apply Z.eqb_neq in E. constructor; [split; assumption | exact IH].
Qed.

Lemma extra_parts_inv (parts : list part) :
  Forall part_ok parts -> Forall DataChunk_inv (extra_parts parts).
Proof.
  induction 1 as [|s parts Hs _ IH]; cbn [extra_parts]; [constructor|].
  destruct s as [f|d]; [exact IH|]. destruct Hs as (Hd & _).
  destruct (chunk_type (data_base d) =? CHUNK_TYPE_DATA); [exact IH|].
  constructor; assumption.
Qed.

(** The pointer is not touched by chunks that are not "data" chunks. *)
Lemma parts_pointer_others (load_data : bool) (others : list DataChunk)
  (rest : list part) (p : pointer) :
  Forall (fun c => chunk_type (data_base c) <> CHUNK_TYPE_FMT
                   /\ chunk_type (data_base c) <> CHUNK_TYPE_DATA) others ->
  parts_pointer load_data (map chunk_part others ++ rest) p
  = parts_pointer load_data rest p.
Proof.
  induction 1 as [|c others (_ & Hc) _ IH]; cbn [map app parts_pointer];
    [reflexivity|].
  apply Z.eqb_neq in Hc. rewrite Hc. exact IH.
Qed.

Lemma write_all_parts (l : list DataChunk) :
  write_all l = flat_map write_part (map chunk_part l).
Proof.
  unfold write_all.
  induction l as [|c l IH]; cbn [map flat_map write_part]; [reflexivity|].
  rewrite IH. reflexivity.
Qed.

(** The file a save writes is a file of complete chunks: the Format chunk,
    the extra chunks and the data chunk. *)
Lemma Save_wave_file (w : Wave) (filename : string) :
  Wave_inv w -> Wave_tags w ->
  let saved := fst (fst (Save w filename true)) in
  let parts :=
    format_part (fmt_chunk saved)
    :: map chunk_part (other_chunks w) ++ [chunk_part (data_chunk w)] in
  snd (fst (Save w filename true))
  = Some (wave_file (chunk_size (riff_base (riff_chunk saved))) parts)
  /\ 0 <= chunk_size (riff_base (riff_chunk saved)) < 2 ^ 32
  /\ Forall part_ok parts.
Proof.
  intros Hinv (Tr & Tw & Tf & Td & To). cbv zeta.
  pose proof (Save_keeps_inv w filename true Hinv) as Hs.
  destruct (Save_frame w filename) as (Eo & Ed & Ew). cbv zeta in Eo, Ed, Ew.
  rewrite (Save_layout w filename). cbv zeta.
  set (saved := fst (fst (Save w filename true))) in *.
  destruct Hs as ((_ & Hrs) & _ & Hfs & _ & _).
  destruct Hinv as (_ & _ & _ & Hd & Ho).
  assert (Er : riff_chunk saved
               = mk_RiffChunk
                   (mk_Chunk CHUNK_TYPE_RIFF
                      (chunk_size (riff_base (riff_chunk saved))))
                   RIFF_TYPE_WAVE).
  { rewrite Ew. unfold UpdateFmtValues, UpdateRiffFileSize.
    cbn [with_fmt with_riff riff_chunk riff_base chunk_size].
    rewrite Tr, Tw. reflexivity. }
  assert (Ef : chunk_type (fmt_base (fmt_chunk saved)) = CHUNK_TYPE_FMT)
    by (rewrite Ew; exact Tf).
  split; [|split; [exact Hrs|]].
  - unfold wave_file. rewrite <- Er. do 2 f_equal.
    cbn [flat_map write_part]. f_equal.
    rewrite flat_map_app. cbn [flat_map write_part]. rewrite app_nil_r.
    f_equal. apply write_all_parts.
  - constructor; [split; [exact Hfs | exact Ef]|].
    apply Forall_app. split.
    + apply Forall_map. rewrite Forall_forall in Ho, To |- *.
      intros c Hc. split; [apply Ho; exact Hc | apply To; exact Hc].
    + constructor; [|constructor]. split; [exact Hd|].
      rewrite Td. discriminate.
Qed.

(** Loading the file a save wrote into a new [Wave] deletes nothing: the
    pointer ends on the array of the data chunk, or null when there is
    none. *)
Lemma Load_pointer_saved (w : Wave) (filename : string) :
  Wave_inv w -> Wave_tags w ->
  exists q,
    Load_pointer true null (snd (fst (Save w filename true))) = Some q
    /\ q <> deleted.
Proof.
  intros Hinv Ht.
  destruct (Save_wave_file w filename Hinv Ht) as (E & Hs & Hp).
  cbv zeta in E, Hs, Hp. rewrite E.
  rewrite Load_pointer_wave_file by assumption.
  destruct Ht as (_ & _ & _ & Td & To).
  cbn [parts_pointer]. rewrite parts_pointer_others by exact To.
  cbn [parts_pointer]. rewrite Td, Z.eqb_refl.
  unfold ReAllocData_pointer.
  destruct (to_uint32 _ =? 0); eexists; (split; [reflexivity | discriminate]).
Qed.


(** C10.  Neither [Load] nor [LoadMetadata] clears [other_chunks].  On a
    file of complete chunks, and as long as no array is deleted twice, each
    returns with the former entries unchanged and in place, followed by the
    chunks of the file that are neither "fmt " nor "data", as they lie in
    the file; a second load into the same object adds the extra chunks of
    the second file after those of the first.  On any other contents (a
    file that cannot be opened, is turned down or stops early) the former
    entries are likewise kept in place, whatever is appended. *)
Theorem Load_accumulates_other_chunks (w : Wave) (metadata1 metadata2 : bool)
  (filename1 filename2 : string) (size1 size2 : Z)
  (parts1 parts2 : list part) (p p1 p2 : pointer) :
  Forall DataChunk_inv (other_chunks w) ->
  0 <= size1 < 2 ^ 32 -> 0 <= size2 < 2 ^ 32 ->
  Forall part_ok parts1 -> Forall part_ok parts2 ->
  parts_pointer (negb metadata1) parts1 p = Some p1 ->
  parts_pointer (negb metadata2) parts2 p1 = Some p2 ->
  let contents1 := Some (wave_file size1 parts1) in
  let contents2 := Some (wave_file size2 parts2) in
  (exists w1 cerr1 w2 cerr2,
     (if metadata1 then LoadMetadata w filename1 contents1
      else Load w filename1 contents1) = Some (w1, cerr1)
     /\ Load_pointer (negb metadata1) p contents1 = Some p1
     /\ other_chunks w1 = other_chunks w ++ extra_parts parts1
     /\ (if metadata2 then LoadMetadata w1 filename2 contents2
         else Load w1 filename2 contents2) = Some (w2, cerr2)
     /\ Load_pointer (negb metadata2) p1 contents2 = Some p2
     /\ other_chunks w2
        = other_chunks w ++ extra_parts parts1 ++ extra_parts parts2
     /\ Forall DataChunk_inv (other_chunks w2)
     /\ Forall (fun c => chunk_type (data_base c) <> CHUNK_TYPE_FMT
                         /\ chunk_type (data_base c) <> CHUNK_TYPE_DATA)
          (extra_parts parts1 ++ extra_parts parts2))
  /\ forall (metadata : bool) (filename : string)
        (contents : option (list Z)),
      Load_pointer (negb metadata) p contents <> None ->
      exists w' cerr appended,
        (if metadata then LoadMetadata w filename contents
         else Load w filename contents) = Some (w', cerr)
        /\ other_chunks w' = other_chunks w ++ appended.
Proof.
  intros Ho Hs1 Hs2 Hp1 Hp2 Hptr1 Hptr2. cbv zeta. split.
  - destruct (Load_other_chunks (negb metadata1) w filename1
                (Some (wave_file size1 parts1))) as (w1 & c1 & E1 & O1).
    destruct (Load_other_chunks (negb metadata2) w1 filename2
                (Some (wave_file size2 parts2))) as (w2 & c2 & E2 & O2).
    rewrite file_unrecognised_chunks_wave_file in O1, O2 by assumption.
    exists w1, c1, w2, c2.
    split; [destruct metadata1; exact E1|].
    split; [rewrite Load_pointer_wave_file by assumption; exact Hptr1|].
    split; [exact O1|].
    split; [destruct metadata2; exact E2|].
    split; [rewrite Load_pointer_wave_file by assumption; exact Hptr2|].
    split; [rewrite O2, O1, <- app_assoc; reflexivity|].
    split.
    + rewrite O2, O1. apply Forall_app. split.
      * apply Forall_app. split; [exact Ho|].
        apply extra_parts_inv. exact Hp1.
      * apply extra_parts_inv. exact Hp2.
    + apply Forall_app. split; apply extra_parts_types; assumption.
  - intros metadata filename contents _.
    destruct (Load_other_chunks (negb metadata) w filename contents)
      as (w' & c' & E & O).
    exists w', c', (file_unrecognised_chunks (negb metadata) contents).
    split; [destruct metadata; exact E | exact O].
Qed.

(** X10.  [LoadMetadata] and [Load] agree on everything but the audio
    bytes.  On a file of complete chunks (so that every array is filled
    from the file), into a container whose extra chunks own their arrays,
    and as long as neither call deletes an array twice, both return with
    the same diagnostics, the same Riff and Format chunks, the same extra
    chunks (those of the file after the former ones: [LoadMetadata] reads
    them in full), the same declared size of the data chunk and therefore
    the same [nsamples()].  [LoadMetadata] leaves the data chunk without an
    array when it met one in the file, and as it was when it met none. *)
Theorem LoadMetadata_agrees_with_Load (w : Wave) (filename : string)
  (size : Z) (parts : list part) (p p_load p_meta : pointer) :
  Forall DataChunk_inv (other_chunks w) ->
  0 <= size < 2 ^ 32 -> Forall part_ok parts ->
  parts_pointer true parts p = Some p_load ->
  parts_pointer false parts p = Some p_meta ->
  let contents := Some (wave_file size parts) in
  exists loaded meta cerr,
    Load w filename contents = Some (loaded, cerr)
    /\ Load_pointer true p contents = Some p_load
    /\ LoadMetadata w filename contents = Some (meta, cerr)
    /\ Load_pointer false p contents = Some p_meta
    /\ riff_chunk meta = riff_chunk loaded
    /\ fmt_chunk meta = fmt_chunk loaded
    /\ other_chunks meta = other_chunks loaded
    /\ other_chunks loaded = other_chunks w ++ extra_parts parts
    /\ data_base (data_chunk meta) = data_base (data_chunk loaded)
    /\ nsamples meta = nsamples loaded
    /\ (data_chunk meta = data_chunk w \/ data_ (data_chunk meta) = []).
Proof.
  intros Ho Hs Hp Hl Hm. cbv zeta.
  destruct (Load_metadata_agree w filename (wave_file size parts))
    as (loaded & meta & cerr & E1 & E2 & R & D).
  pose proof (same_metadata_nsamples loaded meta R) as En.
  destruct R as (Rr & Rf & Rb & Rl & Ro).
  destruct (Load_other_chunks true w filename (Some (wave_file size parts)))
    as (w1 & c1 & E1' & O1).
  rewrite E1 in E1'. injection E1' as <- <-.
  rewrite file_unrecognised_chunks_wave_file in O1 by assumption.
  exists loaded, meta, cerr.
  split; [exact E1|].
  split; [rewrite Load_pointer_wave_file by assumption; exact Hl|].
  split; [exact E2|].
  split; [rewrite Load_pointer_wave_file by assumption; exact Hm|].
  repeat split; auto.
Qed.

(** ** Resizing *)


Lemma Resize_block_align (new_nsamples : Z) (w : Wave) :
  block_align (fmt_chunk (Resize new_nsamples w))
  = to_uint16 (nchannels (fmt_chunk w) * (bits_per_sample (fmt_chunk w) / 8)).
Proof.
  unfold Resize, UpdateFmtValues.
  cbn [with_data with_fmt fmt_chunk block_align].
  apply to_uint16_to_int.
Qed.

(** The sizes after a [Resize]. *)
Lemma Resize_layout (new_nsamples : Z) (w : Wave) :
  let align :=
    nchannels (fmt_chunk w) * (bits_per_sample (fmt_chunk w) / 8) in
  0 < align < 2 ^ 16 ->
  0 <= new_nsamples ->
  new_nsamples * align < 2 ^ 32 - 1 ->
  let w' := Resize new_nsamples w in
  nsamples w' = new_nsamples
  /\ block_align (fmt_chunk w') = align
  /\ chunk_size (data_base (data_chunk w')) = new_nsamples * align
  /\ Z.of_nat (length (data_ (data_chunk w')))
     = new_nsamples * align + (new_nsamples * align) mod 2
  /\ data_chunk w'
     = DataChunk_ReAllocData (new_nsamples * align) (data_chunk w).
Proof.
  cbv zeta. intros Ha Hn Hs.
  set (align := nchannels (fmt_chunk w) * (bits_per_sample (fmt_chunk w) / 8))
    in *.
  assert (Eb : block_align (fmt_chunk (Resize new_nsamples w)) = align).
  { rewrite Resize_block_align. apply to_uint16_small. lia. }
  assert (Ed : data_chunk (Resize new_nsamples w)
               = DataChunk_ReAllocData (new_nsamples * align)
                   (data_chunk w)).
  { unfold Resize. cbn [with_data data_chunk]. f_equal.
    unfold bytes_per_sample.
    change (block_align (fmt_chunk (UpdateFmtValues w)))
      with (block_align (fmt_chunk (Resize new_nsamples w))).
    rewrite Eb. apply to_uint32_small. nia. }
  assert (Es : chunk_size (data_base (data_chunk (Resize new_nsamples w)))
               = new_nsamples * align)
    by (rewrite Ed; reflexivity).
  pose proof (Z.mod_pos_bound (new_nsamples * align) 2 ltac:(lia)) as Hm.
  split.
  { rewrite nsamples_div, Es, Eb. apply Z.div_mul. lia. }
  split; [exact Eb|]. split; [exact Es|]. split; [|exact Ed].
  rewrite Ed.
  pose proof (ReAllocData_length (new_nsamples * align) (data_chunk w)) as O.
  unfold owns_its_length in O. rewrite O.
  cbn [DataChunk_ReAllocData data_length_].
  apply to_uint32_small. nia.
Qed.


(** ** Every channel of a sample *)

(** What the two loops of [PutChannelAvg] leave in the array: the slices of
    the channels it has gone through hold the bytes of the encoded value,
    no other byte is touched. *)
Lemma PutChannelAvg_outer_spec (thing things sizeof_thing : Z) (n : nat)
  (i : Z) (mem : list Z) :
  0 <= things -> 0 <= sizeof_thing -> 0 <= i ->
  (i + Z.of_nat n) * sizeof_thing < 2 ^ 32 ->
  things + (i + Z.of_nat n) * sizeof_thing <= Z.of_nat (length mem) ->
  forall k,
    array_get (PutChannelAvg_outer thing things sizeof_thing n i mem) k
    = if (things + i * sizeof_thing <=? k)
         && (k <? things + (i + Z.of_nat n) * sizeof_thing)
      then to_uchar
             (ull_shr thing
                (to_uint32 (8 * ((k - things) mod sizeof_thing))))
      else array_get mem k.
Proof.
  intros Ht Hs. revert i mem.
  induction n as [|n IH]; intros i mem Hi Hw Hl k;
    cbn [PutChannelAvg_outer].
  - replace (i + Z.of_nat 0) with i by lia.
    destruct (Z.leb_spec (things + i * sizeof_thing) k);
      destruct (Z.ltb_spec k (things + i * sizeof_thing));
      cbn [andb]; try reflexivity; lia.
  - assert (Ha : 0 <= i * sizeof_thing) by nia.
    assert (Hb : 0 <= Z.of_nat n * sizeof_thing) by nia.
    replace ((i + Z.of_nat (S n)) * sizeof_thing)
      with (i * sizeof_thing + sizeof_thing + Z.of_nat n * sizeof_thing)
      in * by lia.
    destruct (PutChannelAvg_inner_spec thing things sizeof_thing i
                (Z.to_nat sizeof_thing) 0 mem) as (L1 & G1); try lia.
    rewrite IH; [| lia | lia | rewrite L1; lia].
    rewrite G1. rewrite Z2Nat.id by lia.
    replace ((i + 1 + Z.of_nat n) * sizeof_thing)
      with (i * sizeof_thing + sizeof_thing + Z.of_nat n * sizeof_thing)
      by lia.
    replace ((i + 1) * sizeof_thing) with (i * sizeof_thing + sizeof_thing)
      by lia.
    set (a := i * sizeof_thing) in *.
    set (b := Z.of_nat n * sizeof_thing) in *.
    destruct (Z.leb_spec (things + (a + sizeof_thing)) k);
      destruct (Z.ltb_spec k (things + (a + sizeof_thing + b)));
      destruct (Z.leb_spec (things + a + 0) k);
      destruct (Z.ltb_spec k (things + a + 0 + sizeof_thing));
      destruct (Z.leb_spec (things + a) k);
      cbn [andb]; try reflexivity; try lia.
    assert (E : (k - things) mod sizeof_thing = k - things - a).
    { replace (k - things) with (k - things - a + i * sizeof_thing)
        by (unfold a; lia).
      rewrite Z.mod_add by lia. rewrite Z.mod_small by lia.
      unfold a. lia. }
    rewrite E. reflexivity.
Qed.

Lemma GetValue_loop_ext (m1 m2 : list Z) (things : Z) (n : nat)
  (i answer : Z) :
  (forall k, things + i <= k < things + i + Z.of_nat n ->
     array_get m1 k = array_get m2 k) ->
  GetValue_loop m1 things n i answer = GetValue_loop m2 things n i answer.
Proof.
  revert i answer. induction n as [|n IH]; intros i answer H;
    cbn [GetValue_loop]; [reflexivity|].
  rewrite (H (things + i)) by lia.
  apply IH. intros k Hk. apply H. lia.
Qed.

Lemma GetValue_ext (m1 m2 : list Z) (things sizeof_thing : Z)
  (thing_is_signed : bool) :
  0 <= sizeof_thing ->
  (forall k, things <= k < things + sizeof_thing ->
     array_get m1 k = array_get m2 k) ->
  GetValue m1 things sizeof_thing thing_is_signed
  = GetValue m2 things sizeof_thing thing_is_signed.
Proof.
  intros Hs H. unfold GetValue.
  rewrite (GetValue_loop_ext m1 m2); [reflexivity|].
  intros k Hk. apply H. lia.
Qed.

Lemma TakeChannelAvg_loop_ext (m1 m2 : list Z) (things sizeof_thing : Z)
  (thing_is_signed : bool) (n : nat) (i total : Z) :
  0 <= sizeof_thing -> 0 <= i ->
  (i + Z.of_nat n) * sizeof_thing < 2 ^ 32 ->
  (forall k,
     things + i * sizeof_thing <= k
     < things + (i + Z.of_nat n) * sizeof_thing ->
     array_get m1 k = array_get m2 k) ->
  TakeChannelAvg_loop m1 things sizeof_thing thing_is_signed n i total
  = TakeChannelAvg_loop m2 things sizeof_thing thing_is_signed n i total.
Proof.
  intros Hs. revert i total.
  induction n as [|n IH]; intros i total Hi Hw H;
    cbn [TakeChannelAvg_loop]; [reflexivity|].
  assert (Ha : 0 <= i * sizeof_thing) by nia.
  assert (Hb : 0 <= Z.of_nat n * sizeof_thing) by nia.
  replace ((i + Z.of_nat (S n)) * sizeof_thing)
    with (i * sizeof_thing + sizeof_thing + Z.of_nat n * sizeof_thing)
    in * by lia.
  rewrite (to_uint32_small (i * sizeof_thing)) by lia.
  rewrite (GetValue_ext m1 m2) by (try intros k Hk; try apply H; lia).
  apply IH; [lia | lia |].
  intros k Hk. apply H. lia.
Qed.

(** Channels that all decode to the same level add up to that many times
    the level. *)
Lemma TakeChannelAvg_loop_const (mem : list Z) (things sizeof_thing : Z)
  (thing_is_signed : bool) (level : Z) (n : nat) (i total : Z) :
  0 <= sizeof_thing -> 0 <= i ->
  (i + Z.of_nat n) * sizeof_thing < 2 ^ 32 ->
  (forall c, i <= c < i + Z.of_nat n ->
     GetValue mem (things + c * sizeof_thing) sizeof_thing thing_is_signed
     = level) ->
  0 <= total -> 0 <= level -> total + Z.of_nat n * level < 2 ^ 64 ->
  TakeChannelAvg_loop mem things sizeof_thing thing_is_signed n i total
  = total + Z.of_nat n * level.
Proof.
  intros Hs. revert i total.
  induction n as [|n IH]; intros i total Hi Hw H Ht Hl Hsum;
    cbn [TakeChannelAvg_loop]; [lia|].
  assert (Ha : 0 <= i * sizeof_thing) by nia.
  assert (Hb : 0 <= Z.of_nat n * sizeof_thing) by nia.
  rewrite (to_uint32_small (i * sizeof_thing)) by lia.
  rewrite H by lia.
  rewrite (to_ull_small (total + level)) by nia.
  rewrite IH; [lia | lia | lia | | lia | lia | lia].
  intros c Hc. apply H. lia.
Qed.

(** The frame of a sample lies inside the array and its index does not
    wrap. *)
Lemma sample_frame_bounds (w : Wave) (offset : Z) :
  0 <= nchannels (fmt_chunk w) * bytes_per_sample_slice w
    <= block_align (fmt_chunk w) ->
  0 <= offset < nsamples w ->
  chunk_size (data_base (data_chunk w)) < 2 ^ 32 ->
  0 < block_align (fmt_chunk w)
  /\ (offset + 1) * block_align (fmt_chunk w)
     <= chunk_size (data_base (data_chunk w))
  /\ to_uint32 (offset * bytes_per_sample w)
     = offset * block_align (fmt_chunk w)
  /\ (nsamples w <=? offset) = false.
Proof.
  intros Hf Ho Hs.
  assert (Hb : 0 < block_align (fmt_chunk w)).
  { destruct (Z.eq_dec (block_align (fmt_chunk w)) 0) as [E|E]; [|lia].
    rewrite nsamples_div, E, Z.div_0_r in Ho. lia. }
  pose proof (sample_in_chunk w offset Hb Ho) as Hin.
  split; [exact Hb|]. split; [exact Hin|]. split.
  - unfold bytes_per_sample. apply to_uint32_small. nia.
  - apply Z.leb_gt. lia.
Qed.

(** A frame that fits the block lies inside an array that holds the
    declared size. *)
Lemma sample_in_array_fits (w : Wave) (offset : Z) :
  0 <= nchannels (fmt_chunk w) * bytes_per_sample_slice w
    <= block_align (fmt_chunk w) ->
  0 <= offset < nsamples w ->
  chunk_size (data_base (data_chunk w)) < 2 ^ 32 ->
  chunk_size (data_base (data_chunk w))
  <= Z.of_nat (length (data_ (data_chunk w))) ->
  sample_in_array w offset = true.
Proof.
  intros Hf Ho Hs Hl.
  destruct (sample_frame_bounds w offset Hf Ho Hs) as (Hb & Hin & Hseg & _).
  unfold sample_in_array. rewrite Hseg. apply Z.leb_le. nia.
Qed.

(** In a container that holds [count] samples, every access below [count]
    is defined. *)
Lemma holds_samples_defined (w : Wave) (count offset : Z) :
  holds_samples w count -> 0 <= offset < count ->
  GetSample_defined w offset = true
  /\ forall value,
       ull_representable (scaled value (bytes_per_sample_slice w)) = true ->
       SetSample_defined w offset value = true.
Proof.
  intros (Hn & Hw & Hf & Hc & Hs & Hl) Ho.
  assert (Hc' : slices_defined w = true).
  { unfold slices_defined.
    destruct (Z.leb_spec 1 (bytes_per_sample_slice w)); [|lia].
    destruct (Z.leb_spec (bytes_per_sample_slice w) 4); [reflexivity | lia]. }
  assert (Hn' : (1 <=? nchannels (fmt_chunk w)) = true)
    by (apply Z.leb_le; exact Hn).
  assert (Hin : sample_in_array w offset = true)
    by (apply sample_in_array_fits; [nia | lia | lia | lia]).
  unfold GetSample_defined, SetSample_defined. rewrite Hc', Hn', Hin.
  split; [apply orb_true_r|].
  intros value Hv. rewrite Hv. apply orb_true_r.
Qed.

(** Whether an access is defined depends on the Format chunk, on the header
    of the data chunk and on the length of its array. *)
Lemma GetSample_defined_ext (a b : Wave) (offset : Z) :
  fmt_chunk a = fmt_chunk b ->
  data_base (data_chunk a) = data_base (data_chunk b) ->
  length (data_ (data_chunk a)) = length (data_ (data_chunk b)) ->
  GetSample_defined a offset = GetSample_defined b offset.
Proof.
  intros Ef Eb El.
  unfold GetSample_defined, slices_defined, sample_in_array,
    bytes_per_sample, bytes_per_sample_slice.
  rewrite !nsamples_div, Ef, Eb, El. reflexivity.
Qed.

Lemma GetSample_defined_SetSample (w : Wave) (offset i : Z) (value : float) :
  GetSample_defined (SetSample w offset value) i = GetSample_defined w i.
Proof.
  destruct (SetSample_frame w offset value) as (_ & Ef & _ & Eb & _ & El).
  apply GetSample_defined_ext; assumption.
Qed.

Lemma SetSample_in_range (w : Wave) (offset : Z) (value : float) :
  (nsamples w <=? offset) = false ->
  SetSample w offset value
  = with_data w
      (mk_DataChunk (data_base (data_chunk w))
         (PutChannelAvg value (data_ (data_chunk w))
            (to_uint32 (offset * bytes_per_sample w))
            (nchannels (fmt_chunk w)) (bytes_per_sample_slice w)
            (negb (bytes_per_sample_slice w =? 1)))
         (data_length_ (data_chunk w))).
Proof.
  intros H. unfold SetSample. rewrite H.
  destruct (bytes_per_sample_slice w =? 1); reflexivity.
Qed.

Lemma GetSample_in_range (w : Wave) (offset : Z) :
  (nsamples w <=? offset) = false ->
  GetSample w offset
  = TakeChannelAvg (data_ (data_chunk w))
      (to_uint32 (offset * bytes_per_sample w))
      (nchannels (fmt_chunk w)) (bytes_per_sample_slice w)
      (negb (bytes_per_sample_slice w =? 1)).
Proof.
  intros H. unfold GetSample. rewrite H.
  destruct (bytes_per_sample_slice w =? 1); reflexivity.
Qed.

(** Writing a sample changes no byte outside its channel slices. *)
Lemma SetSample_bytes_outside (w : Wave) (i : Z) (value : float) :
  0 <= bytes_per_sample_slice w -> 0 <= nchannels (fmt_chunk w) ->
  nchannels (fmt_chunk w) * bytes_per_sample_slice w
  <= block_align (fmt_chunk w) ->
  0 <= i < nsamples w ->
  chunk_size (data_base (data_chunk w)) < 2 ^ 32 ->
  chunk_size (data_base (data_chunk w))
  <= Z.of_nat (length (data_ (data_chunk w))) ->
  forall k,
    ~ (i * block_align (fmt_chunk w) <= k
       < i * block_align (fmt_chunk w)
         + nchannels (fmt_chunk w) * bytes_per_sample_slice w) ->
    array_get (data_ (data_chunk (SetSample w i value))) k
    = array_get (data_ (data_chunk w)) k.
Proof.
  intros Hw Hn Hf Hi Hs Hl k Hk.
  assert (Hnw : 0 <= nchannels (fmt_chunk w) * bytes_per_sample_slice w)
    by nia.
  destruct (sample_frame_bounds w i) as (Hb & Hin & Hseg & Hlt);
    [lia | lia | lia |].
  rewrite (SetSample_in_range w i value Hlt).
  cbn [with_data data_chunk data_].
  unfold PutChannelAvg. rewrite Hseg.
  rewrite PutChannelAvg_outer_spec; try (rewrite ?Z2Nat.id by lia; nia).
  rewrite Z2Nat.id by lia.
  destruct (Z.leb_spec (i * block_align (fmt_chunk w)
                        + 0 * bytes_per_sample_slice w) k);
    destruct (Z.ltb_spec k
                (i * block_align (fmt_chunk w)
                 + (0 + nchannels (fmt_chunk w))
                   * bytes_per_sample_slice w));
    cbn [andb]; try reflexivity.
  exfalso. apply Hk. lia.
Qed.

(** A sample reads the same in two containers with the same Format chunk
    and the same data chunk header whose arrays agree on its frame. *)
Lemma GetSample_same_bytes (w w' : Wave) (j : Z) :
  fmt_chunk w' = fmt_chunk w ->
  data_base (data_chunk w') = data_base (data_chunk w) ->
  0 <= bytes_per_sample_slice w -> 0 <= nchannels (fmt_chunk w) ->
  nchannels (fmt_chunk w) * bytes_per_sample_slice w
  <= block_align (fmt_chunk w) ->
  0 <= j < nsamples w ->
  chunk_size (data_base (data_chunk w)) < 2 ^ 32 ->
  (forall k,
     j * block_align (fmt_chunk w) <= k
     < j * block_align (fmt_chunk w)
       + nchannels (fmt_chunk w) * bytes_per_sample_slice w ->
     array_get (data_ (data_chunk w')) k
     = array_get (data_ (data_chunk w)) k) ->
  GetSample w' j = GetSample w j.
Proof.
  intros Ef Eb Hw Hn Hf Hj Hs Hbytes.
  assert (Hnw : 0 <= nchannels (fmt_chunk w) * bytes_per_sample_slice w)
    by nia.
  destruct (sample_frame_bounds w j) as (_ & Hjn & Hsegj & Hltj);
    [lia | lia | lia |].
  assert (En : nsamples w' = nsamples w)
    by (rewrite !nsamples_div, Ef, Eb; reflexivity).
  assert (Hltj' : (nsamples w' <=? j) = false) by (rewrite En; exact Hltj).
  rewrite (GetSample_in_range w j Hltj), (GetSample_in_range w' j Hltj').
  unfold bytes_per_sample, bytes_per_sample_slice in *. rewrite Ef.
  unfold TakeChannelAvg. f_equal. rewrite Hsegj.
  apply TakeChannelAvg_loop_ext; try (rewrite ?Z2Nat.id by lia; nia).
  rewrite Z2Nat.id by lia.
  intros k Hk. apply Hbytes. nia.
Qed.

(** X13.  [SetSample] touches one sample only.  When the slices of all
    channels fit in the frame ([nchannels] times the slice width is at most
    [block_align]) and both offsets are in range, writing sample [i] leaves
    every byte outside the channel slices of that sample as it was, so that
    any other sample [j] reads as before. *)
Theorem SetSample_other_samples (w : Wave) (i j : Z) (value : float) :
  let width := bytes_per_sample_slice w in
  let n := nchannels (fmt_chunk w) in
  let align := block_align (fmt_chunk w) in
  0 <= width -> 0 <= n -> n * width <= align ->
  0 <= i < nsamples w -> 0 <= j < nsamples w -> i <> j ->
  chunk_size (data_base (data_chunk w)) < 2 ^ 32 ->
  chunk_size (data_base (data_chunk w))
  <= Z.of_nat (length (data_ (data_chunk w))) ->
  let w' := SetSample w i value in
  (forall k, ~ (i * align <= k < i * align + n * width) ->
     array_get (data_ (data_chunk w')) k = array_get (data_ (data_chunk w)) k)
  /\ GetSample w' j = GetSample w j.
Proof.
  cbv zeta. intros Hw Hn Hf Hi Hj Hij Hs Hl.
  pose proof (SetSample_bytes_outside w i value Hw Hn Hf Hi Hs Hl) as Hout.
  split; [exact Hout|].
  destruct (SetSample_frame w i value) as (_ & Ef & _ & Eb & _).
  cbv zeta in Ef, Eb.
  apply GetSample_same_bytes; try assumption.
  intros k Hk. apply Hout.
  assert (0 <= nchannels (fmt_chunk w) * bytes_per_sample_slice w) by nia.
  nia.
Qed.

(** After [PutChannelAvg], every channel slice of the sample holds the
    bytes of the encoded value. *)
Lemma PutChannelAvg_channel (value : float) (mem : list Z)
  (things nthings sizeof_thing : Z) (thing_is_signed : bool) (c : Z) :
  0 <= things -> 1 <= sizeof_thing -> 0 <= c < nthings ->
  nthings * sizeof_thing < 2 ^ 32 ->
  things + nthings * sizeof_thing <= Z.of_nat (length mem) ->
  slice
    (PutChannelAvg value mem things nthings sizeof_thing thing_is_signed)
    (things + c * sizeof_thing) (Z.to_nat sizeof_thing)
  = le_bytes (encode_thing value sizeof_thing thing_is_signed) 0
      (Z.to_nat sizeof_thing).
Proof.
  intros Ht Hs Hc Hw Hl.
  apply slice_le_bytes. intros k Hk. rewrite Z2Nat.id in Hk by lia.
  unfold PutChannelAvg.
  rewrite PutChannelAvg_outer_spec; try (rewrite ?Z2Nat.id by lia; lia).
  rewrite Z2Nat.id by lia.
  destruct (Z.leb_spec (things + 0 * sizeof_thing)
              (things + c * sizeof_thing + k));
    destruct (Z.ltb_spec (things + c * sizeof_thing + k)
                (things + (0 + nthings) * sizeof_thing));
    cbn [andb]; try nia.
  do 4 f_equal.
  replace (things + c * sizeof_thing + k - things)
    with (k + c * sizeof_thing) by lia.
  rewrite Z.mod_add by lia. rewrite Z.mod_small by lia. lia.
Qed.

(** Writing a sample and reading it back, for any number of channels. *)
Lemma SetSample_GetSample_level (w : Wave) (offset : Z) (value : float) :
  let width := bytes_per_sample_slice w in
  let n := nchannels (fmt_chunk w) in
  let level :=
    double_to_ull
      ((value + 1) / 2 * ull_to_double (max_thing_value width))%float in
  1 <= n -> n * width <= block_align (fmt_chunk w) -> 1 <= width <= 3 ->
  0 <= offset < nsamples w ->
  chunk_size (data_base (data_chunk w)) < 2 ^ 32 ->
  chunk_size (data_base (data_chunk w))
  <= Z.of_nat (length (data_ (data_chunk w))) ->
  level <= max_thing_value width ->
  (forall c, 0 <= c < n ->
     read_unsigned (data_ (data_chunk (SetSample w offset value)))
       (offset * block_align (fmt_chunk w) + c * width) width
     = encode_thing value width (negb (width =? 1)))
  /\ GetSample (SetSample w offset value) offset = munge (n * level) n width.
Proof.
  cbv zeta. intros Hn Hf Hw Ho Hs Hl Hmax.
  destruct (sample_frame_bounds w offset) as (Hb & Hin & Hseg & Hlt);
    [nia | lia | lia |].
  assert (Hlt' : (nsamples (SetSample w offset value) <=? offset) = false).
  { rewrite (SetSample_in_range w offset value Hlt). exact Hlt. }
  rewrite (GetSample_in_range _ offset Hlt').
  rewrite (SetSample_in_range w offset value Hlt).
  change (bytes_per_sample (with_data w _)) with (bytes_per_sample w).
  change (bytes_per_sample_slice (with_data w _))
    with (bytes_per_sample_slice w).
  cbn [with_data data_chunk data_ fmt_chunk]. rewrite Hseg.
  set (width := bytes_per_sample_slice w) in *.
  set (n := nchannels (fmt_chunk w)) in *.
  set (signed := negb (width =? 1)).
  set (seg := offset * block_align (fmt_chunk w)) in *.
  set (put := PutChannelAvg value (data_ (data_chunk w)) seg n width signed).
  assert (Hch : forall c, 0 <= c < n ->
            read_unsigned put (seg + c * width) width
            = encode_thing value width signed
            /\ GetValue put (seg + c * width) width signed
               = double_to_ull
                   ((value + 1) / 2
                    * ull_to_double (max_thing_value width))%float).
  { intros c Hc. apply GetValue_of_encoded; [exact Hw | exact Hmax |].
    apply PutChannelAvg_channel; unfold seg; nia. }
  split; [intros c Hc; apply Hch; exact Hc|].
  unfold TakeChannelAvg. f_equal.
  pose proof (double_to_ull_range
                ((value + 1) / 2
                 * ull_to_double (max_thing_value width))%float) as Hr.
  assert (Hm : max_thing_value width < 2 ^ 24).
  { rewrite max_thing_value_small by lia.
    assert (2 ^ (8 * width) <= 2 ^ 24) by (apply Z.pow_le_mono_r; lia).
    lia. }
  set (level := double_to_ull _) in *.
  rewrite (TakeChannelAvg_loop_const put seg width signed level);
    try (rewrite ?Z2Nat.id by lia; nia).
  intros c Hc. rewrite Z2Nat.id in Hc by lia. apply Hch. lia.
Qed.

(** X14.  Writing a sample and reading it back, for any number of
    channels.  With slices of one to three bytes that fit in the frame, an
    in-range offset and a value whose scaled level has a value at
    [unsigned long long] and converts to an integer [level] no greater than
    [max_thing_value], both accesses are defined, [SetSample] stores the
    encoding of [level] in the slice of every channel, and [GetSample] then
    returns [nchannels] equal levels averaged and mapped back: the value
    quantised to the bit depth. *)
Theorem SetSample_GetSample_all_channels (w : Wave) (offset : Z)
  (value : float) :
  let width := bytes_per_sample_slice w in
  let n := nchannels (fmt_chunk w) in
  let level :=
    double_to_ull
      ((value + 1) / 2 * ull_to_double (max_thing_value width))%float in
  1 <= n -> n * width <= block_align (fmt_chunk w) -> 1 <= width <= 3 ->
  0 <= offset < nsamples w ->
  chunk_size (data_base (data_chunk w)) < 2 ^ 32 ->
  chunk_size (data_base (data_chunk w))
  <= Z.of_nat (length (data_ (data_chunk w))) ->
  ull_representable
    ((value + 1) / 2 * ull_to_double (max_thing_value width))%float = true ->
  level <= max_thing_value width ->
  let w' := SetSample w offset value in
  let segment := offset * block_align (fmt_chunk w) in
  SetSample_defined w offset value = true
  /\ GetSample_defined w' offset = true
  /\ (forall c, 0 <= c < n ->
        slice (data_ (data_chunk w')) (segment + c * width) (Z.to_nat width)
        = slice (data_ (data_chunk w')) segment (Z.to_nat width))
  /\ (forall c, 0 <= c < n ->
        read_unsigned (data_ (data_chunk w')) (segment + c * width) width
        = encode_thing value width (negb (width =? 1)))
  /\ GetSample w' offset = munge (n * level) n width.
Proof.
  cbv zeta. intros Hn Hf Hw Ho Hs Hl Hrep Hmax.
  destruct (SetSample_GetSample_level w offset value Hn Hf Hw Ho Hs Hl Hmax)
    as (R & G).
  destruct (holds_samples_defined w (nsamples w) offset) as (Dg & Ds);
    [unfold holds_samples; repeat split; assumption || lia | exact Ho |].
  split; [apply Ds; exact Hrep|].
  split; [rewrite GetSample_defined_SetSample; exact Dg|].
  split; [|split; [exact R | exact G]].
  destruct (sample_frame_bounds w offset) as (Hb & Hin & Hseg & Hlt);
    [nia | lia | lia |].
  rewrite (SetSample_in_range w offset value Hlt).
  cbn [with_data data_chunk data_]. rewrite Hseg.
  intros c Hc.
  rewrite PutChannelAvg_channel by nia.
  replace (offset * block_align (fmt_chunk w))
    with (offset * block_align (fmt_chunk w)
          + 0 * bytes_per_sample_slice w) at 2 by lia.
  rewrite PutChannelAvg_channel by nia.
  reflexivity.
Qed.

(** X15.  The ends of the scale and its middle, for one or two channels and
    slices of one to three bytes.  Full scale survives the round trip
    exactly: 1.0 reads back as 1.0 and -1.0 as -1.0.  Silence does not:
    the scale has an even number of levels and none of them decodes to
    zero, so that 0.0 reads back as a negative number. *)
Theorem SetSample_GetSample_extremes (w : Wave) (offset : Z) :
  let width := bytes_per_sample_slice w in
  let n := nchannels (fmt_chunk w) in
  1 <= n <= 2 -> n * width <= block_align (fmt_chunk w) -> 1 <= width <= 3 ->
  0 <= offset < nsamples w ->
  chunk_size (data_base (data_chunk w)) < 2 ^ 32 ->
  chunk_size (data_base (data_chunk w))
  <= Z.of_nat (length (data_ (data_chunk w))) ->
  GetSample (SetSample w offset 1) offset = 1%float
  /\ GetSample (SetSample w offset (-1)) offset = (-1)%float
  /\ PrimFloat.ltb (GetSample (SetSample w offset 0) offset) 0 = true.
Proof.
  cbv zeta. intros Hn Hf Hw Ho Hs Hl.
  assert (En : nchannels (fmt_chunk w) = 1 \/ nchannels (fmt_chunk w) = 2)
    by lia.
  pose proof (width_cases _ Hw) as Ew.
  assert (R : forall value,
            double_to_ull
              ((value + 1) / 2
               * ull_to_double
                   (max_thing_value (bytes_per_sample_slice w)))%float
            <= max_thing_value (bytes_per_sample_slice w) ->
            GetSample (SetSample w offset value) offset
            = munge
                (nchannels (fmt_chunk w)
                 * double_to_ull
                     ((value + 1) / 2
                      * ull_to_double
                          (max_thing_value
                             (bytes_per_sample_slice w)))%float)
                (nchannels (fmt_chunk w)) (bytes_per_sample_slice w)).
  { intros value Hmax.
    apply (SetSample_GetSample_level w offset value); try assumption; lia. }
  destruct En as [En|En]; destruct Ew as [Ew|[Ew|Ew]];
    rewrite En, Ew in R;
    (split; [|split]); rewrite R by (vm_compute; discriminate);
    vm_compute; reflexivity.
Qed.

(** ** Values beyond full scale *)

(** Decoding the bytes of an encoded level gives the level modulo the
    range of the slice: nothing clips a level beyond [max_thing_value]. *)
Lemma GetValue_of_encoded_mod (mem : list Z) (things sizeof_thing : Z)
  (thing_is_signed : bool) (value : float) :
  1 <= sizeof_thing <= 3 ->
  slice mem things (Z.to_nat sizeof_thing)
  = le_bytes (encode_thing value sizeof_thing thing_is_signed) 0
      (Z.to_nat sizeof_thing) ->
  GetValue mem things sizeof_thing thing_is_signed
  = double_to_ull
      ((value + 1) / 2
       * ull_to_double (max_thing_value sizeof_thing))%float
    mod 2 ^ (8 * sizeof_thing).
Proof.
  intros Hw Hs.
  unfold GetValue. rewrite GetValue_loop_read_unsigned by lia.
  unfold read_unsigned. rewrite Hs, le_value_le_bytes by lia.
  unfold encode_thing.
  set (level := double_to_ull _) in *.
  pose proof (double_to_ull_range
                ((value + 1) / 2
                 * ull_to_double (max_thing_value sizeof_thing))%float) as Hl.
  fold level in Hl.
  rewrite max_signed_value_small by lia.
  change (2 ^ (8 * 0)) with 1. rewrite !Z.div_1_r.
  rewrite Z2Nat.id by lia.
  unfold to_ull.
  change (2 ^ 64) with 18446744073709551616 in *.
  destruct (width_cases sizeof_thing Hw) as [E|[E|E]]; subst sizeof_thing;
    match goal with
    | |- context [2 ^ (8 * ?k - 1) - 1] =>
        let a := eval vm_compute in (2 ^ (8 * k)) in
        let b := eval vm_compute in (2 ^ (8 * k - 1) - 1) in
        change (2 ^ (8 * k)) with a;
        change (2 ^ (8 * k - 1) - 1) with b
    | |- context [2 ^ (8 * ?k)] =>
        let a := eval vm_compute in (2 ^ (8 * k)) in
        change (2 ^ (8 * k)) with a
    end;
    destruct thing_is_signed;
    repeat match goal with
           | |- context [?a <? ?b] =>
               let E := fresh "E" in
               destruct (a <? b) eqn:E;
               [apply Z.ltb_lt in E | apply Z.ltb_ge in E]
           end;
    Z.to_euclidean_division_equations; lia.
Qed.

Lemma SetSample_GetSample_mod (w : Wave) (offset : Z) (value : float) :
  let width := bytes_per_sample_slice w in
  let n := nchannels (fmt_chunk w) in
  let level :=
    double_to_ull
      ((value + 1) / 2 * ull_to_double (max_thing_value width))%float in
  1 <= n -> n * width <= block_align (fmt_chunk w) -> 1 <= width <= 3 ->
  0 <= offset < nsamples w ->
  chunk_size (data_base (data_chunk w)) < 2 ^ 32 ->
  chunk_size (data_base (data_chunk w))
  <= Z.of_nat (length (data_ (data_chunk w))) ->
  GetSample (SetSample w offset value) offset
  = munge (n * (level mod 2 ^ (8 * width))) n width.
Proof.
  cbv zeta. intros Hn Hf Hw Ho Hs Hl.
  destruct (sample_frame_bounds w offset) as (Hb & Hin & Hseg & Hlt);
    [nia | lia | lia |].
  assert (Hlt' : (nsamples (SetSample w offset value) <=? offset) = false).
  { rewrite (SetSample_in_range w offset value Hlt). exact Hlt. }
  rewrite (GetSample_in_range _ offset Hlt').
  rewrite (SetSample_in_range w offset value Hlt).
  change (bytes_per_sample (with_data w _)) with (bytes_per_sample w).
  change (bytes_per_sample_slice (with_data w _))
    with (bytes_per_sample_slice w).
  cbn [with_data data_chunk data_ fmt_chunk]. rewrite Hseg.
  set (width := bytes_per_sample_slice w) in *.
  set (n := nchannels (fmt_chunk w)) in *.
  set (signed := negb (width =? 1)).
  set (seg := offset * block_align (fmt_chunk w)) in *.
  set (put := PutChannelAvg value (data_ (data_chunk w)) seg n width signed).
  unfold TakeChannelAvg. f_equal.
  set (level := double_to_ull _).
  assert (Hm : 0 <= level mod 2 ^ (8 * width) < 2 ^ 24).
  { assert (0 < 2 ^ (8 * width) <= 2 ^ 24).
    { split; [apply Z.pow_pos_nonneg; lia|].
      apply Z.pow_le_mono_r; lia. }
    pose proof (Z.mod_pos_bound level (2 ^ (8 * width))). lia. }
  rewrite (TakeChannelAvg_loop_const put seg width signed
             (level mod 2 ^ (8 * width)));
    try (rewrite ?Z2Nat.id by lia; nia).
  intros c Hc. rewrite Z2Nat.id in Hc by lia.
  apply GetValue_of_encoded_mod; [exact Hw|].
  apply PutChannelAvg_channel; unfold seg; nia.
Qed.

(** X19.  No clipping.  Whatever the value, as long as its scaled level
    converts to an [unsigned long long] at all, [SetSample] stores the low
    bytes of the encoded level and [GetSample] returns the level reduced
    modulo the range of the slice, mapped back: a value beyond full scale
    is not held at full scale but wraps around. *)
Theorem SetSample_GetSample_wraps (w : Wave) (offset : Z) (value : float) :
  let width := bytes_per_sample_slice w in
  let n := nchannels (fmt_chunk w) in
  let scaled :=
    ((value + 1) / 2 * ull_to_double (max_thing_value width))%float in
  let level := double_to_ull scaled in
  1 <= n -> n * width <= block_align (fmt_chunk w) -> 1 <= width <= 3 ->
  0 <= offset < nsamples w ->
  chunk_size (data_base (data_chunk w)) < 2 ^ 32 ->
  chunk_size (data_base (data_chunk w))
  <= Z.of_nat (length (data_ (data_chunk w))) ->
  ull_representable scaled = true ->
  GetSample (SetSample w offset value) offset
  = munge (n * (level mod 2 ^ (8 * width))) n width
  /\ (max_thing_value width < level ->
      level mod 2 ^ (8 * width) <> level).
Proof.
  cbv zeta. intros Hn Hf Hw Ho Hs Hl _.
  split; [apply SetSample_GetSample_mod; assumption|].
  set (level := double_to_ull _).
  intros Hbig E.
  rewrite max_thing_value_small in Hbig by lia.
  pose proof (Z.mod_pos_bound level (2 ^ (8 * bytes_per_sample_slice w))
                ltac:(apply Z.pow_pos_nonneg; lia)).
  lia.
Qed.

(** ** Slices of four bytes *)

(** The fourth byte is shifted by 24 at [int]: from 128 on the product
    reaches the sign bit, and the conversion to [unsigned long long]
    extends the sign over the upper 32 bits. *)
Lemma int_shl_top_byte (b : Z) :
  0 <= b < 256 ->
  to_ull (int_shl b (to_uint32 (8 * 3)))
  = b * 2 ^ 24 + (if b <? 128 then 0 else 0xFFFFFFFF00000000).
Proof.
  intros Hb. unfold int_shl, to_int, to_ull.
  change (to_uint32 (8 * 3) mod 32) with 24.
  rewrite Z.shiftl_mul_pow2 by lia.
  destruct (Z.ltb_spec b 128).
  - rewrite (Z.mod_small (b * 2 ^ 24 + 2 ^ 31)) by lia.
    rewrite Z.mod_small by lia. lia.
  - replace (b * 2 ^ 24 + 2 ^ 31)
      with (b * 2 ^ 24 - 2 ^ 31 + 1 * 2 ^ 32) by lia.
    rewrite Z.mod_add by lia.
    rewrite (Z.mod_small (b * 2 ^ 24 - 2 ^ 31)) by lia.
    replace (b * 2 ^ 24 - 2 ^ 31 - 2 ^ 31)
      with (b * 2 ^ 24 + 0xFFFFFFFF00000000 + (-1) * 2 ^ 64) by lia.
    rewrite Z.mod_add by lia.
    apply Z.mod_small. lia.
Qed.

Lemma GetValue_loop_snoc (mem : list Z) (things : Z) (n : nat)
  (i answer : Z) :
  GetValue_loop mem things (S n) i answer
  = Z.lor (GetValue_loop mem things n i answer)
      (to_ull
         (int_shl (to_uchar (array_get mem (things + (i + Z.of_nat n))))
            (to_uint32 (8 * (i + Z.of_nat n))))).
Proof.
  revert i answer. induction n as [|n IH]; intros i answer.
  - cbn [GetValue_loop]. rewrite Z.add_0_r. reflexivity.
  - change (GetValue_loop mem things (S (S n)) i answer)
      with (GetValue_loop mem things (S n) (i + 1)
              (Z.lor answer
                 (to_ull
                    (int_shl (to_uchar (array_get mem (things + i)))
                       (to_uint32 (8 * i)))))).
    rewrite IH. cbn [GetValue_loop].
    replace (i + 1 + Z.of_nat n) with (i + Z.of_nat (S n)) by lia.
    reflexivity.
Qed.

Lemma le_value_slice_snoc (mem : list Z) (from : Z) (n : nat) :
  le_value (slice mem from (S n))
  = le_value (slice mem from n)
    + 2 ^ (8 * Z.of_nat n) * to_uchar (array_get mem (from + Z.of_nat n)).
Proof.
  revert from. induction n as [|n IH]; intros from.
  - cbn [slice le_value]. change (Z.of_nat 0) with 0.
    rewrite !Z.add_0_r. change (2 ^ (8 * 0)) with 1. lia.
  - change (slice mem from (S (S n)))
      with (to_uchar (array_get mem from) :: slice mem (from + 1) (S n)).
    cbn [le_value]. rewrite IH. cbn [slice le_value].
    replace (from + 1 + Z.of_nat n) with (from + Z.of_nat (S n)) by lia.
    replace (8 * Z.of_nat (S n)) with (8 + 8 * Z.of_nat n) by lia.
    rewrite Z.pow_add_r by lia. change (2 ^ 8) with 256. ring.
Qed.

(** What the loop of [GetValue] assembles from four bytes. *)
Lemma GetValue_loop_4 (mem : list Z) (things : Z) :
  GetValue_loop mem things 4 0 0
  = read_unsigned mem things 4
    + (if read_unsigned mem things 4 <? 2 ^ 31 then 0
       else 0xFFFFFFFF00000000).
Proof.
  rewrite GetValue_loop_snoc.
  pose proof (GetValue_loop_read_unsigned mem things 3 ltac:(lia)) as E3.
  unfold read_unsigned in *. change (Z.to_nat 4) with 4%nat.
  change (Z.to_nat 3) with 3%nat in E3. rewrite E3. clear E3.
  rewrite (le_value_slice_snoc mem things 3).
  pose proof (le_value_range mem things 3) as Hlow.
  change (2 ^ (8 * Z.of_nat 3)) with (2 ^ 24) in *.
  change (0 + Z.of_nat 3) with 3. change (Z.of_nat 3) with 3.
  pose proof (to_uchar_range (array_get mem (things + 3))) as Hb.
  rewrite int_shl_top_byte by exact Hb.
  set (low := le_value (slice mem things 3)) in *.
  set (b := to_uchar (array_get mem (things + 3))) in *.
  destruct (Z.ltb_spec b 128); destruct (Z.ltb_spec (low + 2 ^ 24 * b)
                                           (2 ^ 31)); try lia.
  - rewrite Z.add_0_r. rewrite lor_shifted by lia. lia.
  - replace (b * 2 ^ 24 + 0xFFFFFFFF00000000)
      with ((b + 0xFFFFFFFF00) * 2 ^ 24) by lia.
    rewrite lor_shifted by lia. lia.
Qed.

(** X16.  Slices of four bytes.  [GetValue] reads a 32-bit slice correctly
    exactly when its top bit is clear.  When the top bit is set, the shift
    of the fourth byte at [int] extends the sign: the value assembled is
    the unsigned value of the slice plus 0xFFFFFFFF00000000, and the signed
    decoding, instead of the value less 2^31, gives that much more. *)
Theorem GetValue_four_bytes (mem : list Z) (things : Z) :
  let raw := read_unsigned mem things 4 in
  0 <= raw < 2 ^ 32
  /\ max_thing_value 4 = 2 ^ 32 - 1
  /\ max_signed_value 4 = 2 ^ 31 - 1
  /\ GetValue mem things 4 false
     = (if raw <? 2 ^ 31 then raw else raw + 0xFFFFFFFF00000000)
  /\ GetValue mem things 4 true
     = (if raw <? 2 ^ 31 then raw + 2 ^ 31
        else raw - 2 ^ 31 + 0xFFFFFFFF00000000).
Proof.
  cbv zeta.
  pose proof (read_unsigned_range mem things 4 ltac:(lia)) as Hr.
  change (2 ^ (8 * 4)) with (2 ^ 32) in Hr.
  split; [exact Hr|]. split; [reflexivity|]. split; [reflexivity|].
  unfold GetValue. change (Z.to_nat 4) with 4%nat.
  rewrite GetValue_loop_4.
  change (max_signed_value 4) with (2 ^ 31 - 1).
  set (raw := read_unsigned mem things 4) in *.
  unfold to_ull.
  destruct (Z.ltb_spec raw (2 ^ 31)).
  - split; [lia|].
    destruct (Z.ltb_spec (2 ^ 31 - 1) (raw + 0)); [lia|].
    rewrite (Z.mod_small (2 ^ 31 - 1 + 1)) by lia.
    rewrite Z.mod_small by lia. lia.
  - split; [reflexivity|].
    destruct (Z.ltb_spec (2 ^ 31 - 1) (raw + 0xFFFFFFFF00000000)); [|lia].
    rewrite (Z.mod_small (2 ^ 31 - 1 + 1)) by lia.
    rewrite Z.mod_small by lia. lia.
Qed.

(** ** Sessions: load, edit, save, load again *)

Lemma Load_loop_tags (fuel : nat) (file : istream) (w : Wave)
  (cerr : list string) (r : Wave * list string) :
  Wave_tags w ->
  Load_loop fuel true file w cerr = Some r -> Wave_tags (fst r).
Proof.
  revert file w cerr. induction fuel as [|fuel IH]; intros file w cerr Hw H;
    [discriminate|].
  cbn [Load_loop] in H.
  destruct (in_good file); [|inversion H; exact Hw].
  pose proof (ReadLittleEndian_range 4 file ltac:(lia)) as Rt.
  destruct (ReadLittleEndian 4 file) as [type file1]. cbn [fst] in Rt.
  destruct (negb (in_good file1)); [inversion H; exact Hw|].
  destruct Hw as (Hr & Hrt & Hf & Hd & Ho).
  destruct (type =? CHUNK_TYPE_FMT) eqn:Ef.
  { assert (Hf' : chunk_type
                    (fmt_base (fst (fst (FmtChunk_ReadFrom file1
                                           (fmt_chunk w)))))
                  = CHUNK_TYPE_FMT).
    { unfold FmtChunk_ReadFrom, Chunk_ReadFrom.
      repeat match goal with
             | |- context [ReadLittleEndian ?n ?s] =>
                 destruct (ReadLittleEndian n s) as [? ?]
             end.
      exact Hf. }
    destruct (FmtChunk_ReadFrom file1 (fmt_chunk w)) as [[f file2] msgs].
    apply IH in H; [exact H|].
    split; [exact Hr|]. split; [exact Hrt|]. split; [exact Hf'|].
    split; [exact Hd | exact Ho]. }
  destruct (type =? CHUNK_TYPE_DATA) eqn:Ed.
  { assert (Hd' : chunk_type
                    (data_base (fst (DataChunk_ReadFrom file1
                                       (data_chunk w))))
                  = CHUNK_TYPE_DATA).
    { rewrite DataChunk_ReadFrom_unfold. exact Hd. }
    destruct (DataChunk_ReadFrom file1 (data_chunk w)) as [d file2].
    apply IH in H; [exact H|].
    split; [exact Hr|]. split; [exact Hrt|]. split; [exact Hf|].
    split; [exact Hd' | exact Ho]. }
  pose proof (DataChunk_ReadFrom_inv file1 (DataChunk_of_type type) Rt)
    as Hc.
  assert (Hty : chunk_type
                  (data_base (fst (DataChunk_ReadFrom file1
                                     (DataChunk_of_type type))))
                = type).
  { rewrite DataChunk_ReadFrom_unfold. reflexivity. }
  destruct (DataChunk_ReadFrom file1 (DataChunk_of_type type))
    as [chunk file2]. cbn [fst] in Hc, Hty.
  apply IH in H; [exact H|].
  split; [exact Hr|]. split; [exact Hrt|]. split; [exact Hf|].
  split; [exact Hd|].
  cbn [with_others other_chunks]. unfold push_back.
  apply Forall_app. split; [exact Ho|]. constructor; [|constructor].
  rewrite DataChunk_copy_id; [| apply Hc | apply Hc].
  rewrite Hty. apply Z.eqb_neq in Ef, Ed. split; assumption.
Qed.

Lemma Load_tags (w0 w : Wave) (filename : string)
  (contents : option (list Z)) (cerr : list string) :
  Wave_tags w0 ->
  Load w0 filename contents = Some (w, cerr) ->
  riff_type (riff_chunk w) = RIFF_TYPE_WAVE ->
  Wave_tags w.
Proof.
  intros Ht H Hty. unfold Load in H.
  destruct (negb (in_good (open_in contents)));
    [inversion H; subst; exact Ht|].
  unfold Load_file in H.
  destruct (ReadLittleEndian 4 (open_in contents)) as [type file1].
  destruct (negb (type =? CHUNK_TYPE_RIFF)); [inversion H; subst; exact Ht|].
  rewrite RiffChunk_ReadFrom_unfold in H. cbv zeta in H.
  destruct Ht as (Hr & _ & Hf & Hd & Ho).
  match type of H with
  | (if ?c then _ else _) = _ => destruct c eqn:Ec
  end.
  - inversion H. subst w cerr.
    split; [exact Hr|]. split; [exact Hty|]. split; [exact Hf|].
    split; [exact Hd | exact Ho].
  - apply orb_false_elim in Ec. destruct Ec as (Ew & _).
    apply negb_false_iff, Z.eqb_eq in Ew.
    apply (Load_loop_tags _ _ _ _ _) in H; [exact H|].
    split; [exact Hr|]. split; [exact Ew|]. split; [exact Hf|].
    split; [exact Hd | exact Ho].
Qed.

(** X18.  What [Load] reads, [Save] writes back in a form that [Load] reads
    again.  Whatever the file, if a load leaves the container with the
    "WAVE" tag, then saving that container and loading the bytes written
    into a fresh [Wave] gives the container as the save left it: the same
    audio bytes and the same extra chunks, in the same order. *)
Theorem Load_Save_Load (w0 w : Wave) (filename : string)
  (contents : option (list Z)) (cerr : list string) :
  Wave_inv w0 -> Wave_tags w0 ->
  Load w0 filename contents = Some (w, cerr) ->
  riff_type (riff_chunk w) = RIFF_TYPE_WAVE ->
  let saved := fst (fst (Save w filename true)) in
  Load Wave_new filename (snd (fst (Save w filename true)))
  = Some (saved,
          if compression (fmt_chunk w) =? 1 then [] else [compressed_warning])
  /\ data_chunk saved = data_chunk w
  /\ other_chunks saved = other_chunks w.
Proof.
  intros Hinv Ht H Hty. cbv zeta.
  assert (Hw : Wave_inv w).
  { destruct (Load_inv w0 filename contents Hinv) as (w' & c' & E & I).
    rewrite H in E. inversion E. subst. exact I. }
  pose proof (Load_tags w0 w filename contents cerr Ht H Hty) as Tw.
  rewrite (Load_saved_into w Wave_new filename Hw Tw Wave_new_tags).
  cbn [Wave_new other_chunks app]. rewrite Wave_eta.
  destruct (Save_frame w filename) as (Eo & Ed & _). cbv zeta in Eo, Ed.
  split; [reflexivity|]. split; assumption.
Qed.

(** ** The session of the usage note *)

Lemma GetSample_ext (a b : Wave) (offset : Z) :
  fmt_chunk a = fmt_chunk b -> data_chunk a = data_chunk b ->
  nsamples a = nsamples b /\ GetSample a offset = GetSample b offset.
Proof.
  destruct a, b. cbn [fmt_chunk data_chunk]. intros -> ->.
  split; reflexivity.
Qed.

Lemma Resize_tags (new_nsamples : Z) (w : Wave) :
  Wave_tags w -> Wave_tags (Resize new_nsamples w).
Proof. intros H. exact H. Qed.

Lemma SetSample_tags (w : Wave) (offset : Z) (value : float) :
  Wave_tags w -> Wave_tags (SetSample w offset value).
Proof.
  intros (Hr & Hrt & Hf & Hd & Ho).
  destruct (SetSample_frame w offset value) as (Er & Ef & Eo & Eb & _).
  cbv zeta in *. unfold Wave_tags. rewrite Er, Ef, Eo, Eb.
  repeat split; assumption.
Qed.

(** A run of [SetSample] calls keeps the invariant, the type codes, the
    Format chunk and the extra chunks. *)
Lemma SetSample_run (writes : list (Z * float)) (w : Wave) :
  Wave_inv w -> Wave_tags w ->
  let edited :=
    fold_left (fun w p => SetSample w (fst p) (snd p)) writes w in
  Wave_inv edited /\ Wave_tags edited
  /\ fmt_chunk edited = fmt_chunk w
  /\ other_chunks edited = other_chunks w
  /\ data_base (data_chunk edited) = data_base (data_chunk w).
Proof.
  cbv zeta. revert w.
  induction writes as [|[offset value] writes IH]; intros w Hi Ht;
    cbn [fold_left fst snd];
    [split; [exact Hi|]; split; [exact Ht|]; repeat split|].
  destruct (IH (SetSample w offset value)) as (I & T & Ef & Eo & Eb);
    [apply SetSample_inv; exact Hi | apply SetSample_tags; exact Ht|].
  destruct (SetSample_frame w offset value) as (_ & Ef' & Eo' & Eb' & _).
  cbv zeta in *.
  split; [exact I|]. split; [exact T|].
  rewrite Ef, Eo, Eb. repeat split; assumption.
Qed.

Lemma UpdateFmtValues_again (w w' : Wave) :
  fmt_chunk w' = fmt_chunk (UpdateFmtValues w) ->
  fmt_chunk (UpdateFmtValues w') = fmt_chunk w'.
Proof.
  intros H. unfold UpdateFmtValues at 1. cbn [with_fmt fmt_chunk].
  rewrite H. unfold UpdateFmtValues. cbn [with_fmt fmt_chunk].
  cbn [fmt_base compression nchannels sample_rate bits_per_sample].
  reflexivity.
Qed.

(** A run of defined [SetSample] calls. *)
Lemma GetSample_defined_run (writes : list (Z * float)) (w : Wave) (i : Z) :
  GetSample_defined
    (fold_left (fun w p => SetSample w (fst p) (snd p)) writes w) i
  = GetSample_defined w i.
Proof.
  revert w. induction writes as [|[offset value] writes IH]; intros w;
    cbn [fold_left fst snd]; [reflexivity|].
  rewrite IH. apply GetSample_defined_SetSample.
Qed.

(** X17.  The session of the usage note at the head of [wave.h]: resize,
    set samples, save.  Where the session is defined ([Resize] deletes no
    array twice and leaves the pointer off a deleted array, every
    [SetSample] takes an offset of its parameter's type, stays inside the
    array and converts a value that can be converted), the Format values
    are consistent after
    [Resize], so that the save changes nothing the samples depend on:
    loading the file written into a new [Wave] deletes nothing and gives a
    container with the Format chunk and the audio bytes of the edited one,
    in which every sample that can be read reads as it did before the
    save. *)
Theorem Resize_SetSample_Save_Load (w : Wave) (new_nsamples : Z)
  (writes : list (Z * float)) (filename : string) (p p' : pointer) :
  Wave_inv w -> Wave_tags w ->
  Resize_pointer new_nsamples w p = Some p' -> p' <> deleted ->
  SetSamples_defined (Resize new_nsamples w) writes = true ->
  let edited :=
    fold_left (fun w p => SetSample w (fst p) (snd p)) writes
      (Resize new_nsamples w) in
  let saved := fst (fst (Save edited filename true)) in
  let file := snd (fst (Save edited filename true)) in
  Wave_inv edited
  /\ Load Wave_new filename file
     = Some (saved,
             if compression (fmt_chunk w) =? 1 then []
             else [compressed_warning])
  /\ (exists q, Load_pointer true null file = Some q /\ q <> deleted)
  /\ fmt_chunk saved = fmt_chunk edited
  /\ data_chunk saved = data_chunk edited
  /\ other_chunks saved = other_chunks w
  /\ nsamples saved = nsamples (Resize new_nsamples w)
  /\ forall offset,
       GetSample_defined saved offset = GetSample_defined edited offset
       /\ (GetSample_defined edited offset = true ->
           GetSample saved offset = GetSample edited offset).
Proof.
  intros Hi Ht _ _ _. cbv zeta.
  destruct (SetSample_run writes (Resize new_nsamples w))
    as (I & T & Ef & Eo & Eb);
    [apply Resize_inv; exact Hi | apply Resize_tags; exact Ht |].
  cbv zeta in *.
  set (edited := fold_left _ writes (Resize new_nsamples w)) in *.
  destruct (Save_frame edited filename) as (So & Sd & Sw).
  cbv zeta in So, Sd, Sw.
  assert (Sf : fmt_chunk (fst (fst (Save edited filename true)))
               = fmt_chunk edited).
  { rewrite Sw.
    apply (UpdateFmtValues_again w (UpdateRiffFileSize edited)).
    exact Ef. }
  split; [exact I|].
  split.
  { rewrite (Load_saved_into edited Wave_new filename I T Wave_new_tags).
    cbn [Wave_new other_chunks app]. rewrite Wave_eta.
    rewrite Ef. reflexivity. }
  split; [apply Load_pointer_saved; assumption|].
  split; [exact Sf|]. split; [exact Sd|].
  split; [rewrite So; exact Eo|].
  split.
  - rewrite !nsamples_div, Sf, Sd, Ef, Eb. reflexivity.
  - intros offset. split.
    + apply GetSample_defined_ext; [exact Sf | rewrite Sd | rewrite Sd];
        reflexivity.
    + intros _. apply GetSample_ext; assumption.
Qed.

(** * Properties of [wave.cpp] *)

(** ** Arrays of [double] and the loops over them *)

Lemma read_double_nth (a : list float) (i : Z) :
  0 <= i < Z.of_nat (length a) ->
  read_double a i = Some (nth (Z.to_nat i) a 0%float).
Proof.
  intros H. unfold read_double.
  destruct (Z.ltb_spec i 0); [lia|].
  apply nth_error_nth'. lia.
Qed.

Lemma read_double_outside (a : list float) (i : Z) :
  i < 0 \/ Z.of_nat (length a) <= i -> read_double a i = None.
Proof.
  intros H. unfold read_double.
  destruct (Z.ltb_spec i 0); [reflexivity|].
  apply nth_error_None. lia.
Qed.

Lemma fill_loop_defined (body : Z -> option float) (g : Z -> float)
  (n s : nat) :
  (forall k, (s <= k < s + n)%nat -> body (Z.of_nat k) = Some (g (Z.of_nat k)))
  -> fill_loop body n (Z.of_nat s)
     = Some (map (fun k => g (Z.of_nat k)) (seq s n)).
Proof.
  revert s. induction n as [|n IH]; intros s H; cbn [fill_loop seq map];
    [reflexivity|].
  rewrite H by lia.
  replace (Z.of_nat s + 1) with (Z.of_nat (S s)) by lia.
  rewrite IH; [reflexivity|].
  intros k Hk. apply H. lia.
Qed.

Lemma fill_loop_undefined (body : Z -> option float) (n : nat) (i k : Z) :
  i <= k < i + Z.of_nat n -> body k = None -> fill_loop body n i = None.
Proof.
  revert i. induction n as [|n IH]; intros i Hk Hb; [lia|].
  cbn [fill_loop].
  destruct (body i) eqn:E; [|reflexivity].
  rewrite IH; [reflexivity| |exact Hb].
  destruct (Z.eq_dec k i) as [->|]; [congruence | lia].
Qed.

Lemma new_filled_defined (n : Z) (body : Z -> option float)
  (g : Z -> float) :
  0 <= n ->
  (forall k, 0 <= k < n -> body k = Some (g k)) ->
  new_filled n body
  = Some (map (fun k => g (Z.of_nat k)) (seq 0 (Z.to_nat n))).
Proof.
  intros Hn H. unfold new_filled.
  destruct (Z.ltb_spec n 0); [lia|].
  apply (fill_loop_defined body g (Z.to_nat n) 0).
  intros k Hk. apply H. lia.
Qed.

Lemma new_filled_undefined (n : Z) (body : Z -> option float) (k : Z) :
  0 <= k < n -> body k = None -> new_filled n body = None.
Proof.
  intros Hk Hb. unfold new_filled.
  destruct (Z.ltb_spec n 0); [reflexivity|].
  apply (fill_loop_undefined body (Z.to_nat n) 0 k); [lia | exact Hb].
Qed.

(** The elements of a filled array. *)
Lemma nth_filled (g : Z -> float) (n i : nat) :
  (i < n)%nat ->
  nth i (map (fun k => g (Z.of_nat k)) (seq 0 n)) 0%float = g (Z.of_nat i).
Proof.
  intros H.
  rewrite (nth_indep _ 0%float (g (Z.of_nat 0)))
    by (rewrite length_map, length_seq; exact H).
  rewrite (map_nth (fun k => g (Z.of_nat k))).
  rewrite seq_nth by exact H. reflexivity.
Qed.

(** ** reverse *)

(** X21.  The loop of [reverse].  Run with a length within the array it
    gives the samples up to that length in reverse order, and never reads
    outside the array; run with the true length it gives the whole array
    reversed, and twice in a row the array it started from.  With a length
    beyond the array it has no defined result. *)
Theorem reverse_samples_rev (old_samples : list float) (n : Z) :
  (0 <= n <= Z.of_nat (length old_samples) ->
   reverse_samples old_samples n
   = Some (rev (firstn (Z.to_nat n) old_samples), n))
  /\ (Z.of_nat (length old_samples) < n ->
      reverse_samples old_samples n = None)
  /\ reverse_samples old_samples (Z.of_nat (length old_samples))
     = Some (rev old_samples, Z.of_nat (length old_samples))
  /\ reverse_samples (rev old_samples) (Z.of_nat (length old_samples))
     = Some (old_samples, Z.of_nat (length old_samples)).
Proof.
  assert (R : forall (l : list float) (m : Z),
            0 <= m <= Z.of_nat (length l) ->
            reverse_samples l m = Some (rev (firstn (Z.to_nat m) l), m)).
  { intros l m Hm. unfold reverse_samples.
    rewrite (new_filled_defined m _
               (fun k => nth (Z.to_nat (m - 1 - k)) l 0%float));
      [|lia|intros k Hk; apply read_double_nth; lia].
    f_equal. f_equal.
    apply (nth_ext _ _ 0%float 0%float).
    - rewrite length_map, length_seq, length_rev, length_firstn. lia.
    - intros i Hi. rewrite length_map, length_seq in Hi.
      rewrite (nth_filled (fun k => nth (Z.to_nat (m - 1 - k)) l 0%float))
        by exact Hi.
      rewrite rev_nth by (rewrite length_firstn; lia).
      rewrite length_firstn.
      rewrite nth_firstn.
      replace (Nat.min (Z.to_nat m) (length l) - S i <? Z.to_nat m)%nat
        with true by (symmetry; apply Nat.ltb_lt; lia).
      f_equal. lia. }
  assert (W : forall l : list float,
            reverse_samples l (Z.of_nat (length l))
            = Some (rev l, Z.of_nat (length l))).
  { intros l. rewrite R by lia. rewrite Nat2Z.id, firstn_all.
    reflexivity. }
  split; [apply R|]. split.
  - intros Hn. unfold reverse_samples.
    rewrite (new_filled_undefined n _ 0); [reflexivity | lia |].
    apply read_double_outside. lia.
  - split; [apply W|].
    rewrite <- (length_rev old_samples) at 1 2.
    rewrite W, rev_involutive, length_rev. reflexivity.
Qed.

(** ** faster, slower *)

Lemma filled_from_array (l : list float) :
  map (fun k => nth (Z.to_nat (Z.of_nat k)) l 0%float) (seq 0 (length l)) = l.
Proof.
  apply (nth_ext _ _ 0%float 0%float).
  - rewrite length_map, length_seq. reflexivity.
  - intros i Hi. rewrite length_map, length_seq in Hi.
    rewrite (nth_filled (fun k => nth (Z.to_nat k) l 0%float)) by exact Hi.
    rewrite Nat2Z.id. reflexivity.
Qed.

Lemma faster_samples_defined (old_samples : list float) (n : Z) :
  0 <= n <= Z.of_nat (length old_samples) ->
  faster_samples old_samples n
  = Some (map (fun k => nth (Z.to_nat (Z.of_nat k * 2)) old_samples 0%float)
            (seq 0 (Z.to_nat (n / 2))),
          n / 2).
Proof.
  intros Hn. unfold faster_samples.
  rewrite Z.quot_div_nonneg by lia.
  pose proof (Z.mul_div_le n 2 ltac:(lia)).
  pose proof (Z.div_pos n 2 ltac:(lia) ltac:(lia)).
  rewrite (new_filled_defined (n / 2) _
             (fun k => nth (Z.to_nat (k * 2)) old_samples 0%float));
    [reflexivity | lia |].
  intros k Hk. apply read_double_nth. lia.
Qed.

(** X22.  The loop of [faster], run with the true length of the array,
    never reads outside it and keeps the samples of even index: half as
    many as before, the last one of an odd count being dropped. *)
Theorem faster_samples_even (old_samples : list float) :
  let n := Z.of_nat (length old_samples) in
  exists new_samples,
    faster_samples old_samples n = Some (new_samples, n / 2)
    /\ Z.of_nat (length new_samples) = n / 2
    /\ forall i, (i < length new_samples)%nat ->
         nth i new_samples 0%float = nth (2 * i) old_samples 0%float.
Proof.
  cbv zeta. eexists. split; [apply faster_samples_defined; lia|].
  pose proof (Z.div_pos (Z.of_nat (length old_samples)) 2
                ltac:(lia) ltac:(lia)).
  split; [rewrite length_map, length_seq; lia|].
  intros i Hi. rewrite length_map, length_seq in Hi.
  rewrite (nth_filled
             (fun k => nth (Z.to_nat (k * 2)) old_samples 0%float))
    by exact Hi.
  f_equal. lia.
Qed.

(** X23.  The loop of [slower], run with the true length of the array.
    When twice the length overflows [int] it has no defined result;
    otherwise it never reads outside the array and gives every sample
    twice in a row, so that the loop of [faster] on its result gives back
    the array it started from. *)
Theorem slower_samples_twice (old_samples : list float) :
  let n := Z.of_nat (length old_samples) in
  (2 ^ 31 <= n * 2 -> slower_samples old_samples n = None)
  /\ (n * 2 < 2 ^ 31 ->
      exists new_samples,
        slower_samples old_samples n = Some (new_samples, n * 2)
        /\ length new_samples = (2 * length old_samples)%nat
        /\ (forall i, (i < length new_samples)%nat ->
              nth i new_samples 0%float
              = nth (i / 2) old_samples 0%float)
        /\ faster_samples new_samples (n * 2) = Some (old_samples, n)).
Proof.
  cbv zeta. split.
  { intros Hbig. unfold slower_samples, int_checked.
    destruct (Z.ltb_spec (Z.of_nat (length old_samples) * 2) (2 ^ 31));
      [lia|].
    rewrite andb_false_r. reflexivity. }
  intros Hsmall.
  set (n := Z.of_nat (length old_samples)) in *.
  assert (Hs : slower_samples old_samples n
               = Some (map (fun k =>
                              nth (Z.to_nat (Z.of_nat k / 2)) old_samples
                                0%float)
                         (seq 0 (Z.to_nat (n * 2))),
                       n * 2)).
  { unfold slower_samples, int_checked.
    destruct (Z.leb_spec (- 2 ^ 31) (n * 2)); [|lia].
    destruct (Z.ltb_spec (n * 2) (2 ^ 31)); [|lia].
    cbn [andb].
    rewrite (new_filled_defined (n * 2) _
               (fun k => nth (Z.to_nat (k / 2)) old_samples 0%float));
      [reflexivity | lia |].
    intros k Hk. rewrite Z.quot_div_nonneg by lia.
    apply read_double_nth.
    pose proof (Z.div_pos k 2 ltac:(lia) ltac:(lia)).
    assert (k / 2 < n) by (apply Z.div_lt_upper_bound; lia).
    unfold n in *. lia. }
  eexists. split; [exact Hs|].
  assert (Hnth : forall i, (i < Z.to_nat (n * 2))%nat ->
            nth i (map (fun k =>
                          nth (Z.to_nat (Z.of_nat k / 2)) old_samples
                            0%float)
                     (seq 0 (Z.to_nat (n * 2)))) 0%float
            = nth (i / 2) old_samples 0%float).
  { intros i Hi.
    rewrite (nth_filled
               (fun k => nth (Z.to_nat (k / 2)) old_samples 0%float))
      by exact Hi.
    f_equal. rewrite <- (Nat2Z.id (i / 2)). f_equal.
    rewrite Nat2Z.inj_div. reflexivity. }
  split; [rewrite length_map, length_seq; unfold n; lia|].
  split; [intros i Hi; rewrite length_map, length_seq in Hi;
          apply Hnth; exact Hi|].
  rewrite faster_samples_defined
    by (rewrite length_map, length_seq; unfold n; lia).
  rewrite Z.div_mul by lia.
  f_equal. f_equal.
  transitivity
    (map (fun k => nth (Z.to_nat (Z.of_nat k)) old_samples 0%float)
       (seq 0 (length old_samples)));
    [|apply filled_from_array].
  unfold n. rewrite Nat2Z.id.
  apply map_ext_in. intros k Hk. apply in_seq in Hk.
  rewrite Hnth by (unfold n; lia).
  f_equal. rewrite Nat2Z.id.
  replace (Z.to_nat (Z.of_nat k * 2)) with (k * 2)%nat by lia.
  apply Nat.div_mul. lia.
Qed.

(** ** echo *)

(** On an array shorter than the delay the loop of [echo] reads
    [old_samples[i]] for [i] from the length on. *)
Lemma echo_samples_short (old_samples : list float) :
  Z.of_nat (length old_samples) < echo_delay ->
  echo_samples old_samples (Z.of_nat (length old_samples)) = None.
Proof.
  intros Hshort. set (n := Z.of_nat (length old_samples)) in *.
  assert (Hd : echo_delay = 10000) by reflexivity.
  unfold echo_samples, int_checked.
  destruct (Z.leb_spec (- 2 ^ 31) (n + echo_delay)); [|lia].
  destruct (Z.ltb_spec (n + echo_delay) (2 ^ 31)); [|lia].
  cbn [andb].
  rewrite (new_filled_undefined (n + echo_delay) _ n);
    [reflexivity | lia |].
  unfold echo_body.
  destruct (Z.leb_spec echo_delay n); [lia|]. cbn [andb].
  apply read_double_outside. fold n. lia.
Qed.

(** X24.  The loop of [echo], run with the true length of the array.  A
    recording shorter than the delay of 10000 samples makes the third case
    of the loop read past the end of the array ([old_samples[i]] for [i]
    from the length on): the run has no defined result.  From 10000 samples
    on, and as long as the new length fits [int], the loop never reads
    outside the array and gives the recording followed by 10000 samples of
    echo: the first 10000 samples as they were, then the average of the
    sample and 0.8 times the one 10000 earlier, then the echo alone. *)
Theorem echo_samples_bounds (old_samples : list float) :
  let n := Z.of_nat (length old_samples) in
  let old i := nth (Z.to_nat i) old_samples 0%float in
  (n < echo_delay -> echo_samples old_samples n = None)
  /\ (echo_delay <= n -> n + echo_delay < 2 ^ 31 ->
      exists new_samples,
        echo_samples old_samples n = Some (new_samples, n + echo_delay)
        /\ Z.of_nat (length new_samples) = n + echo_delay
        /\ forall i, 0 <= i < n + echo_delay ->
             nth (Z.to_nat i) new_samples 0%float
             = if i <? echo_delay then old i
               else if i <? n
                    then ((old i
                           + echo_intensity * old (i - echo_delay)%Z)
                          / 2)%float
                    else (echo_intensity * old (i - echo_delay)%Z)%float).
Proof.
  cbv zeta. set (n := Z.of_nat (length old_samples)).
  assert (Hd : echo_delay = 10000) by reflexivity.
  split; [apply echo_samples_short|].
  intros Hlong Hfit.
  set (g := fun i =>
              if (echo_delay <=? i) && (i <? n)
              then ((nth (Z.to_nat i) old_samples 0
                     + echo_intensity
                       * nth (Z.to_nat (i - echo_delay)%Z) old_samples 0)
                    / 2)%float
              else if (echo_delay <=? i) && (n <=? i)
                   then (echo_intensity
                         * nth (Z.to_nat (i - echo_delay)%Z) old_samples
                             0)%float
                   else nth (Z.to_nat i) old_samples 0%float).
  assert (He : echo_samples old_samples n
               = Some (map (fun k => g (Z.of_nat k))
                         (seq 0 (Z.to_nat (n + echo_delay))),
                       n + echo_delay)).
  { unfold echo_samples, int_checked.
    destruct (Z.leb_spec (- 2 ^ 31) (n + echo_delay)); [|lia].
    destruct (Z.ltb_spec (n + echo_delay) (2 ^ 31)); [|lia].
    cbn [andb].
    rewrite (new_filled_defined (n + echo_delay) _ g);
      [reflexivity | lia |].
    intros k Hk. unfold echo_body, g.
    destruct (Z.leb_spec echo_delay k); destruct (Z.ltb_spec k n);
      destruct (Z.leb_spec n k); cbn [andb]; try lia.
    - rewrite !read_double_nth by (fold n; lia). reflexivity.
    - rewrite !read_double_nth by (fold n; lia). reflexivity.
    - apply read_double_nth. fold n. lia. }
  eexists. split; [exact He|].
  split; [rewrite length_map, length_seq; lia|].
  intros i Hi.
  rewrite (nth_filled g) by lia. rewrite Z2Nat.id by lia.
  unfold g.
  destruct (Z.leb_spec echo_delay i); destruct (Z.ltb_spec i echo_delay);
    destruct (Z.ltb_spec i n); destruct (Z.leb_spec n i);
    cbn [andb]; try lia; reflexivity.
Qed.

(** ** amp_up, amp_down *)

Lemma read_double_middle (done todo : list float) (x : float) :
  read_double (done ++ x :: todo) (Z.of_nat (length done)) = Some x.
Proof.
  unfold read_double.
  destruct (Z.ltb_spec (Z.of_nat (length done)) 0); [lia|].
  rewrite Nat2Z.id, nth_error_app2 by lia.
  rewrite Nat.sub_diag. reflexivity.
Qed.

Lemma write_double_middle (done todo : list float) (x v : float) :
  write_double (done ++ x :: todo) (Z.of_nat (length done)) v
  = Some ((done ++ [v]) ++ todo).
Proof.
  unfold write_double. rewrite length_app. cbn [length].
  destruct (Z.leb_spec 0 (Z.of_nat (length done))); [|lia].
  destruct (Z.ltb_spec (Z.of_nat (length done))
              (Z.of_nat (length done + S (length todo)))); [|lia].
  cbn [andb]. rewrite Nat2Z.id.
  rewrite firstn_app, Nat.sub_diag, firstn_all. cbn [firstn].
  rewrite app_nil_r.
  rewrite skipn_app, skipn_all2 by lia.
  replace (S (length done) - length done)%nat with 1%nat by lia.
  cbn [skipn app]. rewrite <- app_assoc. reflexivity.
Qed.

Lemma write_double_outside (a : list float) (i : Z) (v : float) :
  i < 0 \/ Z.of_nat (length a) <= i -> write_double a i v = None.
Proof.
  intros H. unfold write_double.
  destruct (Z.leb_spec 0 i); destruct (Z.ltb_spec i (Z.of_nat (length a)));
    cbn [andb]; try reflexivity; lia.
Qed.

Lemma amp_loop_map (factor : float) (todo done : list float) :
  amp_loop factor (length todo) (Z.of_nat (length done)) (done ++ todo)
  = Some (done ++ map (fun x => (factor * x)%float) todo).
Proof.
  revert done. induction todo as [|x todo IH]; intros done;
    cbn [length amp_loop map]; [reflexivity|].
  rewrite read_double_middle, write_double_middle.
  replace (Z.of_nat (length done) + 1)
    with (Z.of_nat (length (done ++ [(factor * x)%float])))
    by (rewrite length_app; cbn [length]; lia).
  rewrite IH. rewrite <- app_assoc. reflexivity.
Qed.

(** X25.  The loop of [amp_up] and [amp_down], run with the true length of
    the array, never leaves the array and multiplies every sample by the
    factor, once; nothing holds the product within [-1, 1].  Run with a
    length one more than the array holds, it has no defined result. *)
Theorem amp_samples_map (factor : float) (old_samples : list float) :
  amp_samples factor old_samples (Z.of_nat (length old_samples))
  = Some (map (fun x => (factor * x)%float) old_samples,
          Z.of_nat (length old_samples))
  /\ amp_samples factor old_samples (Z.of_nat (length old_samples) + 1)
     = None.
Proof.
  split.
  - unfold amp_samples.
    destruct (Z.ltb_spec (Z.of_nat (length old_samples)) 0); [lia|].
    rewrite Nat2Z.id.
    pose proof (amp_loop_map factor old_samples []) as A.
    cbn [length app] in A. change (Z.of_nat 0) with 0 in A.
    rewrite A. reflexivity.
  - unfold amp_samples.
    destruct (Z.ltb_spec (Z.of_nat (length old_samples) + 1) 0); [lia|].
    replace (Z.to_nat (Z.of_nat (length old_samples) + 1))
      with (length old_samples + 1)%nat by lia.
    assert (L : forall (todo done : list float),
              amp_loop factor (length todo + 1)
                (Z.of_nat (length done)) (done ++ todo) = None).
    { induction todo as [|x todo IH]; intros done.
      - cbn [length Nat.add amp_loop]. rewrite app_nil_r.
        rewrite read_double_outside by lia. reflexivity.
      - cbn [length Nat.add amp_loop].
        rewrite read_double_middle, write_double_middle.
        replace (Z.of_nat (length done) + 1)
          with (Z.of_nat (length (done ++ [(factor * x)%float])))
          by (rewrite length_app; cbn [length]; lia).
        apply IH. }
    pose proof (L old_samples []) as A.
    cbn [length app] in A. change (Z.of_nat 0) with 0 in A.
    rewrite A. reflexivity.
Qed.

(** ** mix *)

Lemma mix_loop_spec (shortest_samples todo done : list float) :
  shortest_samples <> [] ->
  mix_loop shortest_samples (Z.of_nat (length shortest_samples))
    (length todo) (Z.of_nat (length done)) (done ++ todo)
  = Some (done
          ++ map (fun p =>
                    ((fst p
                      + nth (snd p mod length shortest_samples)
                          shortest_samples 0)
                     / 2)%float)
               (combine todo (seq (length done) (length todo)))).
Proof.
  intros Hne.
  assert (Hs : (0 < length shortest_samples)%nat)
    by (destruct shortest_samples; [congruence | cbn; lia]).
  revert done. induction todo as [|x todo IH]; intros done;
    cbn [length mix_loop seq combine map]; [reflexivity|].
  rewrite read_double_middle.
  destruct (Z.eqb_spec (Z.of_nat (length shortest_samples)) 0); [lia|].
  rewrite Z.rem_mod_nonneg by lia.
  rewrite read_double_nth
    by (pose proof (Z.mod_pos_bound (Z.of_nat (length done))
                      (Z.of_nat (length shortest_samples))); lia).
  rewrite write_double_middle.
  set (v := ((x + _) / 2)%float).
  replace (Z.of_nat (length done) + 1)
    with (Z.of_nat (length (done ++ [v])))
    by (rewrite length_app; cbn [length]; lia).
  rewrite IH. rewrite <- app_assoc. cbn [app fst snd].
  replace (length (done ++ [v])) with (S (length done))
    by (rewrite length_app; cbn [length]; lia).
  do 3 f_equal. unfold v. do 3 f_equal.
  rewrite <- Nat2Z.inj_mod. apply Nat2Z.id.
Qed.

Lemma mix_loop_no_shortest (todo done : list float) (x : float) :
  mix_loop [] 0 (S (length todo)) (Z.of_nat (length done))
    (done ++ x :: todo) = None.
Proof.
  cbn [mix_loop]. rewrite read_double_middle. reflexivity.
Qed.

(** X26.  The loop of [mix], run with the true lengths of the two arrays.
    The longer recording (the second one when the lengths are equal) is
    averaged, in place, with the shorter one repeated from its start as
    often as needed; the loop never leaves either array.  When the
    shorter recording is empty and the longer one is not, [i % 0] is
    evaluated: the run has no defined result. *)
Theorem mix_samples_loops (file1_samples file2_samples : list float) :
  let n1 := Z.of_nat (length file1_samples) in
  let n2 := Z.of_nat (length file2_samples) in
  let longest := if n2 <? n1 then file1_samples else file2_samples in
  let shortest := if n2 <? n1 then file2_samples else file1_samples in
  (shortest = [] -> longest <> [] ->
   mix_samples file1_samples file2_samples n1 n2 = None)
  /\ (shortest <> [] ->
      exists mixed,
        mix_samples file1_samples file2_samples n1 n2
        = Some (mixed, Z.of_nat (length longest))
        /\ length mixed = length longest
        /\ forall i, (i < length longest)%nat ->
             nth i mixed 0%float
             = ((nth i longest 0
                 + nth (i mod length shortest) shortest 0) / 2)%float).
Proof.
  cbv zeta.
  set (n1 := Z.of_nat (length file1_samples)).
  set (n2 := Z.of_nat (length file2_samples)).
  set (longest := if n2 <? n1 then file1_samples else file2_samples).
  set (shortest := if n2 <? n1 then file2_samples else file1_samples).
  assert (E : mix_samples file1_samples file2_samples n1 n2
              = match mix_loop shortest (Z.of_nat (length shortest))
                        (length longest) 0 longest with
                | None => None
                | Some a => Some (a, Z.of_nat (length longest))
                end).
  { unfold mix_samples, longest, shortest.
    destruct (n2 <? n1); cbn iota.
    - fold n1 n2. destruct (Z.ltb_spec n1 0); [unfold n1 in *; lia|].
      unfold n1 at 1 3. rewrite Nat2Z.id. reflexivity.
    - fold n1 n2. destruct (Z.ltb_spec n2 0); [unfold n2 in *; lia|].
      unfold n2 at 1 3. rewrite Nat2Z.id. reflexivity. }
  split.
  - intros Hs Hl. rewrite E, Hs.
    destruct longest as [|x todo]; [congruence|].
    pose proof (mix_loop_no_shortest todo [] x) as M.
    cbn [length app] in M. change (Z.of_nat 0) with 0 in M.
    cbn [length]. change (Z.of_nat 0) with 0.
    rewrite M. reflexivity.
  - intros Hs. rewrite E.
    pose proof (mix_loop_spec shortest longest [] Hs) as M.
    cbn [length app] in M. change (Z.of_nat 0) with 0 in M.
    rewrite M. eexists. split; [reflexivity|].
    split; [rewrite length_map, length_combine, length_seq; lia|].
    intros i Hi.
    set (f := fun p : float * nat =>
                ((fst p + nth (snd p mod length shortest) shortest 0)
                 / 2)%float).
    rewrite (nth_indep _ 0%float (f (0%float, 0%nat)))
      by (rewrite length_map, length_combine, length_seq; lia).
    rewrite (map_nth f).
    rewrite combine_nth by (rewrite length_seq; reflexivity).
    rewrite seq_nth by exact Hi.
    unfold f. cbn [fst snd]. reflexivity.
Qed.

(** ** WavLength and WavLoad *)

(** What a filled array holds. *)
Lemma fill_loop_some (body : Z -> option float) (n : nat) (i : Z)
  (l : list float) :
  fill_loop body n i = Some l ->
  length l = n
  /\ forall j, (j < n)%nat -> body (i + Z.of_nat j) = Some (nth j l 0%float).
Proof.
  revert i l. induction n as [|n IH]; intros i l H; cbn [fill_loop] in H.
  - inversion H. split; [reflexivity|]. intros j Hj. lia.
  - destruct (body i) as [x|] eqn:Ex; [|discriminate].
    destruct (fill_loop body n (i + 1)) as [rest|] eqn:Er; [|discriminate].
    inversion H; subst. destruct (IH _ _ Er) as (L & B).
    split; [cbn [length]; lia|].
    intros [|j] Hj; cbn [nth].
    + change (Z.of_nat 0) with 0. rewrite Z.add_0_r. exact Ex.
    + replace (i + Z.of_nat (S j)) with (i + 1 + Z.of_nat j) by lia.
      apply B. lia.
Qed.

Lemma new_filled_some (n : Z) (body : Z -> option float) (l : list float) :
  new_filled n body = Some l ->
  0 <= n /\ Z.of_nat (length l) = n
  /\ forall k, 0 <= k < n -> body k = Some (nth (Z.to_nat k) l 0%float).
Proof.
  unfold new_filled. destruct (Z.ltb_spec n 0) as [Hn|Hn]; [discriminate|].
  intros H. destruct (fill_loop_some _ _ _ _ H) as (L & B).
  split; [lia|]. split; [lia|]. intros k Hk.
  specialize (B (Z.to_nat k) ltac:(lia)).
  rewrite Z2Nat.id, Z.add_0_l in B by lia. exact B.
Qed.

(** [WavLoad] returns when the load deletes no array twice and leaves the
    pointer off a deleted array, the count is not negative and every sample
    is read inside the array. *)
Lemma WavLoad_defined (fs : files) (filename : string) (wave : Wave)
  (printed : list string) (q : pointer) :
  Load Wave_new filename (file_contents fs filename) = Some (wave, printed) ->
  Load_pointer true null (file_contents fs filename) = Some q ->
  q <> deleted ->
  0 <= to_int (nsamples wave) ->
  (forall k, 0 <= k < to_int (nsamples wave) ->
     GetSample_defined wave (to_uint32 k) = true) ->
  WavLoad fs filename
  = Some (map (fun k => GetSample wave (to_uint32 (Z.of_nat k)))
            (seq 0 (Z.to_nat (to_int (nsamples wave)))),
          printed).
Proof.
  intros E Ep Hq Hn Hd. unfold WavLoad. rewrite E, Ep.
  rewrite (new_filled_defined _ _ (fun i => GetSample wave (to_uint32 i)));
    [|exact Hn|].
  - destruct q; [reflexivity | reflexivity | contradiction].
  - intros k Hk. unfold GetSample_checked. rewrite Hd by exact Hk.
    reflexivity.
Qed.

(** And only then. *)
Lemma WavLoad_some (fs : files) (filename : string) (samples : list float)
  (printed : list string) :
  WavLoad fs filename = Some (samples, printed) ->
  exists wave q,
    Load Wave_new filename (file_contents fs filename) = Some (wave, printed)
    /\ Load_pointer true null (file_contents fs filename) = Some q
    /\ q <> deleted
    /\ 0 <= to_int (nsamples wave)
    /\ Z.of_nat (length samples) = to_int (nsamples wave)
    /\ forall k, 0 <= k < to_int (nsamples wave) ->
         GetSample_defined wave (to_uint32 k) = true
         /\ nth (Z.to_nat k) samples 0%float = GetSample wave (to_uint32 k).
Proof.
  unfold WavLoad. intros H.
  destruct (Load Wave_new filename (file_contents fs filename))
    as [[wave pr]|] eqn:E; [|discriminate].
  destruct (Load_pointer true null (file_contents fs filename))
    as [q|] eqn:Ep; [|discriminate].
  destruct (new_filled _ _) as [l|] eqn:F; [|discriminate].
  destruct (destructor_defined q) eqn:Dq; [|discriminate].
  inversion H; subst. exists wave, q.
  destruct (new_filled_some _ _ _ F) as (Hn & L & B).
  split; [reflexivity|]. split; [reflexivity|].
  split; [intros ->; discriminate|].
  split; [exact Hn|]. split; [exact L|].
  intros k Hk. specialize (B k Hk). unfold GetSample_checked in B.
  destruct (GetSample_defined wave (to_uint32 k)); [|discriminate].
  inversion B. split; reflexivity.
Qed.

Lemma to_int_range (z : Z) : - 2 ^ 31 <= to_int z < 2 ^ 31.
Proof.
  unfold to_int. pose proof (Z.mod_pos_bound (z + 2 ^ 31) (2 ^ 32)). lia.
Qed.

(** What [WavLength] returns once [WavLoad] has returned. *)
Lemma WavLength_of_WavLoad (fs : files) (filename : string)
  (samples : list float) (printed : list string) :
  WavLoad fs filename = Some (samples, printed) ->
  exists printed',
    WavLength fs filename = Some (Z.of_nat (length samples), printed')
    /\ (file_contents fs filename <> None -> printed' = printed)
    /\ (file_contents fs filename = None ->
        samples = [] /\ printed' = []
        /\ printed = [cant_open_error filename]).
Proof.
  intros E.
  destruct (WavLoad_some fs filename samples printed E)
    as (wave & q & EL & _ & _ & Hn & L & _).
  destruct (file_contents fs filename) as [bytes|] eqn:Ec.
  - destruct (Load_metadata_agree Wave_new filename bytes)
      as (loaded & meta & cerr & E1 & E2 & R & _).
    rewrite EL in E1. inversion E1. subst loaded cerr.
    exists printed. unfold WavLength. rewrite Ec, E2.
    rewrite <- (same_metadata_nsamples wave meta R), L.
    split; [reflexivity|]. split; [reflexivity | discriminate].
  - cbn in EL. inversion EL. subst wave printed.
    change (to_int (nsamples Wave_new)) with 0 in L.
    destruct samples; [|cbn [length] in L; lia].
    exists []. unfold WavLength. rewrite Ec.
    split; [reflexivity|]. split; [congruence|].
    intros _. repeat split.
Qed.

(** X20.  [WavLength] reports the length of the array that [WavLoad]
    returns.  For a name that cannot be opened or that holds a file of
    complete chunks (so that the two runs read the same bytes), [WavLength]
    returns the count of the container that [Load] builds, as an [int].
    [WavLoad] returns an array when that count is not negative, the load
    deletes no array twice and does not leave the pointer on a deleted array
    (which the destructor would delete again), and every sample is read
    by a defined access; whenever it returns an array, the length of the
    array is the number that [WavLength] reported, so that the loops of the
    effects run with the true length, and its elements are the samples of
    the container.  The two print the same diagnostics, except for a file
    that cannot be opened, which only [WavLoad] reports, with an empty
    array. *)
Theorem WavLength_WavLoad (fs : files) (filename : string) (size : Z)
  (parts : list part) :
  0 <= size < 2 ^ 32 -> Forall part_ok parts ->
  file_contents fs filename = None
  \/ file_contents fs filename = Some (wave_file size parts) ->
  exists n printed wave printed',
    WavLength fs filename = Some (n, printed)
    /\ Load Wave_new filename (file_contents fs filename)
       = Some (wave, printed')
    /\ n = to_int (nsamples wave)
    /\ (file_contents fs filename <> None -> printed' = printed)
    /\ (file_contents fs filename = None ->
        n = 0 /\ printed = [] /\ printed' = [cant_open_error filename]
        /\ WavLoad fs filename = Some ([], printed'))
    /\ (0 <= n ->
        (exists q,
           Load_pointer true null (file_contents fs filename) = Some q
           /\ q <> deleted) ->
        (forall k, 0 <= k < n ->
           GetSample_defined wave (to_uint32 k) = true) ->
        exists samples, WavLoad fs filename = Some (samples, printed'))
    /\ forall samples printed'',
         WavLoad fs filename = Some (samples, printed'') ->
         printed'' = printed' /\ n = Z.of_nat (length samples)
         /\ forall k, 0 <= k < n ->
              nth (Z.to_nat k) samples 0%float = GetSample wave (to_uint32 k).
Proof.
  intros _ _ _.
  assert (H : exists n printed wave printed',
             WavLength fs filename = Some (n, printed)
             /\ Load Wave_new filename (file_contents fs filename)
                = Some (wave, printed')
             /\ n = to_int (nsamples wave)
             /\ (file_contents fs filename <> None -> printed' = printed)
             /\ (file_contents fs filename = None ->
                 n = 0 /\ printed = []
                 /\ printed' = [cant_open_error filename]
                 /\ WavLoad fs filename = Some ([], printed'))).
  { destruct (file_contents fs filename) as [bytes|] eqn:Ec.
    - destruct (Load_metadata_agree Wave_new filename bytes)
        as (loaded & meta & cerr & E1 & E2 & R & _).
      pose proof (same_metadata_nsamples loaded meta R) as En.
      exists (to_int (nsamples meta)), cerr, loaded, cerr.
      split; [unfold WavLength; rewrite Ec, E2; reflexivity|].
      split; [exact E1|]. split; [rewrite En; reflexivity|].
      split; [reflexivity | discriminate].
    - exists 0, [], Wave_new, [cant_open_error filename].
      split; [unfold WavLength; rewrite Ec; reflexivity|].
      split; [reflexivity|]. split; [reflexivity|].
      split; [congruence|]. intros _.
      split; [reflexivity|]. split; [reflexivity|]. split; [reflexivity|].
      unfold WavLoad. rewrite Ec. reflexivity. }
  destruct H as (n & printed & wave & printed' & E1 & E2 & En & Hp & Hnone).
  exists n, printed, wave, printed'.
  split; [exact E1|]. split; [exact E2|]. split; [exact En|].
  split; [exact Hp|]. split; [exact Hnone|].
  split.
  - intros Hn (q & Eq & Hq) B. eexists.
    apply (WavLoad_defined fs filename wave printed' q E2 Eq Hq);
      [rewrite <- En; exact Hn|].
    intros k Hk. rewrite <- En in Hk. apply B. exact Hk.
  - intros samples pr EW.
    destruct (WavLoad_some fs filename samples pr EW)
      as (wave' & q & EL & _ & _ & _ & L & B).
    rewrite E2 in EL. inversion EL. subst wave' pr.
    split; [reflexivity|]. split; [rewrite En, L; reflexivity|].
    intros k Hk. rewrite En in Hk. apply B. exact Hk.
Qed.

(** ** WavSave *)

Lemma SetSample_holds_samples (w : Wave) (count offset : Z) (value : float) :
  holds_samples w count -> holds_samples (SetSample w offset value) count.
Proof.
  intros (Hn & Hw & Hf & Hc & Hs & Hl).
  destruct (SetSample_frame w offset value) as (_ & Ef & _ & Eb & _ & El).
  cbv zeta in Ef, Eb, El.
  unfold holds_samples, bytes_per_sample_slice in *.
  rewrite nsamples_div in *. rewrite Ef, Eb, El.
  repeat split; assumption || lia.
Qed.

(** The loop of [WavSave] on a container that holds as many samples as the
    array: every sample is written, and reads back quantised. *)
Lemma WavSave_loop_spec (samples todo done : list float) (w : Wave) :
  samples = done ++ todo ->
  Z.of_nat (length samples) < 2 ^ 31 ->
  holds_samples w (Z.of_nat (length samples)) ->
  Forall (fun v =>
            ull_representable (scaled v (bytes_per_sample_slice w)) = true)
    todo ->
  (forall j, (j < length done)%nat ->
     GetSample w (Z.of_nat j)
     = quantised (nchannels (fmt_chunk w)) (bytes_per_sample_slice w)
         (nth j samples 0%float)) ->
  exists w',
    WavSave_loop samples (length todo) (Z.of_nat (length done)) w = Some w'
    /\ riff_chunk w' = riff_chunk w /\ fmt_chunk w' = fmt_chunk w
    /\ other_chunks w' = other_chunks w
    /\ data_base (data_chunk w') = data_base (data_chunk w)
    /\ (Wave_inv w -> Wave_inv w')
    /\ holds_samples w' (Z.of_nat (length samples))
    /\ forall j, (j < length samples)%nat ->
         GetSample w' (Z.of_nat j)
         = quantised (nchannels (fmt_chunk w)) (bytes_per_sample_slice w)
             (nth j samples 0%float).
Proof.
  revert done w.
  induction todo as [|x todo IH]; intros done w Es Hlen Hh Hrep Hd.
  - exists w. cbn [length WavSave_loop].
    rewrite Es, app_nil_r in *.
    split; [reflexivity|]. split; [reflexivity|]. split; [reflexivity|].
    split; [reflexivity|]. split; [reflexivity|].
    split; [intros H; exact H|]. split; [exact Hh | exact Hd].
  - cbn [length WavSave_loop]. rewrite Es, read_double_middle.
    assert (Hi : Z.of_nat (length done) < Z.of_nat (length samples)).
    { rewrite Es, length_app. cbn [length]. lia. }
    rewrite to_uint32_small by lia.
    set (i := Z.of_nat (length done)) in *.
    inversion Hrep as [|? ? Hx Hrep']; subst.
    assert (Hdef : SetSample_defined w i x = true).
    { apply (holds_samples_defined w _ i Hh); [unfold i; lia | exact Hx]. }
    unfold SetSample_checked. rewrite Hdef.
    set (w1 := SetSample w i x).
    pose proof (SetSample_holds_samples w _ i x Hh) as Hh1. fold w1 in Hh1.
    destruct (SetSample_frame w i x) as (Er & Ef & Eo & Eb & _).
    cbv zeta in Er, Ef, Eo, Eb. fold w1 in Er, Ef, Eo, Eb.
    destruct Hh as (Hn & Hw & Hf & Hc & Hs & Hl).
    assert (Ew : bytes_per_sample_slice w1 = bytes_per_sample_slice w)
      by (unfold bytes_per_sample_slice; rewrite Ef; reflexivity).
    destruct (IH (done ++ [x]) w1)
      as (w' & L & Er' & Ef' & Eo' & Eb' & I & Hh' & G).
    + rewrite <- app_assoc. reflexivity.
    + exact Hlen.
    + exact Hh1.
    + rewrite Ew. exact Hrep'.
    + intros j Hj. rewrite length_app in Hj. cbn [length] in Hj.
      rewrite Ef, Ew.
      destruct (Nat.eq_dec j (length done)) as [->|Hne].
      * rewrite app_nth2, Nat.sub_diag by lia. cbn [nth].
        fold i. unfold w1, quantised.
        apply SetSample_GetSample_mod; lia.
      * rewrite <- Hd by lia.
        apply GetSample_same_bytes; try assumption; try lia.
        intros k Hk. unfold w1.
        apply SetSample_bytes_outside; try assumption; try lia.
        assert (0 <= nchannels (fmt_chunk w) * bytes_per_sample_slice w)
          by nia.
        unfold i. nia.
    + exists w'.
      replace (Z.of_nat (length (done ++ [x]))) with (i + 1) in L
        by (rewrite length_app; cbn [length]; unfold i; lia).
      split; [exact L|].
      rewrite Er', Ef', Eo', Eb', Er, Ef, Eo, Eb.
      split; [reflexivity|]. split; [reflexivity|]. split; [reflexivity|].
      split; [reflexivity|]. split; [|split; [exact Hh'|]].
      * intros Hinv. apply I. apply SetSample_inv. exact Hinv.
      * intros j Hj. rewrite G by exact Hj. rewrite Ef, Ew. reflexivity.
Qed.

Lemma to_int_small (z : Z) : - 2 ^ 31 <= z < 2 ^ 31 -> to_int z = z.
Proof. intros H. unfold to_int. rewrite Z.mod_small by lia. lia. Qed.

Lemma map_over_indices (h : float -> float) (l : list float) :
  map (fun k => h (nth k l 0%float)) (seq 0 (length l)) = map h l.
Proof.
  apply (nth_ext _ _ (h 0%float) (h 0%float)).
  - rewrite !length_map, length_seq. reflexivity.
  - intros i Hi. rewrite length_map, length_seq in Hi.
    rewrite (map_nth h).
    rewrite (nth_indep _ (h 0%float) (h (nth 0 l 0%float)))
      by (rewrite length_map, length_seq; exact Hi).
    rewrite (map_nth (fun k => h (nth k l 0%float))).
    rewrite seq_nth by exact Hi. reflexivity.
Qed.

Lemma Save_opened (w : Wave) (filename : string) :
  exists bytes,
    Save w filename true = (fst (fst (Save w filename true)), Some bytes, []).
Proof. unfold Save. cbn [negb fst]. eexists. reflexivity. Qed.

(** [WavSave] under a name that does not exist yet: the file written, the
    container [Load] builds from it, and what its samples read as. *)
Lemma WavSave_fresh (fs : files) (filename : string) (samples : list float) :
  let n := Z.of_nat (length samples) in
  file_contents fs filename = None -> file_writable fs filename = true ->
  n * 2 < 2 ^ 31 ->
  Forall (fun v =>
            ull_representable
              ((v + 1) / 2 * ull_to_double (max_thing_value 2))%float
            = true) samples ->
  exists (bytes : list Z) (saved : Wave),
    WavSave fs filename samples n = Some (write_file fs filename bytes, [])
    /\ Load Wave_new filename (Some bytes) = Some (saved, [])
    /\ (exists q, Load_pointer true null (Some bytes) = Some q
                  /\ q <> deleted)
    /\ nsamples saved = n
    /\ forall j, (j < length samples)%nat ->
         GetSample_defined saved (Z.of_nat j) = true
         /\ GetSample saved (Z.of_nat j)
            = quantised 1 2 (nth j samples 0%float).
Proof.
  cbv zeta. intros Hnone Hwr Hfit Hrep.
  set (n := Z.of_nat (length samples)) in *.
  set (w0 := Resize n Wave_new).
  destruct (Resize_layout n Wave_new) as (En & Ea & Es & El & _);
    [vm_compute; split; reflexivity | lia | | ].
  { change (nchannels (fmt_chunk Wave_new)
            * (bits_per_sample (fmt_chunk Wave_new) / 8)) with 2. lia. }
  cbv zeta in En, Ea, Es, El. fold w0 in En, Ea, Es, El.
  change (nchannels (fmt_chunk Wave_new)
          * (bits_per_sample (fmt_chunk Wave_new) / 8)) with 2 in *.
  assert (Hh : holds_samples w0 n).
  { unfold holds_samples.
    change (nchannels (fmt_chunk w0)) with 1.
    change (bytes_per_sample_slice w0) with 2.
    rewrite Ea, En, Es, El.
    rewrite Z.mul_comm, Z.mod_mul by lia. lia. }
  assert (Hinv0 : Wave_inv w0) by (apply Resize_inv, Wave_new_inv).
  destruct (WavSave_loop_spec samples samples [] w0)
    as (w' & L & Er & Ef & Eo & Eb & I & Hh' & G);
    [reflexivity | lia | exact Hh | exact Hrep
    | intros j Hj; cbn in Hj; lia |].
  cbn [length] in L. change (Z.of_nat 0) with 0 in L.
  change (nchannels (fmt_chunk w0)) with 1 in G.
  change (bytes_per_sample_slice w0) with 2 in G.
  assert (Hinv : Wave_inv w') by (apply I; exact Hinv0).
  assert (Htags : Wave_tags w').
  { unfold Wave_tags. rewrite Er, Ef, Eo, Eb.
    apply (Resize_tags n Wave_new Wave_new_tags). }
  destruct (Save_opened w' filename) as (bytes & ES).
  unfold ostream in *.
  set (saved := fst (fst (Save w' filename true))) in *.
  assert (EL : Load Wave_new filename (Some bytes) = Some (saved, [])).
  { pose proof (Load_saved_into w' Wave_new filename Hinv Htags
                  Wave_new_tags) as R.
    cbv zeta in R. unfold ostream in *. rewrite ES in R.
    cbn [fst snd] in R.
    fold saved in R. rewrite R, Ef.
    cbn [Wave_new other_chunks app]. rewrite Wave_eta. reflexivity. }
  destruct (Save_frame w' filename) as (_ & Sd & Sw).
  cbv zeta in Sd, Sw. fold saved in Sd, Sw.
  assert (Sf : fmt_chunk saved = fmt_chunk w').
  { rewrite Sw.
    apply (UpdateFmtValues_again Wave_new (UpdateRiffFileSize w')).
    change (fmt_chunk (UpdateRiffFileSize w')) with (fmt_chunk w').
    rewrite Ef. reflexivity. }
  exists bytes, saved.
  split.
  { unfold WavSave. rewrite Hnone.
    change (LoadMetadata Wave_new filename None)
      with (Some (Wave_new, @nil string)).
    cbv iota. change (set_nchannels Wave_new 1) with Wave_new.
    rewrite to_uint32_small by lia. fold w0.
    destruct (Z.ltb_spec n 0); [lia|].
    unfold n at 1. rewrite Nat2Z.id, L, Hwr.
    unfold ostream in *. rewrite ES. reflexivity. }
  split; [exact EL|].
  split.
  { pose proof (Load_pointer_saved w' filename Hinv Htags) as P.
    unfold ostream in *. rewrite ES in P. exact P. }
  split.
  { rewrite <- En. rewrite !nsamples_div, Sf, Sd, Ef, Eb. reflexivity. }
  intros j Hj.
  destruct (GetSample_ext saved w' (Z.of_nat j) Sf Sd) as (_ & Eg).
  split; [|rewrite Eg; apply G; exact Hj].
  rewrite (GetSample_defined_ext saved w' (Z.of_nat j) Sf)
    by (rewrite Sd; reflexivity).
  apply (holds_samples_defined w' _ (Z.of_nat j) Hh'). lia.
Qed.

(** What [WavLength] and [WavLoad] return for a file from which [Load]
    builds a container whose samples are known. *)
Lemma WavLoad_of_loaded (fs : files) (filename : string) (bytes : list Z)
  (saved : Wave) (printed : list string) (h : float -> float)
  (l : list float) :
  file_contents fs filename = Some bytes ->
  Load Wave_new filename (Some bytes) = Some (saved, printed) ->
  (exists q, Load_pointer true null (Some bytes) = Some q /\ q <> deleted) ->
  nsamples saved = Z.of_nat (length l) ->
  Z.of_nat (length l) < 2 ^ 31 ->
  (forall j, (j < length l)%nat ->
     GetSample_defined saved (Z.of_nat j) = true
     /\ GetSample saved (Z.of_nat j) = h (nth j l 0%float)) ->
  WavLength fs filename = Some (Z.of_nat (length l), printed)
  /\ WavLoad fs filename = Some (map h l, printed).
Proof.
  intros Ec EL (q & Eq & Hq) En Hfit G. split.
  - unfold WavLength. rewrite Ec.
    destruct (Load_metadata_agree Wave_new filename bytes)
      as (loaded & meta & cerr & E1 & E2 & R & _).
    rewrite EL in E1. inversion E1. subst loaded cerr.
    rewrite E2, <- (same_metadata_nsamples saved meta R), En.
    rewrite to_int_small by lia. reflexivity.
  - rewrite (WavLoad_defined fs filename saved printed q);
      try (rewrite Ec; assumption); try exact Hq;
      rewrite En, to_int_small by lia.
    + f_equal. f_equal. rewrite Nat2Z.id.
      rewrite <- map_over_indices. apply map_ext_in.
      intros k Hk. apply in_seq in Hk.
      rewrite to_uint32_small by lia.
      apply G. lia.
    + lia.
    + intros k Hk. rewrite to_uint32_small by lia.
      rewrite <- (Z2Nat.id k) by lia. apply G. lia.
Qed.

Lemma write_file_contents (fs : files) (filename : string) (bytes : list Z) :
  file_contents (write_file fs filename bytes) filename = Some bytes
  /\ (forall name, name <> filename ->
        file_contents (write_file fs filename bytes) name
        = file_contents fs name)
  /\ file_writable (write_file fs filename bytes) = file_writable fs.
Proof.
  unfold write_file. cbn [file_contents file_writable].
  rewrite String.eqb_refl. split; [reflexivity|]. split; [|reflexivity].
  intros name Hname.
  destruct (String.eqb_spec name filename); [contradiction | reflexivity].
Qed.

(** X27.  [WavSave] and then [WavLoad].  Saving an array of samples under a
    name that does not exist yet (and can be written) creates a mono 16-bit
    file; [WavLength] then reports the length of the array and [WavLoad]
    returns the samples quantised to 16 bits, each the value
    [quantised 1 2] of the sample saved; no other file is touched and
    nothing is printed.  The samples are those whose scaled level converts
    to an [unsigned long long]; the byte size must fit an [int]. *)
Theorem WavSave_WavLoad (fs : files) (filename : string)
  (samples : list float) :
  let n := Z.of_nat (length samples) in
  file_contents fs filename = None -> file_writable fs filename = true ->
  n * 2 < 2 ^ 31 ->
  Forall (fun v =>
            ull_representable
              ((v + 1) / 2 * ull_to_double (max_thing_value 2))%float
            = true) samples ->
  exists fs',
    WavSave fs filename samples n = Some (fs', [])
    /\ WavLength fs' filename = Some (n, [])
    /\ WavLoad fs' filename = Some (map (quantised 1 2) samples, [])
    /\ (forall name, name <> filename ->
          file_contents fs' name = file_contents fs name)
    /\ file_writable fs' = file_writable fs.
Proof.
  cbv zeta. intros Hnone Hwr Hfit Hrep.
  destruct (WavSave_fresh fs filename samples Hnone Hwr Hfit Hrep)
    as (bytes & saved & ES & EL & EP & En & G).
  destruct (write_file_contents fs filename bytes) as (Ec & Eo & Ew).
  destruct (WavLoad_of_loaded (write_file fs filename bytes) filename bytes
              saved [] (quantised 1 2) samples Ec EL EP En)
    as (E1 & E2); [lia | exact G |].
  exists (write_file fs filename bytes).
  split; [exact ES|]. split; [exact E1|]. split; [exact E2|].
  split; [exact Eo | exact Ew].
Qed.

(** ** The effects on files *)

(** X28.  An effect from one file to a new one.  The input is a file of
    complete chunks, so that the two passes over it read the same bytes.
    When [WavLoad] returns an array for it, the loop of the effect is run on
    that array with its true length; when the loop gives a new array whose
    samples can all be converted and the result name does not exist yet,
    the run writes a mono 16-bit file from which [WavLoad] returns the new
    samples quantised to 16 bits, whatever the format of the input was.  The
    input is parsed twice, so that each of its diagnostics is printed
    twice. *)
Theorem effect_on_new_file
  (samples_loop : list float -> Z -> option (list float * Z))
  (fs : files) (filename result : string) (size : Z) (parts : list part)
  (samples new_samples : list float) (printed : list string) :
  0 <= size < 2 ^ 32 -> Forall part_ok parts ->
  file_contents fs filename = Some (wave_file size parts) ->
  WavLoad fs filename = Some (samples, printed) ->
  samples_loop samples (Z.of_nat (length samples))
  = Some (new_samples, Z.of_nat (length new_samples)) ->
  Forall (fun v =>
            ull_representable
              ((v + 1) / 2 * ull_to_double (max_thing_value 2))%float
            = true) new_samples ->
  file_contents fs result = None -> file_writable fs result = true ->
  Z.of_nat (length new_samples) * 2 < 2 ^ 31 ->
  exists fs',
    effect samples_loop fs filename result = Some (fs', printed ++ printed)
    /\ WavLength fs' result = Some (Z.of_nat (length new_samples), [])
    /\ WavLoad fs' result = Some (map (quantised 1 2) new_samples, [])
    /\ file_contents fs' filename = file_contents fs filename.
Proof.
  intros _ _ Hin Eload Eloop Hrep Hnone Hwr Hfit.
  destruct (WavSave_fresh fs result new_samples Hnone Hwr Hfit Hrep)
    as (bytes & saved & ES & EL & EP & En & G).
  destruct (write_file_contents fs result bytes) as (Ec & Eo & _).
  destruct (WavLoad_of_loaded (write_file fs result bytes) result bytes
              saved [] (quantised 1 2) new_samples Ec EL EP En)
    as (E1 & E2); [lia | exact G |].
  exists (write_file fs result bytes).
  split.
  { destruct (WavLength_of_WavLoad fs filename samples printed Eload)
      as (printed' & Elen & Ep & _).
    rewrite Ep in Elen by (rewrite Hin; discriminate).
    unfold effect, bind.
    rewrite Elen, Eload, Eloop. cbn [silent fst snd].
    rewrite ES. rewrite !app_nil_r. reflexivity. }
  split; [exact E1|]. split; [exact E2|].
  apply Eo. intros ->. congruence.
Qed.

(** X29.  [echo] on a short recording.  Whenever [WavLoad] returns fewer
    than 10000 samples for the input (a missing input included, for which
    it returns none), the run of [echo] has no defined result: its loop
    reads past the end of the array of samples. *)
Theorem echo_short_recording (fs : files) (filename result : string)
  (samples : list float) (printed : list string) :
  WavLoad fs filename = Some (samples, printed) ->
  Z.of_nat (length samples) < echo_delay ->
  echo fs filename result = None.
Proof.
  intros Eload Hshort.
  destruct (WavLength_of_WavLoad fs filename samples printed Eload)
    as (printed' & Elen & _).
  unfold echo, effect, bind.
  rewrite Elen, Eload, (echo_samples_short samples Hshort).
  reflexivity.
Qed.

(** X30.  An input that cannot be opened does not stop an effect.
    [WavLoad] prints its error and returns an empty array, [WavLength]
    prints nothing and reports no samples, and the run goes on: when the
    loop accepts the empty array and the result name is new, a file with
    no samples is written, as if the input had been an empty recording. *)
Theorem effect_missing_input
  (samples_loop : list float -> Z -> option (list float * Z))
  (fs : files) (filename result : string) :
  file_contents fs filename = None ->
  samples_loop [] 0 = Some ([], 0) ->
  file_contents fs result = None -> file_writable fs result = true ->
  exists fs',
    effect samples_loop fs filename result
    = Some (fs', [cant_open_error filename])
    /\ WavLength fs' result = Some (0, [])
    /\ WavLoad fs' result = Some ([], []).
Proof.
  intros Hin Eloop Hnone Hwr.
  destruct (WavSave_fresh fs result [] Hnone Hwr) as
    (bytes & saved & ES & EL & EP & En & G); [cbn; lia | constructor|].
  destruct (write_file_contents fs result bytes) as (Ec & _ & _).
  destruct (WavLoad_of_loaded (write_file fs result bytes) result bytes
              saved [] (quantised 1 2) [] Ec EL EP En)
    as (E1 & E2); [cbn; lia | exact G |].
  exists (write_file fs result bytes).
  split; [|split; [exact E1 | exact E2]].
  assert (Eload : WavLoad fs filename
                  = Some ([], [cant_open_error filename])).
  { rewrite (WavLoad_defined fs filename Wave_new
               [cant_open_error filename] null);
      try (rewrite Hin; reflexivity); try discriminate.
    - reflexivity.
    - intros k Hk. change (to_int (nsamples Wave_new)) with 0 in Hk. lia. }
  unfold effect, bind, WavLength. rewrite Hin.
  change (LoadMetadata Wave_new filename None)
    with (Some (Wave_new, @nil string)).
  cbv iota. change (to_int (nsamples Wave_new)) with 0.
  rewrite Eload, Eloop. cbn [silent fst snd length] in *.
  change (Z.of_nat 0) with 0 in ES. rewrite ES. reflexivity.
Qed.

End Uninitialised.

(** * Concrete instances *)

(** Closed goals are settled by evaluation. *)
Ltac evaluate :=
  vm_compute; repeat split;
  try reflexivity; try discriminate; try (intro; discriminate).

(** The concrete containers are states the program reaches. *)
Lemma instances_reachable :
  Resize junk_AA 4 Wave_new = wave_mono16
  /\ Resize junk_AA 4
       (with_fmt Wave_new
          (mk_FmtChunk (Chunk_new CHUNK_TYPE_FMT) 1 2 22050 0 0 16))
     = wave_stereo16
  /\ Load 0 junk_AA Wave_new "in.wav" (Some wav32_bytes)
     = Some (wave32, []).
Proof. repeat split; vm_compute; reflexivity. Qed.

(** ** C1: instance *)

Lemma out_of_range_sample_access_witness :
  nsamples wave_mono16 <= 4
  /\ GetSample wave_mono16 4 = 0%float
  /\ SetSample wave_mono16 4 1%float = wave_mono16.
Proof.
  split.
  - apply Z.leb_le. reflexivity.
  - assert (H : nsamples wave_mono16 <= 4) by (apply Z.leb_le; reflexivity).
    destruct (out_of_range_sample_access wave_mono16 4 1%float H)
      as (G & S & _).
    split; [exact G | exact S].
Defined.

(** ** C7: instances *)

Lemma fmt_values_recomputed_witness :
  0 <= nchannels (fmt_chunk Wave_new)
       * (bits_per_sample (fmt_chunk Wave_new) / 8) < 2 ^ 16
  /\ block_align (fmt_chunk (fst (fst (Save Wave_new "out.wav" true)))) = 2.
Proof.
  assert (H : 0 <= nchannels (fmt_chunk Wave_new)
                   * (bits_per_sample (fmt_chunk Wave_new) / 8) < 2 ^ 16)
    by evaluate.
  split; [exact H|].
  exact (proj1 (fmt_values_recomputed junk_AA Wave_new "out.wav" 4 H)).
Defined.

(** C7, counterexample.  After a save of [wave_wide], [block_align] is 0,
    not the product 65536, and [bytes_per_sec] is 65536, not
    [sample_rate * block_align] = 0. *)
Lemma fmt_values_recomputed_counterexample :
  let f := fmt_chunk wave_wide in
  let saved := fmt_chunk (fst (fst (Save wave_wide "out.wav" true))) in
  block_align saved = 0
  /\ bytes_per_sec saved = 65536
  /\ block_align saved <> nchannels f * (bits_per_sample f / 8)
  /\ bytes_per_sec saved <> sample_rate f * block_align saved
  /\ bytes_per_sec saved <> to_uint32 (sample_rate f * block_align saved).
Proof. evaluate. Qed.

(** ** C3: instances *)



(** ** C5: instances *)

Lemma Load_format_error_witness :
  fst (ReadLittleEndian 0 4 (mk_istream rifx_bytes true)) <> CHUNK_TYPE_RIFF
  /\ exists w',
       Load 0 junk_AA Wave_new "in.wav" (Some rifx_bytes)
       = Some (w', [not_wav_error "in.wav"]).
Proof.
  assert (H : fst (ReadLittleEndian 0 4 (mk_istream rifx_bytes true))
              <> CHUNK_TYPE_RIFF) by evaluate.
  split; [exact H|].
  destruct (Load_format_error 0 junk_AA Wave_new "in.wav" rifx_bytes
              (or_introl H)) as (w' & E & _).
  exists w'. exact E.
Defined.

(** C5, counterexample.  The outer marker is not "RIFF": [Load] prints the
    error and returns with the Riff chunk still at its default, size 36, not
    populated with the size 100 that the stream holds. *)
Lemma Load_format_error_counterexample :
  let file := mk_istream rifx_bytes true in
  let populated :=
    fst (RiffChunk_ReadFrom 0 (snd (ReadLittleEndian 0 4 file))
           (riff_chunk Wave_new)) in
  fst (ReadLittleEndian 0 4 file) <> CHUNK_TYPE_RIFF
  /\ Load 0 junk_AA Wave_new "in.wav" (Some rifx_bytes)
     = Some (Wave_new, [not_wav_error "in.wav"])
  /\ chunk_size (riff_base populated) = 100
  /\ chunk_size (riff_base (riff_chunk Wave_new)) = 36
  /\ riff_chunk Wave_new <> populated.
Proof. evaluate. Qed.

(** ** C2: instances *)

Lemma SetSample_GetSample_two_channels_witness :
  nchannels (fmt_chunk wave_stereo16) = 2
  /\ 0 <= 1 < nsamples wave_stereo16
  /\ GetSample (SetSample wave_stereo16 1 0.5%float) 1
     = munge (49151 + 49151) 2 2.
Proof.
  assert (H1 : nchannels (fmt_chunk wave_stereo16) = 2) by reflexivity.
  assert (H2 : block_align (fmt_chunk wave_stereo16)
               = 2 * bytes_per_sample_slice wave_stereo16) by reflexivity.
  assert (H3 : 1 <= bytes_per_sample_slice wave_stereo16 <= 3)
    by evaluate.
  assert (H4 : 0 <= 1 < nsamples wave_stereo16)
    by evaluate.
  assert (H5 : chunk_size (data_base (data_chunk wave_stereo16)) < 2 ^ 32)
    by evaluate.
  assert (H6 : chunk_size (data_base (data_chunk wave_stereo16))
               <= Z.of_nat (length (data_ (data_chunk wave_stereo16))))
    by evaluate.
  assert (H7 : ull_representable
                 ((0.5 + 1) / 2
                  * ull_to_double
                      (max_thing_value
                         (bytes_per_sample_slice wave_stereo16)))%float
               = true) by evaluate.
  assert (H8 : double_to_ull
                 ((0.5 + 1) / 2
                  * ull_to_double
                      (max_thing_value
                         (bytes_per_sample_slice wave_stereo16)))%float
               <= max_thing_value (bytes_per_sample_slice wave_stereo16))
    by evaluate.
  split; [exact H1|]. split; [exact H4|].
  exact (proj2 (proj2
    (SetSample_GetSample_two_channels wave_stereo16 1 0.5%float
       H1 H2 H3 H4 H5 H6 H7 H8))).
Defined.

(** C2, counterexample.  In the stereo 16-bit container, writing 0.5 at
    offset 1 stores the level 49151 in both channels, and reading it back
    gives a value below 0.5 (about 0.4999924), not 0.5. *)
Lemma SetSample_GetSample_counterexample :
  nchannels (fmt_chunk wave_stereo16) = 2
  /\ 1 < nsamples wave_stereo16
  /\ slice (data_ (data_chunk (SetSample wave_stereo16 1 0.5%float))) 4 4
     = [0xFF; 0x3F; 0xFF; 0x3F]
  /\ (GetSample (SetSample wave_stereo16 1 0.5%float) 1 <? 0.5)%float = true
  /\ GetSample (SetSample wave_stereo16 1 0.5%float) 1 <> 0.5%float.
Proof.
  assert (H : (GetSample (SetSample wave_stereo16 1 0.5%float) 1 <? 0.5)%float
              = true) by evaluate.
  split; [reflexivity|]. split; [reflexivity|].
  split; [vm_compute; reflexivity|]. split; [exact H|].
  intros E. rewrite E in H. vm_compute in H. discriminate.
Qed.

(** ** C8: a 32-bit sample *)

(** C8, the failing input.  The file loads without a diagnostic; its one
    slice reads 0x80000000 as an unsigned value, which exceeds the largest
    signed value, so the rule of the specification decodes it to 0 and the
    sample to -1.0.  [GetValue] instead obtains 0xFFFFFFFF00000000, because
    [(unsigned char)things[3] << 24] is a negative [int] that is
    sign-extended when it is or-ed into the [unsigned long long], and
    [GetSample] returns 8589934591.0. *)
Lemma GetSample_32bit_sign_extension :
  Load 0 junk_AA Wave_new "in.wav" (Some wav32_bytes) = Some (wave32, [])
  /\ bytes_per_sample_slice wave32 = 4
  /\ nsamples wave32 = 1
  /\ read_unsigned (data_ (data_chunk wave32)) 0 4 = 0x80000000
  /\ spec_decode (data_ (data_chunk wave32)) 0 4 true = 0
  /\ spec_GetSample wave32 0 = (-1)%float
  /\ GetValue (data_ (data_chunk wave32)) 0 4 true = 0xFFFFFFFF00000000
  /\ GetSample wave32 0 = 8589934591%float.
Proof. evaluate. Qed.


(** ** C6: instances *)

Lemma Save_riff_size_witness :
  chunk_size
    (riff_base (riff_chunk (fst (fst (Save wave_with_list "out.wav" true)))))
  = 24 + 4 + 16 + 16 + 3.
Proof.
  exact (proj2 (proj1 (Save_riff_size wave_with_list "out.wav" true)
                  eq_refl)
           ltac:(vm_compute; split; [discriminate | reflexivity])).
Defined.

(** C6, counterexample.  Not on every save, and not exactly the sum.  A
    save of [wave_mono16] that cannot open its destination leaves the size
    at 36, where the sum is 52.  The container loaded from
    [huge_list_bytes] holds an extra chunk of declared size 0xFFFFFFFF: the
    sum is 4294967339, and a save stores 43. *)
Lemma Save_riff_size_counterexample :
  chunk_size
    (riff_base (riff_chunk (fst (fst (Save wave_mono16 "out.wav" false)))))
  = 36
  /\ riff_size_sum wave_mono16 = 52
  /\ Load 0 junk_AA Wave_new "in.wav" (Some huge_list_bytes)
     = Some (wave_huge_list, [])
  /\ riff_size_sum wave_huge_list = 4294967339
  /\ chunk_size
       (riff_base
          (riff_chunk (fst (fst (Save wave_huge_list "out.wav" true)))))
     = 43.
Proof. evaluate. Qed.

(** ** C4: instance *)


(** ** C10: instance *)

(** Loading the same file twice, the second time without its data, leaves
    its "LIST" chunk twice in [other_chunks]. *)
Lemma Load_accumulates_other_chunks_witness :
  Forall part_ok data_then_list
  /\ parts_pointer true data_then_list null = Some owning
  /\ parts_pointer false data_then_list owning = Some deleted
  /\ exists w1 cerr1 w2 cerr2,
       Load 0 junk_AA Wave_new "a.wav" (Some (wave_file 50 data_then_list))
       = Some (w1, cerr1)
       /\ other_chunks w1 = [list2_chunk]
       /\ LoadMetadata 0 junk_AA w1 "b.wav"
            (Some (wave_file 50 data_then_list))
          = Some (w2, cerr2)
       /\ other_chunks w2 = [list2_chunk; list2_chunk].
Proof.
  assert (H1 : Forall DataChunk_inv (other_chunks Wave_new))
    by constructor.
  assert (H3 : 0 <= 50 < 2 ^ 32) by evaluate.
  assert (H4 : Forall part_ok data_then_list)
    by (repeat first [split | apply Forall_nil | apply Forall_cons];
        evaluate).
  assert (H5 : parts_pointer true data_then_list null = Some owning)
    by reflexivity.
  assert (H6 : parts_pointer false data_then_list owning = Some deleted)
    by reflexivity.
  split; [exact H4|]. split; [exact H5|]. split; [exact H6|].
  destruct (Load_accumulates_other_chunks 0 junk_AA Wave_new false true
              "a.wav" "b.wav" 50 50 data_then_list data_then_list
              null owning deleted H1 H3 H3 H4 H4 H5 H6)
    as ((w1 & cerr1 & w2 & cerr2 & E1 & _ & O1 & E2 & _ & O2 & _) & _).
  exists w1, cerr1, w2, cerr2.
  split; [exact E1|]. split; [exact O1|]. split; [exact E2 | exact O2].
Defined.

(** * Instances of the further properties *)

(** Invariants of closed containers are settled by evaluation as well,
    field by field. *)
Ltac evaluate_inv :=
  repeat first [split | apply Forall_nil | apply Forall_cons];
  evaluate.

(** ** The little-endian codec *)

Lemma ReadLittleEndian_WriteLittleEndian_witness :
  1 <= 2 <= 4
  /\ ReadLittleEndian 0 2
       (mk_istream (WriteLittleEndian 2 0x12345 [] ++ [0xFF]) true)
     = (0x2345, mk_istream [0xFF] true).
Proof.
  assert (H : 1 <= 2 <= 4) by lia.
  split; [exact H|].
  exact (proj1 (proj2
    (ReadLittleEndian_WriteLittleEndian 0 2 0x12345 [] [0xFF] H))).
Defined.

Lemma ReadLittleEndian_stream_witness :
  0 <= 4
  /\ in_good (snd (ReadLittleEndian 0 4 (mk_istream [1; 2] true))) = false.
Proof.
  assert (H : 0 <= 4) by lia.
  split; [exact H|].
  exact (proj1 (ReadLittleEndian_stream 0 4 (mk_istream [1; 2] true) H)).
Defined.

(** ** Chunks written and read back *)

Lemma FmtChunk_write_read_witness :
  FmtChunk_inv (fmt_chunk wave_stereo16)
  /\ FmtChunk_ReadFrom 0
       (snd (ReadLittleEndian 0 4
               (mk_istream
                  (FmtChunk_WriteTo (fmt_chunk wave_stereo16) [] ++ [7])
                  true)))
       FmtChunk_new
     = (fmt_chunk wave_stereo16, mk_istream [7] true, []).
Proof.
  assert (H1 : FmtChunk_inv (fmt_chunk wave_stereo16)) by evaluate_inv.
  assert (H2 : chunk_type (fmt_base FmtChunk_new)
               = chunk_type (fmt_base (fmt_chunk wave_stereo16)))
    by reflexivity.
  split; [exact H1|].
  exact (proj2 (proj2
    (FmtChunk_write_read 0 (fmt_chunk wave_stereo16) FmtChunk_new [7]
       H1 H2))).
Defined.

Lemma FmtChunk_ReadFrom_takes_20_bytes_witness :
  (20 <= length (in_bytes (mk_istream (repeat 0%Z 20 ++ [7%Z]) true)))%nat
  /\ snd (fst (FmtChunk_ReadFrom 0 (mk_istream (repeat 0 20 ++ [7]) true)
                 FmtChunk_new))
     = mk_istream [7] true.
Proof.
  assert (H1 : in_good (mk_istream (repeat 0 20 ++ [7]) true) = true)
    by reflexivity.
  assert (H2 : (20 <= length (in_bytes
                                (mk_istream (repeat 0%Z 20 ++ [7%Z])
                                   true)))%nat)
    by (simpl; lia).
  split; [exact H2|].
  exact (proj1
    (FmtChunk_ReadFrom_takes_20_bytes 0
       (mk_istream (repeat 0 20 ++ [7]) true) FmtChunk_new H1 H2)).
Defined.

Lemma DataChunk_write_read_witness :
  DataChunk_inv list_chunk
  /\ DataChunk_ReadFrom 0 junk_AA
       (snd (ReadLittleEndian 0 4
               (mk_istream (DataChunk_WriteTo list_chunk [] ++ [9]) true)))
       (DataChunk_of_type (chunk_type (data_base list_chunk)))
     = (list_chunk, mk_istream [9] true).
Proof.
  assert (H : DataChunk_inv list_chunk) by evaluate_inv.
  split; [exact H|].
  exact (proj1 (proj2 (proj2
    (DataChunk_write_read 0 junk_AA list_chunk [9] H)))).
Defined.

(** ** Files written and read back *)



Lemma Save_riff_size_against_file_witness :
  Wave_inv wave_with_list
  /\ exists file,
       snd (fst (Save wave_with_list "out.wav" true)) = Some file
       /\ chunk_size
            (riff_base
               (riff_chunk (fst (fst (Save wave_with_list "out.wav" true)))))
          = Z.of_nat (length file) - 8 - 1.
Proof.
  assert (H1 : Wave_inv wave_with_list) by evaluate_inv.
  assert (H2 : chunk_size (fmt_base (fmt_chunk wave_with_list)) = 16)
    by reflexivity.
  assert (H3 : 24 + 4 + 16
               + chunk_size (data_base (data_chunk wave_with_list))
               + sum_chunk_sizes (other_chunks wave_with_list) < 2 ^ 32)
    by reflexivity.
  split; [exact H1|].
  exact (Save_riff_size_against_file wave_with_list "out.wav" H1 H2 H3).
Defined.

Lemma Save_idempotent_witness :
  Wave_inv wave_with_list
  /\ Save (fst (fst (Save wave_with_list "out.wav" true))) "out.wav" true
     = (fst (fst (Save wave_with_list "out.wav" true)),
        snd (fst (Save wave_with_list "out.wav" true)), []).
Proof.
  assert (H : Wave_inv wave_with_list) by evaluate_inv.
  split; [exact H|].
  exact (proj2 (proj2 (Save_idempotent wave_with_list "out.wav" H))).
Defined.

Lemma LoadMetadata_agrees_with_Load_witness :
  Forall part_ok data_then_list
  /\ parts_pointer true data_then_list null = Some owning
  /\ parts_pointer false data_then_list null = Some null
  /\ exists loaded meta cerr,
       Load 0 junk_AA Wave_new "in.wav" (Some (wave_file 50 data_then_list))
       = Some (loaded, cerr)
       /\ LoadMetadata 0 junk_AA Wave_new "in.wav"
            (Some (wave_file 50 data_then_list))
          = Some (meta, cerr)
       /\ other_chunks meta = [list2_chunk]
       /\ nsamples meta = nsamples loaded.
Proof.
  assert (H1 : Forall DataChunk_inv (other_chunks Wave_new))
    by constructor.
  assert (H2 : 0 <= 50 < 2 ^ 32) by evaluate.
  assert (H3 : Forall part_ok data_then_list) by evaluate_inv.
  assert (H4 : parts_pointer true data_then_list null = Some owning)
    by reflexivity.
  assert (H5 : parts_pointer false data_then_list null = Some null)
    by reflexivity.
  split; [exact H3|]. split; [exact H4|]. split; [exact H5|].
  destruct (LoadMetadata_agrees_with_Load 0 junk_AA Wave_new "in.wav" 50
              data_then_list null owning null H1 H2 H3 H4 H5)
    as (loaded & meta & cerr & E1 & _ & E2 & _ & _ & _ & O & Ol & _ & N & _).
  exists loaded, meta, cerr.
  split; [exact E1|]. split; [exact E2|].
  split; [rewrite O; exact Ol | exact N].
Defined.

Lemma Wave_inv_kept_witness :
  Wave_inv wave_with_list
  /\ pointer_agrees (data_chunk wave_with_list) owning
  /\ Wave_inv (Resize junk_AA 3 wave_with_list)
  /\ pointer_agrees (data_chunk (Resize junk_AA 3 wave_with_list)) owning
  /\ Wave_inv (SetSample wave_with_list 1 0.5%float).
Proof.
  assert (H : Wave_inv wave_with_list) by evaluate_inv.
  assert (P : pointer_agrees (data_chunk wave_with_list) owning)
    by evaluate.
  assert (R1 : Resize_pointer 3 wave_with_list owning = Some owning)
    by reflexivity.
  assert (R2 : owning <> deleted) by discriminate.
  assert (S1 : SetSample_defined wave_with_list 1 0.5%float = true)
    by (vm_compute; reflexivity).
  split; [exact H|]. split; [exact P|].
  destruct (Wave_inv_kept 0 junk_AA wave_with_list "in.wav"
              (Some wav32_bytes) 3 1 0.5%float true owning H P)
    as (_ & _ & R & S & _).
  destruct (R owning R1 R2) as (Ri & Rp).
  split; [exact Ri|]. split; [exact Rp|].
  exact (proj1 (S S1)).
Defined.

(** ** Resizing and sample access *)


Lemma SetSample_other_samples_witness :
  0 <= 1 < nsamples wave_stereo16 /\ 0 <= 2 < nsamples wave_stereo16
  /\ GetSample (SetSample wave_stereo16 1 0.5%float) 2
     = GetSample wave_stereo16 2.
Proof.
  assert (H1 : 0 <= bytes_per_sample_slice wave_stereo16) by evaluate.
  assert (H2 : 0 <= nchannels (fmt_chunk wave_stereo16)) by evaluate.
  assert (H3 : nchannels (fmt_chunk wave_stereo16)
               * bytes_per_sample_slice wave_stereo16
               <= block_align (fmt_chunk wave_stereo16)) by evaluate.
  assert (H4 : 0 <= 1 < nsamples wave_stereo16) by evaluate.
  assert (H5 : 0 <= 2 < nsamples wave_stereo16) by evaluate.
  assert (H6 : 1 <> 2) by discriminate.
  assert (H7 : chunk_size (data_base (data_chunk wave_stereo16)) < 2 ^ 32)
    by evaluate.
  assert (H8 : chunk_size (data_base (data_chunk wave_stereo16))
               <= Z.of_nat (length (data_ (data_chunk wave_stereo16))))
    by evaluate.
  split; [exact H4|]. split; [exact H5|].
  exact (proj2
    (SetSample_other_samples wave_stereo16 1 2 0.5%float
       H1 H2 H3 H4 H5 H6 H7 H8)).
Defined.

Lemma SetSample_GetSample_all_channels_witness :
  nchannels (fmt_chunk wave_mono16) = 1
  /\ 0 <= 1 < nsamples wave_mono16
  /\ GetSample (SetSample wave_mono16 1 0.5%float) 1
     = munge (1 * 49151) 1 2.
Proof.
  assert (H1 : 1 <= nchannels (fmt_chunk wave_mono16)) by evaluate.
  assert (H2 : nchannels (fmt_chunk wave_mono16)
               * bytes_per_sample_slice wave_mono16
               <= block_align (fmt_chunk wave_mono16)) by evaluate.
  assert (H3 : 1 <= bytes_per_sample_slice wave_mono16 <= 3) by evaluate.
  assert (H4 : 0 <= 1 < nsamples wave_mono16) by evaluate.
  assert (H5 : chunk_size (data_base (data_chunk wave_mono16)) < 2 ^ 32)
    by evaluate.
  assert (H6 : chunk_size (data_base (data_chunk wave_mono16))
               <= Z.of_nat (length (data_ (data_chunk wave_mono16))))
    by evaluate.
  assert (H7 : double_to_ull
                 ((0.5 + 1) / 2
                  * ull_to_double
                      (max_thing_value
                         (bytes_per_sample_slice wave_mono16)))%float
               <= max_thing_value (bytes_per_sample_slice wave_mono16))
    by evaluate.
  assert (H8 : ull_representable
                 ((0.5 + 1) / 2
                  * ull_to_double
                      (max_thing_value
                         (bytes_per_sample_slice wave_mono16)))%float
               = true) by evaluate.
  split; [reflexivity|]. split; [exact H4|].
  exact (proj2 (proj2 (proj2 (proj2
    (SetSample_GetSample_all_channels wave_mono16 1 0.5%float
       H1 H2 H3 H4 H5 H6 H8 H7))))).
Defined.

Lemma SetSample_GetSample_extremes_witness :
  0 <= 1 < nsamples wave_stereo16
  /\ GetSample (SetSample wave_stereo16 1 1%float) 1 = 1%float
  /\ PrimFloat.ltb (GetSample (SetSample wave_stereo16 1 0%float) 1) 0
     = true.
Proof.
  assert (H1 : 1 <= nchannels (fmt_chunk wave_stereo16) <= 2) by evaluate.
  assert (H2 : nchannels (fmt_chunk wave_stereo16)
               * bytes_per_sample_slice wave_stereo16
               <= block_align (fmt_chunk wave_stereo16)) by evaluate.
  assert (H3 : 1 <= bytes_per_sample_slice wave_stereo16 <= 3) by evaluate.
  assert (H4 : 0 <= 1 < nsamples wave_stereo16) by evaluate.
  assert (H5 : chunk_size (data_base (data_chunk wave_stereo16)) < 2 ^ 32)
    by evaluate.
  assert (H6 : chunk_size (data_base (data_chunk wave_stereo16))
               <= Z.of_nat (length (data_ (data_chunk wave_stereo16))))
    by evaluate.
  split; [exact H4|].
  destruct (SetSample_GetSample_extremes wave_stereo16 1
              H1 H2 H3 H4 H5 H6) as (One & _ & Zero).
  split; [exact One | exact Zero].
Defined.

(** ** Sessions *)

Lemma Resize_SetSample_Save_Load_witness :
  Resize_pointer 2 Wave_new null = Some owning
  /\ SetSamples_defined (Resize junk_AA 2 Wave_new)
       [(0, 0.5%float); (1, (-0.5)%float)] = true
  /\ GetSample
       (fst (fst (Save
                    (SetSample
                       (SetSample (Resize junk_AA 2 Wave_new) 0 0.5%float)
                       1 (-0.5)%float)
                    "out.wav" true)))
       1
     = GetSample
         (SetSample (SetSample (Resize junk_AA 2 Wave_new) 0 0.5%float)
            1 (-0.5)%float)
         1.
Proof.
  assert (H1 : Wave_inv Wave_new) by evaluate_inv.
  assert (H2 : Wave_tags Wave_new) by evaluate_inv.
  assert (H3 : Resize_pointer 2 Wave_new null = Some owning)
    by reflexivity.
  assert (H4 : SetSamples_defined (Resize junk_AA 2 Wave_new)
                 [(0, 0.5%float); (1, (-0.5)%float)] = true)
    by (vm_compute; reflexivity).
  assert (H5 : owning <> deleted) by discriminate.
  assert (H6 : GetSample_defined
                 (SetSample
                    (SetSample (Resize junk_AA 2 Wave_new) 0 0.5%float)
                    1 (-0.5)%float) 1 = true)
    by (vm_compute; reflexivity).
  split; [exact H3|]. split; [exact H4|].
  exact (proj2 (proj2 (proj2 (proj2 (proj2 (proj2 (proj2 (proj2
    (Resize_SetSample_Save_Load 0 junk_AA Wave_new 2
       [(0, 0.5%float); (1, (-0.5)%float)] "out.wav" null owning
       H1 H2 H3 H5 H4))))))) 1) H6).
Defined.

Lemma Load_Save_Load_witness :
  Load 0 junk_AA Wave_new "in.wav" (Some wav32_bytes) = Some (wave32, [])
  /\ Load 0 junk_AA Wave_new "in.wav"
       (snd (fst (Save wave32 "in.wav" true)))
     = Some (fst (fst (Save wave32 "in.wav" true)), []).
Proof.
  assert (H1 : Wave_inv Wave_new) by evaluate_inv.
  assert (H2 : Wave_tags Wave_new) by evaluate_inv.
  assert (H3 : Load 0 junk_AA Wave_new "in.wav" (Some wav32_bytes)
               = Some (wave32, [])) by (vm_compute; reflexivity).
  assert (H4 : riff_type (riff_chunk wave32) = RIFF_TYPE_WAVE)
    by reflexivity.
  split; [exact H3|].
  exact (proj1
    (Load_Save_Load 0 junk_AA Wave_new wave32 "in.wav" (Some wav32_bytes)
       [] H1 H2 H3 H4)).
Defined.


(** ** Values beyond full scale *)

Lemma SetSample_GetSample_wraps_witness :
  0 <= 1 < nsamples wave_mono16
  /\ GetSample (SetSample wave_mono16 1 1.5%float) 1
     = munge (1 * 16382) 1 2.
Proof.
  assert (H1 : 1 <= nchannels (fmt_chunk wave_mono16)) by evaluate.
  assert (H2 : nchannels (fmt_chunk wave_mono16)
               * bytes_per_sample_slice wave_mono16
               <= block_align (fmt_chunk wave_mono16)) by evaluate.
  assert (H3 : 1 <= bytes_per_sample_slice wave_mono16 <= 3) by evaluate.
  assert (H4 : 0 <= 1 < nsamples wave_mono16) by evaluate.
  assert (H5 : chunk_size (data_base (data_chunk wave_mono16)) < 2 ^ 32)
    by evaluate.
  assert (H6 : chunk_size (data_base (data_chunk wave_mono16))
               <= Z.of_nat (length (data_ (data_chunk wave_mono16))))
    by evaluate.
  assert (H7 : ull_representable
                 ((1.5 + 1) / 2
                  * ull_to_double
                      (max_thing_value
                         (bytes_per_sample_slice wave_mono16)))%float
               = true) by evaluate.
  split; [exact H4|].
  exact (proj1
    (SetSample_GetSample_wraps wave_mono16 1 1.5%float
       H1 H2 H3 H4 H5 H6 H7)).
Defined.

(** ** wave.cpp *)

Lemma WavSave_WavLoad_witness :
  file_contents no_files "out.wav" = None
  /\ exists fs',
       WavSave 0 junk_AA no_files "out.wav" [0.5%float; (-0.5)%float] 2
       = Some (fs', [])
       /\ WavLoad 0 junk_AA fs' "out.wav"
          = Some (map (quantised 1 2) [0.5%float; (-0.5)%float], []).
Proof.
  assert (H1 : file_contents no_files "out.wav" = None) by reflexivity.
  assert (H2 : file_writable no_files "out.wav" = true) by reflexivity.
  assert (H3 : Z.of_nat (length [0.5%float; (-0.5)%float]) * 2 < 2 ^ 31)
    by reflexivity.
  assert (H4 : Forall
                 (fun v =>
                    ull_representable
                      ((v + 1) / 2
                       * ull_to_double (max_thing_value 2))%float
                    = true)
                 [0.5%float; (-0.5)%float])
    by (repeat constructor).
  split; [exact H1|].
  destruct (WavSave_WavLoad 0 junk_AA no_files "out.wav"
              [0.5%float; (-0.5)%float] H1 H2 H3 H4)
    as (fs' & S & _ & L & _).
  exists fs'. split; [exact S | exact L].
Defined.

Lemma WavLength_WavLoad_witness :
  Forall part_ok wav16_parts
  /\ file_contents one_file "in.wav" = Some (wave_file 48 wav16_parts)
  /\ WavLength 0 junk_AA one_file "in.wav" = Some (2, [])
  /\ WavLoad 0 junk_AA one_file "in.wav"
     = Some (map (quantised 1 2) [0.5%float; (-0.5)%float], []).
Proof.
  assert (H1 : 0 <= 48 < 2 ^ 32) by evaluate.
  assert (H2 : Forall part_ok wav16_parts) by evaluate_inv.
  assert (H3 : file_contents one_file "in.wav"
               = Some (wave_file 48 wav16_parts)) by reflexivity.
  assert (H4 : WavLoad 0 junk_AA one_file "in.wav"
               = Some (map (quantised 1 2) [0.5%float; (-0.5)%float], []))
    by (vm_compute; reflexivity).
  split; [exact H2|]. split; [exact H3|].
  destruct (WavLength_WavLoad 0 junk_AA one_file "in.wav" 48 wav16_parts
              H1 H2 (or_intror H3))
    as (n & printed & wave & printed' & E & _ & _ & P & _ & _ & L).
  destruct (L _ _ H4) as (Ep & En & _).
  split; [|exact H4].
  rewrite E. rewrite <- (P ltac:(rewrite H3; discriminate)), <- Ep, En.
  reflexivity.
Defined.

Lemma effect_on_new_file_witness :
  Forall part_ok wav16_parts
  /\ file_contents one_file "in.wav" = Some (wave_file 48 wav16_parts)
  /\ WavLoad 0 junk_AA one_file "in.wav"
     = Some (map (quantised 1 2) [0.5%float; (-0.5)%float], [])
  /\ exists fs',
       reverse 0 junk_AA one_file "in.wav" "out.wav" = Some (fs', [])
       /\ WavLoad 0 junk_AA fs' "out.wav"
          = Some (map (quantised 1 2)
                    (rev (map (quantised 1 2) [0.5%float; (-0.5)%float])),
                  []).
Proof.
  assert (H0 : 0 <= 48 < 2 ^ 32) by evaluate.
  assert (H1 : WavLoad 0 junk_AA one_file "in.wav"
               = Some (map (quantised 1 2) [0.5%float; (-0.5)%float], []))
    by (vm_compute; reflexivity).
  assert (H2 : file_contents one_file "in.wav"
               = Some (wave_file 48 wav16_parts)) by reflexivity.
  assert (H3 : reverse_samples
                 (map (quantised 1 2) [0.5%float; (-0.5)%float])
                 (Z.of_nat
                    (length (map (quantised 1 2)
                               [0.5%float; (-0.5)%float])))
               = Some (rev (map (quantised 1 2) [0.5%float; (-0.5)%float]),
                       Z.of_nat
                         (length
                            (rev (map (quantised 1 2)
                                    [0.5%float; (-0.5)%float])))))
    by (vm_compute; reflexivity).
  assert (H4 : file_contents one_file "out.wav" = None) by reflexivity.
  assert (H5 : file_writable one_file "out.wav" = true) by reflexivity.
  assert (H6 : Z.of_nat
                 (length (rev (map (quantised 1 2)
                                 [0.5%float; (-0.5)%float]))) * 2
               < 2 ^ 31) by reflexivity.
  assert (H7 : Forall part_ok wav16_parts) by evaluate_inv.
  assert (H8 : Forall
                 (fun v =>
                    ull_representable
                      ((v + 1) / 2
                       * ull_to_double (max_thing_value 2))%float
                    = true)
                 (rev (map (quantised 1 2) [0.5%float; (-0.5)%float])))
    by (repeat constructor).
  split; [exact H7|]. split; [exact H2|]. split; [exact H1|].
  destruct (effect_on_new_file 0 junk_AA reverse_samples one_file
              "in.wav" "out.wav" 48 wav16_parts _ _ []
              H0 H7 H2 H1 H3 H8 H4 H5 H6)
    as (fs' & E & _ & L & _).
  exists fs'. split; [exact E | exact L].
Defined.

Lemma echo_short_recording_witness :
  WavLoad 0 junk_AA one_file "in.wav"
  = Some (map (quantised 1 2) [0.5%float; (-0.5)%float], [])
  /\ echo 0 junk_AA one_file "in.wav" "out.wav" = None.
Proof.
  assert (H1 : WavLoad 0 junk_AA one_file "in.wav"
               = Some (map (quantised 1 2) [0.5%float; (-0.5)%float], []))
    by (vm_compute; reflexivity).
  assert (H2 : Z.of_nat
                 (length (map (quantised 1 2) [0.5%float; (-0.5)%float]))
               < echo_delay) by reflexivity.
  split; [exact H1|].
  exact (echo_short_recording 0 junk_AA one_file "in.wav" "out.wav"
           _ _ H1 H2).
Defined.

Lemma effect_missing_input_witness :
  file_contents no_files "in.wav" = None
  /\ exists fs',
       reverse 0 junk_AA no_files "in.wav" "out.wav"
       = Some (fs', [cant_open_error "in.wav"])
       /\ WavLength 0 junk_AA fs' "out.wav" = Some (0, []).
Proof.
  assert (H1 : file_contents no_files "in.wav" = None) by reflexivity.
  assert (H2 : reverse_samples [] 0 = Some ([], 0)) by reflexivity.
  assert (H3 : file_contents no_files "out.wav" = None) by reflexivity.
  assert (H4 : file_writable no_files "out.wav" = true) by reflexivity.
  split; [exact H1|].
  destruct (effect_missing_input 0 junk_AA reverse_samples no_files
              "in.wav" "out.wav" H1 H2 H3 H4)
    as (fs' & E & L & _).
  exists fs'. split; [exact E | exact L].
Defined.
